(** * Oloha backend: the encrypted session-authentication layer

    A shallow embedding of
    - [middlewares/auth-middleware/auth.middleware.js]
      ([encryptToken], [decryptToken], [encryptedAuthMiddleware],
      [generateEncryptedToken]),
    - [helpers/token-helper/token.helper.js] ([generateSecureToken]),
    - [controllers/super-admin-controller/super-admin.controller.js]
      ([loginSuperAdmin], [logoutSuperAdmin]) and the user controller
      ([loginUser]),
    together with the properties of the specification that concern them;
    and, around them, of
    - the rest of [token.helper.js] and the password helper
      ([passwordRegex], [validatePasswordStrength], [hashPassword]),
    - [registerSuperAdmin], [logoutUser] and the two log-out routes,
    - [loginAgency] and the status of an agency,
    - the password service and its controller ([generateResetToken],
      [verifyResetToken], [resetUserPassword], [forgotPassword],
      [resetPassword], [verifyToken]),
    - the validators of the admin console ([validateEmail],
      [validatePassword], [validateContactNumber]),
    with what the code guarantees about them.

    Conventions.  Times are integers: [Date.now()] is a number of
    milliseconds, and every read of the clock inside one request returns
    the same instant [now].  Random bytes drawn by [crypto.randomBytes] are
    an argument of the function that draws them.  Buffers are lists of
    bytes.  Text that travels as plaintext through the cipher is a
    JavaScript string, that is a list of UTF-16 code units; identifiers,
    messages, hex strings and cookie values are ASCII and are [string]s. *)

From Stdlib Require Import ZArith NArith List String Ascii Bool Lia DecimalString.
From Stdlib.Strings Require Import Byte.
Import ListNotations.

Set Warnings "-register-all".

Local Open Scope string_scope.
Local Open Scope Z_scope.

(* ================================================================== *)
(** ** JavaScript values seen by the authentication code *)
(* ================================================================== *)

Module Js.

(** The primitive values a parsed JSON document or a Mongoose field
    holds in this code.  Objects appear as records of such values. *)
Inductive value : Type :=
| Undefined
| Null
| Bool (b : bool)
| Num (n : Z)
| Str (s : string).

(** [!!v] *)
Definition truthy (v : value) : bool :=
  match v with
  | Undefined | Null => false
  | Bool b => b
  | Num n => negb (n =? 0)
  | Str s => negb (s =? "")%string
  end.

(** [a === b] *)
Definition strict_eq (a b : value) : bool :=
  match a, b with
  | Undefined, Undefined => true
  | Null, Null => true
  | Bool x, Bool y => Bool.eqb x y
  | Num x, Num y => x =? y
  | Str x, Str y => (x =? y)%string
  | _, _ => false
  end.

(** JSON documents sent back in a response body; an object keeps its
    keys in insertion order, as [JSON.stringify] prints them. *)
Inductive json : Type :=
| JNull
| JBool (b : bool)
| JNum (n : Z)
| JStr (s : string)
| JObj (fields : list (string * json)).

(** A template literal [`${n}`] for an integer [n]. *)
Definition show_int (n : Z) : string := NilZero.string_of_int (Z.to_int n).

(** [Math.ceil(a / b)] for integers [a] and [b > 0]. *)
Definition ceil_div (a b : Z) : Z := - ((- a) / b).

(** [Math.floor(a / b)] for integers [a] and [b > 0]. *)
Definition floor_div (a b : Z) : Z := a / b.

End Js.

(* ================================================================== *)
(** ** Buffers: bytes, xor, and the ["hex"] encoding *)
(* ================================================================== *)

Module Buf.

Definition to_Z (b : byte) : Z := Z.of_N (Byte.to_N b).

(** The byte of an integer in [0, 256) (the low byte otherwise). *)
Definition of_Z (z : Z) : byte :=
  match Byte.of_N (Z.to_N (z mod 256)) with
  | Some b => b
  | None => x00
  end.

Definition xor (a b : byte) : byte :=
  let '(a0, (a1, (a2, (a3, (a4, (a5, (a6, a7))))))) := Byte.to_bits a in
  let '(b0, (b1, (b2, (b3, (b4, (b5, (b6, b7))))))) := Byte.to_bits b in
  Byte.of_bits (xorb a0 b0, (xorb a1 b1, (xorb a2 b2, (xorb a3 b3,
               (xorb a4 b4, (xorb a5 b5, (xorb a6 b6, xorb a7 b7))))))).

(** One digit of [Buffer.prototype.toString("hex")]: lower case. *)
Definition hex_digit (n : Z) : ascii :=
  if n <? 10 then ascii_of_N (Z.to_N (48 + n))
  else ascii_of_N (Z.to_N (87 + n)).

(** One digit as [Buffer.from(s, "hex")] reads it: both cases. *)
Definition hex_value (c : ascii) : option Z :=
  let n := Z.of_N (N_of_ascii c) in
  if (48 <=? n) && (n <=? 57) then Some (n - 48)
  else if (97 <=? n) && (n <=? 102) then Some (n - 87)
  else if (65 <=? n) && (n <=? 70) then Some (n - 55)
  else None.

(** [buf.toString("hex")] *)
Fixpoint toString_hex (bs : list byte) : string :=
  match bs with
  | [] => EmptyString
  | b :: rest =>
      String (hex_digit (to_Z b / 16))
        (String (hex_digit (to_Z b mod 16)) (toString_hex rest))
  end.

(** [Buffer.from(s, "hex")]: pairs of digits are decoded until the
    first pair that is not hexadecimal; a trailing single digit is
    dropped. *)
Fixpoint from_hex (s : string) : list byte :=
  match s with
  | String c1 (String c2 rest) =>
      match hex_value c1, hex_value c2 with
      | Some h, Some l => of_Z (16 * h + l) :: from_hex rest
      | _, _ => []
      end
  | _ => []
  end.

(** [after] is [before] with the byte at one position replaced by a
    different byte. *)
Inductive flip1 : list byte -> list byte -> Prop :=
| flip1_at (pre : list byte) (b b' : byte) (post : list byte) :
    b <> b' -> flip1 (pre ++ b :: post) (pre ++ b' :: post).

Fixpoint list_eqb (a b : list byte) : bool :=
  match a, b with
  | [], [] => true
  | x :: a', y :: b' => Byte.eqb x y && list_eqb a' b'
  | _, _ => false
  end.

End Buf.

(* ================================================================== *)
(** ** JavaScript strings and the ["utf8"] encoding of buffers *)
(* ================================================================== *)

Module Utf8.

(** A JavaScript string: its UTF-16 code units. *)
Definition ustring : Type := list Z.

Definition is_high (u : Z) : bool := (0xD800 <=? u) && (u <=? 0xDBFF).
Definition is_low (u : Z) : bool := (0xDC00 <=? u) && (u <=? 0xDFFF).
Definition is_cont (x : Z) : bool := (0x80 <=? x) && (x <=? 0xBF).

(** U+FFFD, which replaces what cannot be encoded or decoded. *)
Definition replacement : Z := 0xFFFD.
Definition replacement_bytes : list byte := [xef; xbf; xbd].

(** [Buffer.from(s, "utf8")], also what [cipher.update(s, "utf8")]
    feeds to the cipher: a surrogate pair becomes one four-byte
    sequence, a surrogate that has no partner becomes U+FFFD. *)
Fixpoint encode (s : ustring) : list byte :=
  match s with
  | [] => []
  | u :: rest =>
      if u <? 0x80 then Buf.of_Z u :: encode rest
      else if u <? 0x800 then
        Buf.of_Z (0xC0 + u / 64) :: Buf.of_Z (0x80 + u mod 64) :: encode rest
      else if is_high u then
        match rest with
        | v :: rest' =>
            if is_low v then
              let cp := 0x10000 + (u - 0xD800) * 1024 + (v - 0xDC00) in
              Buf.of_Z (0xF0 + cp / 262144)
                :: Buf.of_Z (0x80 + (cp / 4096) mod 64)
                :: Buf.of_Z (0x80 + (cp / 64) mod 64)
                :: Buf.of_Z (0x80 + cp mod 64) :: encode rest'
            else replacement_bytes ++ encode rest
        | [] => replacement_bytes
        end
      else if is_low u then replacement_bytes ++ encode rest
      else
        Buf.of_Z (0xE0 + u / 4096) :: Buf.of_Z (0x80 + (u / 64) mod 64)
          :: Buf.of_Z (0x80 + u mod 64) :: encode rest
  end.

(** Bounds of the second byte of a three- or four-byte sequence. *)
Definition second_lo (x0 : Z) : Z :=
  if x0 =? 0xE0 then 0xA0 else if x0 =? 0xF0 then 0x90 else 0x80.
Definition second_hi (x0 : Z) : Z :=
  if x0 =? 0xED then 0x9F else if x0 =? 0xF4 then 0x8F else 0xBF.
Definition is_second (x0 x1 : Z) : bool :=
  (second_lo x0 <=? x1) && (x1 <=? second_hi x0).

(** The code units of a code point. *)
Definition units (cp : Z) (k : ustring) : ustring :=
  if cp <? 0x10000 then cp :: k
  else (0xD800 + (cp - 0x10000) / 1024)
         :: (0xDC00 + (cp - 0x10000) mod 1024) :: k.

(** [buf.toString("utf8")]: the decoder of the Encoding standard.  An
    ill-formed sequence gives one U+FFFD and decoding resumes at the
    byte that broke it. *)
Fixpoint decode (bs : list byte) : ustring :=
  match bs with
  | [] => []
  | b0 :: r0 =>
      let x0 := Buf.to_Z b0 in
      if x0 <? 0x80 then x0 :: decode r0
      else if (0xC2 <=? x0) && (x0 <=? 0xDF) then
        match r0 with
        | b1 :: r1 =>
            let x1 := Buf.to_Z b1 in
            if is_cont x1
            then ((x0 - 0xC0) * 64 + (x1 - 0x80)) :: decode r1
            else replacement :: decode r0
        | [] => [replacement]
        end
      else if (0xE0 <=? x0) && (x0 <=? 0xEF) then
        match r0 with
        | b1 :: r1 =>
            let x1 := Buf.to_Z b1 in
            if is_second x0 x1 then
              match r1 with
              | b2 :: r2 =>
                  let x2 := Buf.to_Z b2 in
                  if is_cont x2
                  then ((x0 - 0xE0) * 4096 + (x1 - 0x80) * 64 + (x2 - 0x80))
                         :: decode r2
                  else replacement :: decode r1
              | [] => [replacement]
              end
            else replacement :: decode r0
        | [] => [replacement]
        end
      else if (0xF0 <=? x0) && (x0 <=? 0xF4) then
        match r0 with
        | b1 :: r1 =>
            let x1 := Buf.to_Z b1 in
            if is_second x0 x1 then
              match r1 with
              | b2 :: r2 =>
                  let x2 := Buf.to_Z b2 in
                  if is_cont x2 then
                    match r2 with
                    | b3 :: r3 =>
                        let x3 := Buf.to_Z b3 in
                        if is_cont x3
                        then units ((x0 - 0xF0) * 262144 + (x1 - 0x80) * 4096
                                    + (x2 - 0x80) * 64 + (x3 - 0x80))
                                   (decode r3)
                        else replacement :: decode r2
                    | [] => [replacement]
                    end
                  else replacement :: decode r1
              | [] => [replacement]
              end
            else replacement :: decode r0
        | [] => [replacement]
        end
      else replacement :: decode r0
  end.

(** Well-formed text: every code unit is a 16-bit value and every
    surrogate is half of a pair. *)
Inductive well_formed : ustring -> Prop :=
| wf_nil : well_formed []
| wf_unit (u : Z) (s : ustring) :
    0 <= u < 0x10000 -> is_high u = false -> is_low u = false ->
    well_formed s -> well_formed (u :: s)
| wf_pair (u v : Z) (s : ustring) :
    is_high u = true -> is_low v = true ->
    well_formed s -> well_formed (u :: v :: s).

(** The code units of an ASCII [string]. *)
Fixpoint of_string (s : string) : ustring :=
  match s with
  | EmptyString => []
  | String c rest => Z.of_N (N_of_ascii c) :: of_string rest
  end.

End Utf8.

(* ================================================================== *)
(** ** Exceptions *)
(* ================================================================== *)

Module Exn.

(** What the library calls of the authentication code throw. *)
Inductive error : Type :=
| SyntaxError          (* JSON.parse on text that is not JSON *)
| TypeError            (* Buffer.from on a value that is not a string *)
| CipherError          (* invalid key, iv or tag length *)
| AuthTagError         (* decipher.final(): the tag does not verify *)
| SignOptionError      (* jwt.sign: payload already carries "exp" *)
| JsonWebTokenError    (* jwt.verify: malformed token or bad signature *)
| TokenExpiredError    (* jwt.verify: past "exp" and the tolerance *)
| CastError.           (* Mongoose: the id is not an ObjectId *)

(** [error.message] *)
Definition message (e : error) : string :=
  match e with
  | SyntaxError => "Unexpected token in JSON"
  | TypeError => "The first argument must be of type string"
  | CipherError => "Invalid key length"
  | AuthTagError => "Unsupported state or unable to authenticate data"
  | SignOptionError =>
      "Bad options.expiresIn option the payload already has an exp property."
  | JsonWebTokenError => "invalid signature"
  | TokenExpiredError => "jwt expired"
  | CastError => "Cast to ObjectId failed"
  end.

Inductive result (A : Type) : Type :=
| Ok (a : A)
| Throw (e : error).
Arguments Ok {A} a.
Arguments Throw {A} e.

Definition bind {A B : Type} (r : result A) (k : A -> result B) : result B :=
  match r with
  | Ok a => k a
  | Throw e => Throw e
  end.

End Exn.

Import Exn.
Notation "x <- r ;; k" := (Exn.bind r (fun x => k))
  (at level 61, r at next level, right associativity).

(* ================================================================== *)
(** ** Tokens: claims, envelopes, and the library primitives *)
(* ================================================================== *)

(** The [user] object inside the claims. *)
Module UserClaim.
Record t : Type := make { id : Js.value; email : Js.value }.
End UserClaim.

(** The claim set of a token, as [jwt.sign] receives it and as
    [jwt.verify] returns it ([decoded]). *)
Module Claims.
Record t : Type := make {
  role : Js.value;
  user : option UserClaim.t;      (* [None]: no [user] object *)
  sessionId : Js.value;
  iat : option Z;                 (* seconds; [None]: absent *)
  exp : option Z                  (* seconds; [None]: absent *)
}.

Definition with_times (c : t) (i e : Z) : t :=
  make (role c) (user c) (sessionId c) (Some i) (Some e).
End Claims.

(** What [encryptToken] returns: three hex strings. *)
Module Envelope.
Record t : Type := make {
  iv : string;
  ciphertext : string;
  authTag : string
}.
End Envelope.

(** What [JSON.parse] hands to [decryptToken]: a value whose three
    fields may hold anything. *)
Module Payload.
Record t : Type := make {
  iv : Js.value;
  ciphertext : Js.value;
  authTag : Js.value
}.

Definition of_envelope (e : Envelope.t) : t :=
  make (Js.Str (Envelope.iv e)) (Js.Str (Envelope.ciphertext e))
       (Js.Str (Envelope.authTag e)).
End Payload.

(** Process configuration read from the environment. *)
Module Config.
Record t : Type := make {
  JWT_SECRET : string;
  ENCRYPTION_KEY : list byte      (* Buffer.from(TOKEN_ENCRYPTION_KEY, "hex") *)
}.
End Config.

(** The library functions the code calls and does not define.

    - [keystream key iv i] is byte [i] of the AES-256 counter-mode key
      stream of GCM; [gcm_tag key iv ct] is the 16-byte authentication
      tag GCM computes over a ciphertext.
    - [jws_encode secret claims] is the HS256 compact serialisation that
      [jsonwebtoken] produces, [jws_decode secret token] its inverse with
      the signature check ([None]: malformed or badly signed).
    - [transport_encode e] is
      [Buffer.from(JSON.stringify(e)).toString("base64url")] and
      [transport_decode s] is
      [JSON.parse(Buffer.from(s, "base64url").toString())]: [None] when
      [JSON.parse] throws, [Some None] for a falsy document, [Some (Some
      p)] for any other with its three fields of interest.
    - [bcrypt_compare password hash] is [bcrypt.compare].
    - [castObjectId v] is the cast Mongoose applies to an [_id] in a
      query ([None]: it throws). *)
Record Primitives : Type := {
  keystream : list byte -> list byte -> nat -> byte;
  gcm_tag : list byte -> list byte -> list byte -> list byte;
  jws_encode : string -> Claims.t -> Utf8.ustring;
  jws_decode : string -> Utf8.ustring -> option Claims.t;
  transport_encode : Envelope.t -> string;
  transport_decode : string -> option (option Payload.t);
  bcrypt_compare : string -> string -> bool;
  castObjectId : Js.value -> option string
}.

(** Contracts of the primitives, assumed where a theorem says so. *)
Module Contract.

(** [cipher.getAuthTag()] is 16 bytes long. *)
Definition tag_length (P : Primitives) : Prop :=
  forall key iv ct, List.length (gcm_tag P key iv ct) = 16%nat.

(** The tag authenticates the ciphertext: under the key [key] and one
    iv, a ciphertext with one byte changed has another tag.  (For GCM
    this holds as soon as the hash subkey of [key] is not zero.) *)
Definition tag_binds_ciphertext (P : Primitives) (key : list byte) : Prop :=
  forall iv ct ct',
    Buf.flip1 ct ct' -> gcm_tag P key iv ct <> gcm_tag P key iv ct'.

(** Decoding a serialised claim set with the key that signed it gives
    the claim set back. *)
Definition jws_roundtrip (P : Primitives) : Prop :=
  forall secret c, jws_decode P secret (jws_encode P secret c) = Some c.

(** A serialised token is well-formed text (it is ASCII). *)
Definition jws_text (P : Primitives) : Prop :=
  forall secret c, Utf8.well_formed (jws_encode P secret c).

(** Parsing the transport string of an envelope gives its fields. *)
Definition transport_roundtrip (P : Primitives) : Prop :=
  forall e,
    transport_decode P (transport_encode P e)
    = Some (Some (Payload.of_envelope e)).

End Contract.

(* ------------------------------------------------------------------ *)
(** *** AES-256-GCM through Node's [crypto] *)

Module Gcm.

(** Counter mode: byte [i] of the data is xored with byte [i] of the
    key stream.  [cipher.update] and [decipher.update] both do this. *)
Fixpoint ctr (ks : nat -> byte) (i : nat) (data : list byte) : list byte :=
  match data with
  | [] => []
  | b :: rest => Buf.xor b (ks i) :: ctr ks (S i) rest
  end.

(** [createCipheriv] and [createDecipheriv] accept a 32-byte key and a
    non-empty iv. *)
Definition init_ok (key iv : list byte) : bool :=
  (List.length key =? 32)%nat && negb (List.length iv =? 0)%nat.

(** [decipher.setAuthTag] accepts tags of 4, 8 or 12 to 16 bytes. *)
Definition tag_length_ok (tag : list byte) : bool :=
  let n := List.length tag in
  (n =? 4)%nat || (n =? 8)%nat || ((12 <=? n)%nat && (n <=? 16)%nat).

(** [decipher.final()]: compares the tag set by [setAuthTag] with
    as many leading bytes of the computed tag; throws on a
    difference, returns an empty buffer otherwise. *)
Definition final (P : Primitives) (key iv tag ct : list byte)
  : result (list byte) :=
  if Buf.list_eqb tag (firstn (List.length tag) (gcm_tag P key iv ct))
  then Ok [] else Throw AuthTagError.

End Gcm.

(** [Buffer.from(v, "hex")] on a JSON value. *)
Definition buffer_from_hex (v : Js.value) : result (list byte) :=
  match v with
  | Js.Str s => Ok (Buf.from_hex s)
  | _ => Throw TypeError
  end.

Section TokenCodec.

Variable P : Primitives.
Variable cfg : Config.t.

(** [encryptToken(plaintext)] (auth.middleware.js, lines 58-72); [iv] is
    [crypto.randomBytes(16)]. *)
Definition encryptToken (iv : list byte) (plaintext : Utf8.ustring)
  : result Envelope.t :=
  let key := Config.ENCRYPTION_KEY cfg in
  if negb (Gcm.init_ok key iv) then Throw CipherError
  else
    let encrypted :=
      (Gcm.ctr (keystream P key iv) 0 (Utf8.encode plaintext) ++ [])%list in
    let authTag := gcm_tag P key iv encrypted in
    Ok (Envelope.make (Buf.toString_hex iv) (Buf.toString_hex encrypted)
          (Buf.toString_hex authTag)).

(** [decryptToken(payload)] (auth.middleware.js, lines 79-91).  The
    bytes [decipher.update] gives out are not yet authenticated; they
    reach the caller only if [decipher.final] does not throw. *)
Definition decryptToken (payload : Payload.t) : result Utf8.ustring :=
  let key := Config.ENCRYPTION_KEY cfg in
  iv <- buffer_from_hex (Payload.iv payload) ;;
  authTag <- buffer_from_hex (Payload.authTag payload) ;;
  ciphertext <- buffer_from_hex (Payload.ciphertext payload) ;;
  if negb (Gcm.init_ok key iv) then Throw CipherError
  else if negb (Gcm.tag_length_ok authTag) then Throw CipherError
  else
    let updated := Gcm.ctr (keystream P key iv) 0 ciphertext in
    final <- Gcm.final P key iv authTag ciphertext ;;
    Ok (Utf8.decode (updated ++ final)%list).

(** [jwt.sign(payload, JWT_SECRET, {algorithm: "HS256", expiresIn:
    "24h"})] at time [now]: [iat] is the payload's own if it has a
    truthy one and the current second otherwise, [exp] is 24 hours
    later. *)
Definition jwt_sign (payload : Claims.t) (now : Z) : result Utf8.ustring :=
  match Claims.exp payload with
  | Some _ => Throw SignOptionError
  | None =>
      let timestamp :=
        match Claims.iat payload with
        | Some t => if t =? 0 then Js.floor_div now 1000 else t
        | None => Js.floor_div now 1000
        end in
      Ok (jws_encode P (Config.JWT_SECRET cfg)
            (Claims.with_times payload timestamp (timestamp + 86400)))
  end.

(** [jwt.verify(token, JWT_SECRET, {algorithms: ["HS256"],
    clockTolerance})] at time [now]. *)
Definition jwt_verify (token : Utf8.ustring) (clockTolerance now : Z)
  : result Claims.t :=
  match jws_decode P (Config.JWT_SECRET cfg) token with
  | None => Throw JsonWebTokenError
  | Some decoded =>
      let clockTimestamp := Js.floor_div now 1000 in
      match Claims.exp decoded with
      | Some e =>
          if clockTimestamp >=? e + clockTolerance
          then Throw TokenExpiredError
          else Ok decoded
      | None => Ok decoded
      end
  end.

(** [generateEncryptedToken(payload)] (auth.middleware.js, lines
    197-204). *)
Definition generateEncryptedToken (payload : Claims.t) (now : Z)
    (iv : list byte) : result string :=
  rawJwt <- jwt_sign payload now ;;
  encrypted <- encryptToken iv rawJwt ;;
  Ok (transport_encode P encrypted).

End TokenCodec.

(** The [iat] that [jwt.sign] writes at time [now] into a token signed
    from [payload]: the payload's own if it has a truthy one, the
    current second otherwise. *)
Definition issued_at (payload : Claims.t) (now : Z) : Z :=
  match Claims.iat payload with
  | Some t => if t =? 0 then Js.floor_div now 1000 else t
  | None => Js.floor_div now 1000
  end.

(** [generateSecureToken()] (token.helper.js); [random] is
    [crypto.randomBytes(32)]. *)
Definition generateSecureToken (random : list byte) : string :=
  Buf.toString_hex random.

(* ================================================================== *)
(** ** Text *)
(* ================================================================== *)

(** The text without the characters [p] accepts at its end. *)
Fixpoint drop_trailing (p : ascii -> bool) (s : string) : string :=
  match s with
  | EmptyString => EmptyString
  | String c rest =>
      match drop_trailing p rest with
      | EmptyString => if p c then EmptyString else String c EmptyString
      | rest' => String c rest'
      end
  end.

(** String helpers of the JavaScript runtime. *)
Module Text.

Definition is_space (c : ascii) : bool := (N_of_ascii c =? 32)%N.

(** The text before the first space. *)
Fixpoint until_space (s : string) : string :=
  match s with
  | EmptyString => EmptyString
  | String c rest =>
      if is_space c then EmptyString else String c (until_space rest)
  end.

(** [s.split(" ")[1]]; [None] is [undefined]. *)
Fixpoint split_space_1 (s : string) : option string :=
  match s with
  | EmptyString => None
  | String c rest =>
      if is_space c then Some (until_space rest) else split_space_1 rest
  end.

Definition lower (c : ascii) : ascii :=
  let n := N_of_ascii c in
  if ((65 <=? n) && (n <=? 90))%N then ascii_of_N (n + 32) else c.

(** [s.toLowerCase()] on ASCII text. *)
Fixpoint toLowerCase (s : string) : string :=
  match s with
  | EmptyString => EmptyString
  | String c rest => String (lower c) (toLowerCase rest)
  end.

(** [!!s] for an optional string. *)
Definition truthy (s : option string) : bool :=
  match s with
  | Some t => negb (t =? "")%string
  | None => false
  end.

Definition get (s : option string) : string :=
  match s with Some t => t | None => "" end.

(** White space as [String.prototype.trim] removes it from ASCII
    text. *)
Definition is_blank (c : ascii) : bool :=
  let n := N_of_ascii c in ((9 <=? n) && (n <=? 13) || (n =? 32))%N.

Fixpoint trim_start (s : string) : string :=
  match s with
  | EmptyString => EmptyString
  | String c rest => if is_blank c then trim_start rest else s
  end.

Definition trim_end (s : string) : string := drop_trailing is_blank s.

(** [s.trim()] on ASCII text. *)
Definition trim (s : string) : string := trim_end (trim_start s).

End Text.

(* ================================================================== *)
(** ** Accounts, the store, requests and responses *)
(* ================================================================== *)

(** A document of the [SuperAdmin] or [User] collection: the fields the
    authentication code reads and writes. *)
Module Account.
Record t : Type := make {
  _id : string;
  userName : string;
  email : string;
  password : string;              (* the bcrypt hash *)
  role : string;
  isActive : bool;
  lastLogin : option Z;
  loginAttempts : Z;
  lockUntil : option Z;           (* milliseconds; [None] is [null] *)
  sessionId : Js.value            (* [Js.Null] before the first login *)
}.

Definition set_lock (a : t) (attempts : Z) (until : option Z) : t :=
  make (_id a) (userName a) (email a) (password a) (role a) (isActive a)
       (lastLogin a) attempts until (sessionId a).

Definition set_sessionId (a : t) (sid : Js.value) : t :=
  make (_id a) (userName a) (email a) (password a) (role a) (isActive a)
       (lastLogin a) (loginAttempts a) (lockUntil a) sid.

Definition set_login (a : t) (now : Z) (sid : Js.value) : t :=
  make (_id a) (userName a) (email a) (password a) (role a) (isActive a)
       (Some now) 0 None sid.
End Account.

(** The collections, in insertion order. *)
Module Db.
Record t : Type := make {
  superAdmins : list Account.t;
  users : list Account.t
}.

(** The value of the path [email] in a filter, as Mongoose casts it for
    the [SuperAdmin] and the [User] model: the setters of the path
    ([lowercase: true], [trim: true] in both schemas) run on it.  On
    ASCII text the two commute. *)
Definition cast_email (email : string) : string :=
  Text.trim (Text.toLowerCase email).

(** [Model.findOne({ email })] *)
Definition findOne (col : list Account.t) (email : string)
  : option Account.t :=
  find (fun a => (Account.email a =? cast_email email)%string) col.

(** [Model.findById(id)] for an id that is an ObjectId. *)
Definition findById (col : list Account.t) (id : string)
  : option Account.t :=
  find (fun a => (Account._id a =? id)%string) col.

(** [doc.save()]: the stored document with this [_id] is replaced. *)
Definition save (col : list Account.t) (doc : Account.t)
  : list Account.t :=
  map (fun a => if (Account._id a =? Account._id doc)%string
                then doc else a) col.

(** [Model.findByIdAndUpdate(id, { sessionId })] *)
Definition updateSessionId (col : list Account.t) (id : string)
    (sid : Js.value) : list Account.t :=
  map (fun a => if (Account._id a =? id)%string
                then Account.set_sessionId a sid else a) col.
End Db.

Module Response.
Inductive cookie : Type :=
| NoCookie
| SetCookie (name value : string) (maxAge : Z)   (* httpOnly, sameSite strict *)
| ClearCookie (name : string).

Record t : Type := make {
  status : Z;
  body : Js.json;
  cookies : cookie
}.

(** [res.status(code).json({ success: false, message })] *)
Definition failure (code : Z) (message : string) : t :=
  make code
    (Js.JObj [("success", Js.JBool false); ("message", Js.JStr message)])
    NoCookie.

(** [res.status(500).json({ success: false, message: "Server Error",
    error: error.message })] *)
Definition server_error (e : Exn.error) : t :=
  make 500
    (Js.JObj [("success", Js.JBool false);
              ("message", Js.JStr "Server Error");
              ("error", Js.JStr (Exn.message e))])
    NoCookie.
End Response.

(** [req.user], attached by the middleware. *)
Module ReqUser.
Record t : Type := make {
  id : string;
  role : Js.value;
  email : string;
  sessionId : Js.value
}.
End ReqUser.

Module Request.
Record t : Type := make {
  authorization : option string;  (* req.header("Authorization") *)
  accessToken : option string;    (* req.cookies?.accessToken *)
  email : option string;          (* req.body.email *)
  password : option string;       (* req.body.password *)
  user : option ReqUser.t         (* req.user *)
}.

Definition anonymous : t := make None None None None None.
Definition bearer (token : string) : t :=
  make (Some ("Bearer " ++ token)) None None None None.
Definition with_cookie (token : string) : t :=
  make None (Some token) None None None.
Definition credentials (email password : string) : t :=
  make None None (Some email) (Some password) None.
End Request.

(* ================================================================== *)
(** ** The credential verifier: login and logout *)
(* ================================================================== *)

(** What a handler did besides answering. *)
Inductive effect : Type :=
| BcryptCompare (password hash : string)
| Save (doc : Account.t)
| UpdateSessionId (id : string) (sid : Js.value).

Module Outcome.
Record t : Type := make {
  db : Db.t;
  response : Response.t;
  effects : list effect
}.
End Outcome.

(** [doc.lockUntil && doc.lockUntil > Date.now()] *)
Definition locked (a : Account.t) (now : Z) : bool :=
  match Account.lockUntil a with
  | Some t => now <? t
  | None => false
  end.

(** [doc.lockUntil && doc.lockUntil <= Date.now()] *)
Definition lock_expired (a : Account.t) (now : Z) : bool :=
  match Account.lockUntil a with
  | Some t => t <=? now
  | None => false
  end.

(** What differs between [loginSuperAdmin] and [loginUser].  The first
    looks up [{ email }], the second [{ email: email.toLowerCase() }];
    [Db.findOne] then casts the filter as Mongoose does. *)
Module Flavour.
Record t : Type := make {
  collection : Db.t -> list Account.t;
  store : Db.t -> list Account.t -> Db.t;
  query : string -> string;       (* the email the handler puts in the filter *)
  role : string;
  profile : string;               (* key of the profile in the answer *)
  welcome : string
}.

Definition superAdmin : t :=
  make Db.superAdmins
       (fun db col => Db.make col (Db.users db))
       (fun email => email)
       "SUPERADMIN" "superAdmin" "Super Admin login successfully!".

Definition user : t :=
  make Db.users
       (fun db col => Db.make (Db.superAdmins db) col)
       Text.toLowerCase
       "USER" "user" "User login successfully!".
End Flavour.

(** The login handlers of the source. *)
Definition handled (f : Flavour.t) : Prop :=
  f = Flavour.superAdmin \/ f = Flavour.user.

(** The document as the password check sees it: an expired lock has
    been cleared. *)
Definition unlock (doc : Account.t) (now : Z) : Account.t :=
  if lock_expired doc now then Account.set_lock doc 0 None else doc.

(** The document after one more failed password check. *)
Definition strike (doc : Account.t) (now : Z) : Account.t :=
  let attempts := Account.loginAttempts doc + 1 in
  if attempts >=? 3
  then Account.set_lock doc attempts (Some (now + 30 * 60 * 1000))
  else Account.set_lock doc attempts (Account.lockUntil doc).

(** The store after [doc.save()] in the collection of a handler. *)
Definition saved (f : Flavour.t) (db : Db.t) (doc : Account.t) : Db.t :=
  Flavour.store f db (Db.save (Flavour.collection f db) doc).

(** The body of a rejection for a wrong password. *)
Definition wrong_password_body (message : string) (attempts : Z) : Js.json :=
  Js.JObj [("success", Js.JBool false); ("message", Js.JStr message);
           ("attempts", Js.JNum attempts)].

Section Handlers.

Variable P : Primitives.
Variable cfg : Config.t.

Definition locked_message (a : Account.t) (now : Z) : string :=
  let remaining :=
    Js.ceil_div (match Account.lockUntil a with Some t => t | None => 0 end
                 - now) 60000 in
  "Account locked. Try again in " ++ Js.show_int remaining ++ " minutes.".

(** The body shared by [loginSuperAdmin] (super-admin.controller.js,
    lines 131-224) and [loginUser] (user controller), which differ only
    in what [Flavour.t] records.  [sid] is the [crypto.randomBytes(32)]
    of [generateSecureToken] and [iv] the [crypto.randomBytes(16)] of
    [encryptToken]. *)
Definition login (f : Flavour.t) (now : Z) (sid iv : list byte)
    (db : Db.t) (req : Request.t) : Outcome.t :=
  let email := Request.email req in
  let password := Request.password req in
  if negb (Text.truthy email) || negb (Text.truthy password) then
    Outcome.make db
      (Response.failure 400 "Email and password are required") []
  else
    match Db.findOne (Flavour.collection f db)
            (Flavour.query f (Text.get email)) with
    | None =>
        Outcome.make db (Response.failure 401 "Invalid credentials") []
    | Some doc =>
        if locked doc now then
          Outcome.make db (Response.failure 423 (locked_message doc now)) []
        else
          (* an expired lock is cleared before the password is looked at *)
          let '(doc1, db1, eff1) :=
            if lock_expired doc now then
              let d := Account.set_lock doc 0 None in
              (d, Flavour.store f db (Db.save (Flavour.collection f db) d),
               [Save d])
            else (doc, db, []) in
          let isMatch :=
            bcrypt_compare P (Text.get password) (Account.password doc1) in
          let eff2 :=
            (eff1 ++ [BcryptCompare (Text.get password)
                        (Account.password doc1)])%list in
          if negb isMatch then
            let attempts := Account.loginAttempts doc1 + 1 in
            let doc2 :=
              if attempts >=? 3
              then Account.set_lock doc1 attempts (Some (now + 30 * 60 * 1000))
              else Account.set_lock doc1 attempts (Account.lockUntil doc1) in
            let db2 :=
              Flavour.store f db1 (Db.save (Flavour.collection f db1) doc2) in
            let message :=
              if locked doc2 now
              then "Too many failed login attempts. Account locked for 30 minutes."
              else "Invalid credentials" in
            Outcome.make db2
              (Response.make 401
                 (Js.JObj [("success", Js.JBool false);
                           ("message", Js.JStr message);
                           ("attempts", Js.JNum (Account.loginAttempts doc2))])
                 Response.NoCookie)
              (eff2 ++ [Save doc2])%list
          else
            let doc2 :=
              Account.set_login doc1 now (Js.Str (generateSecureToken sid)) in
            let db2 :=
              Flavour.store f db1 (Db.save (Flavour.collection f db1) doc2) in
            let payload :=
              Claims.make (Js.Str (Flavour.role f))
                (Some (UserClaim.make (Js.Str (Account._id doc2))
                         (Js.Str (Account.email doc2))))
                (Account.sessionId doc2) None None in
            match generateEncryptedToken P cfg payload now iv with
            | Throw e =>
                Outcome.make db2 (Response.server_error e)
                  (eff2 ++ [Save doc2])%list
            | Ok encryptedToken =>
                Outcome.make db2
                  (Response.make 200
                     (Js.JObj
                        [("success", Js.JBool true);
                         ("message", Js.JStr (Flavour.welcome f));
                         (Flavour.profile f,
                          Js.JObj [("id", Js.JStr (Account._id doc2));
                                   ("userName", Js.JStr (Account.userName doc2));
                                   ("email", Js.JStr (Account.email doc2))]);
                         ("token", Js.JStr encryptedToken);
                         ("expiresIn", Js.JNum (24 * 60 * 60))])
                     (Response.SetCookie "accessToken" encryptedToken
                        (24 * 60 * 60 * 1000)))
                  (eff2 ++ [Save doc2])%list
            end
    end.

(** [loginSuperAdmin(req, res)] *)
Definition loginSuperAdmin := login Flavour.superAdmin.

(** [loginUser(req, res)] *)
Definition loginUser := login Flavour.user.

(** [logoutSuperAdmin(req, res)] (super-admin.controller.js, lines
    275-297); [sid] is the [crypto.randomBytes(32)] of
    [generateSecureToken]. *)
Definition logoutSuperAdmin (sid : list byte) (db : Db.t) (req : Request.t)
  : Outcome.t :=
  let done (db' : Db.t) (eff : list effect) :=
    Outcome.make db'
      (Response.make 200
         (Js.JObj [("success", Js.JBool true);
                   ("message", Js.JStr "Logout successfully")])
         (Response.ClearCookie "accessToken"))
      eff in
  match Request.user req with
  | Some u =>
      if negb (ReqUser.id u =? "")%string then
        match castObjectId P (Js.Str (ReqUser.id u)) with
        | None => Outcome.make db (Response.server_error CastError) []
        | Some id =>
            let sid' := Js.Str (generateSecureToken sid) in
            done (Db.make (Db.updateSessionId (Db.superAdmins db) id sid')
                    (Db.users db))
                 [UpdateSessionId id sid']
        end
      else done db []
  | None => done db []
  end.

End Handlers.

(* ================================================================== *)
(** ** The authentication middleware *)
(* ================================================================== *)

Module Gate.
(** The middleware either calls [next()] with [req.user] set or
    answers the request itself. *)
Inductive result : Type :=
| Next (u : ReqUser.t)
| Reply (r : Response.t).
End Gate.

Section Middleware.

Variable P : Primitives.
Variable cfg : Config.t.

(** [JSON.parse(Buffer.from(token, "base64url").toString())] *)
Definition parse_transport (token : string) : result (option Payload.t) :=
  match transport_decode P token with
  | Some v => Ok v
  | None => Throw SyntaxError
  end.

(** The first lines of the middleware: the payload of the bearer
    header if there is one, else of the cookie, else [null]. *)
Definition extract_payload (req : Request.t) : result (option Payload.t) :=
  match Request.authorization req with
  | Some header =>
      if String.prefix "Bearer " header then
        match Text.split_space_1 header with
        | Some token => parse_transport token
        | None => Throw TypeError
        end
      else if Text.truthy (Request.accessToken req)
      then parse_transport (Text.get (Request.accessToken req))
      else Ok None
  | None =>
      if Text.truthy (Request.accessToken req)
      then parse_transport (Text.get (Request.accessToken req))
      else Ok None
  end.

(** [!decoded?.user?.id || !decoded?.role] *)
Definition malformed (decoded : Claims.t) : bool :=
  negb (match Claims.user decoded with
        | Some u => Js.truthy (UserClaim.id u)
        | None => false
        end)
  || negb (Js.truthy (Claims.role decoded)).

(** [decoded.iat < Date.now() / 1000 - 24 * 60 * 60].  [iat] counts
    seconds and [now] milliseconds, so the comparison is made on
    milliseconds; a token without [iat] compares false. *)
Definition exceeded_max_lifetime (decoded : Claims.t) (now : Z) : bool :=
  match Claims.iat decoded with
  | Some iat => iat * 1000 <? now - 24 * 60 * 60 * 1000
  | None => false
  end.

Definition claimed_id (decoded : Claims.t) : Js.value :=
  match Claims.user decoded with
  | Some u => UserClaim.id u
  | None => Js.Undefined
  end.

(** Lines 105-129 of the middleware, up to the verified claims:
    extraction, decryption and [jwt.verify].  [Ok None] is the missing
    token. *)
Definition open_token (now : Z) (req : Request.t)
  : result (option Claims.t) :=
  encryptedPayload <- extract_payload req ;;
  match encryptedPayload with
  | None => Ok None
  | Some payload =>
      decryptedJwt <- decryptToken P cfg payload ;;
      decoded <- jwt_verify P cfg decryptedJwt 30 now ;;
      Ok (Some decoded)
  end.

(** Lines 131-180 of the middleware: the checks made on verified
    claims.  Only the role "SUPERADMIN" is resolved to a collection. *)
Definition check_claims (now : Z) (db : Db.t) (decoded : Claims.t)
  : result Gate.result :=
  if malformed decoded then
    Ok (Gate.Reply (Response.failure 401 "Malformed token payload"))
  else if exceeded_max_lifetime decoded now then
    Ok (Gate.Reply (Response.failure 401 "Token exceeded max lifetime"))
  else if negb (Js.strict_eq (Claims.role decoded) (Js.Str "SUPERADMIN")) then
    Ok (Gate.Reply (Response.failure 401 "Invalid role"))
  else
    match castObjectId P (claimed_id decoded) with
    | None => Throw CastError
    | Some id =>
        match Db.findById (Db.superAdmins db) id with
        | None => Ok (Gate.Reply (Response.failure 404 "User not found"))
        | Some user =>
            if negb (Js.strict_eq (Claims.sessionId decoded)
                       (Account.sessionId user)) then
              Ok (Gate.Reply
                    (Response.failure 401 "Session mismatch detected"))
            else if negb (Account.isActive user) then
              Ok (Gate.Reply (Response.failure 403 "Account is disabled"))
            else
              Ok (Gate.Next
                    (ReqUser.make (Account._id user) (Claims.role decoded)
                       (Account.email user) (Claims.sessionId decoded)))
        end
    end.

(** The body of the [try] block. *)
Definition gate_try (now : Z) (db : Db.t) (req : Request.t)
  : result Gate.result :=
  opened <- open_token now req ;;
  match opened with
  | None =>
      Ok (Gate.Reply
            (Response.failure 401 "Unauthorized: Missing encrypted token"))
  | Some decoded => check_claims now db decoded
  end.

(** [encryptedAuthMiddleware(req, res, next)] (auth.middleware.js,
    lines 103-187): whatever is thrown in the [try] block is answered by
    the [catch] block. *)
Definition encryptedAuthMiddleware (now : Z) (db : Db.t) (req : Request.t)
  : Gate.result :=
  match gate_try now db req with
  | Ok r => r
  | Throw _ => Gate.Reply (Response.failure 401 "Authentication failed")
  end.

End Middleware.

(** Every answer the middleware itself can give: the one of the [catch]
    block first, then those of its own checks in the order of the code. *)
Definition gate_replies : list Response.t :=
  [Response.failure 401 "Authentication failed";
   Response.failure 401 "Unauthorized: Missing encrypted token";
   Response.failure 401 "Malformed token payload";
   Response.failure 401 "Token exceeded max lifetime";
   Response.failure 401 "Invalid role";
   Response.failure 404 "User not found";
   Response.failure 401 "Session mismatch detected";
   Response.failure 403 "Account is disabled"].

(** The answer of a successful login. *)
Definition welcome_response (f : Flavour.t) (doc : Account.t) (token : string)
  : Response.t :=
  Response.make 200
    (Js.JObj
       [("success", Js.JBool true);
        ("message", Js.JStr (Flavour.welcome f));
        (Flavour.profile f,
         Js.JObj [("id", Js.JStr (Account._id doc));
                  ("userName", Js.JStr (Account.userName doc));
                  ("email", Js.JStr (Account.email doc))]);
        ("token", Js.JStr token);
        ("expiresIn", Js.JNum 86400)])
    (Response.SetCookie "accessToken" token 86400000).


(* ================================================================== *)
(** ** An executable instance of the primitives

    Small stand-ins for the libraries, good enough to run the handlers
    on examples and to show that the contracts of [Contract] can be met
    together.  Data is flattened to natural numbers, and numbers are
    written in binary, least significant bit first, with a full stop
    after each. *)
(* ================================================================== *)

Module Reference.

(** **** Numbers as text *)

Fixpoint bits_of_pos (p : positive) : list bool :=
  match p with
  | xH => [true]
  | xO q => false :: bits_of_pos q
  | xI q => true :: bits_of_pos q
  end.

Definition bits_of_N (n : N) : list bool :=
  match n with
  | N0 => []
  | Npos p => bits_of_pos p
  end.

Fixpoint N_of_bits (bs : list bool) : N :=
  match bs with
  | [] => 0
  | b :: rest => ((if b then 1 else 0) + 2 * N_of_bits rest)%N
  end.

Definition digit (b : bool) : Z := if b then 49 else 48.
Definition stop : Z := 46.

Definition write_N (n : N) : list Z := (map digit (bits_of_N n) ++ [stop])%list.

Definition write (ns : list N) : list Z := flat_map write_N ns.

(** Reads every number of a text; [acc] holds the bits of the number
    being read, most significant first. *)
Fixpoint read (acc : list bool) (text : list Z) : option (list N) :=
  match text with
  | [] => match acc with [] => Some [] | _ => None end
  | c :: rest =>
      if c =? stop then
        option_map (cons (N_of_bits (rev acc))) (read [] rest)
      else if c =? 48 then read (false :: acc) rest
      else if c =? 49 then read (true :: acc) rest
      else None
  end.

(** **** Data as numbers *)

Definition parser (A : Type) : Type := list N -> option (A * list N).

Definition pbind {A B : Type} (p : parser A) (k : A -> parser B) : parser B :=
  fun ns => match p ns with
            | Some (a, rest) => k a rest
            | None => None
            end.

Definition pret {A : Type} (a : A) : parser A := fun ns => Some (a, ns).

Definition get_N : parser N :=
  fun ns => match ns with n :: rest => Some (n, rest) | [] => None end.

Definition put_Z (z : Z) : list N :=
  [if z <? 0 then 1%N else 0%N; Z.to_N (Z.abs z)].

Definition get_Z : parser Z :=
  pbind get_N (fun s => pbind get_N (fun a =>
    pret (if (s =? 0)%N then Z.of_N a else - Z.of_N a))).

Definition put_string (s : string) : list N :=
  (N.of_nat (String.length s) :: map N_of_ascii (list_ascii_of_string s))%list.

Definition get_string : parser string :=
  pbind get_N (fun len ns =>
    let n := N.to_nat len in
    if (n <=? List.length ns)%nat
    then Some (string_of_list_ascii (map ascii_of_N (firstn n ns)),
               skipn n ns)
    else None).

Definition put_value (v : Js.value) : list N :=
  match v with
  | Js.Undefined => [0%N]
  | Js.Null => [1%N]
  | Js.Bool b => [2%N; if b then 1%N else 0%N]
  | Js.Num z => (3%N :: put_Z z)%list
  | Js.Str s => (4%N :: put_string s)%list
  end.

Definition get_value : parser Js.value :=
  pbind get_N (fun tag =>
    if (tag =? 0)%N then pret Js.Undefined
    else if (tag =? 1)%N then pret Js.Null
    else if (tag =? 2)%N then
      pbind get_N (fun b => pret (Js.Bool (negb (b =? 0)%N)))
    else if (tag =? 3)%N then pbind get_Z (fun z => pret (Js.Num z))
    else if (tag =? 4)%N then pbind get_string (fun s => pret (Js.Str s))
    else fun _ => None).

Definition put_option {A : Type} (put : A -> list N) (o : option A) : list N :=
  match o with
  | None => [0%N]
  | Some a => (1%N :: put a)%list
  end.

Definition get_option {A : Type} (get : parser A) : parser (option A) :=
  pbind get_N (fun tag =>
    if (tag =? 0)%N then pret None
    else pbind get (fun a => pret (Some a))).

Definition put_user (u : UserClaim.t) : list N :=
  (put_value (UserClaim.id u) ++ put_value (UserClaim.email u))%list.

Definition get_user : parser UserClaim.t :=
  pbind get_value (fun i => pbind get_value (fun e =>
    pret (UserClaim.make i e))).

Definition put_claims (c : Claims.t) : list N :=
  (put_value (Claims.role c) ++ put_option put_user (Claims.user c)
     ++ put_value (Claims.sessionId c) ++ put_option put_Z (Claims.iat c)
     ++ put_option put_Z (Claims.exp c))%list.

Definition get_claims : parser Claims.t :=
  pbind get_value (fun r => pbind (get_option get_user) (fun u =>
  pbind get_value (fun s => pbind (get_option get_Z) (fun i =>
  pbind (get_option get_Z) (fun e => pret (Claims.make r u s i e)))))).

Definition put_envelope (e : Envelope.t) : list N :=
  (1%N :: put_string (Envelope.iv e) ++ put_string (Envelope.ciphertext e)
     ++ put_string (Envelope.authTag e))%list.

Definition get_payload : parser Payload.t :=
  pbind get_string (fun i => pbind get_string (fun c =>
  pbind get_string (fun t =>
    pret (Payload.make (Js.Str i) (Js.Str c) (Js.Str t))))).

(** The whole input must be consumed. *)
Definition complete {A : Type} (r : option (A * list N)) : option A :=
  match r with
  | Some (a, []) => Some a
  | _ => None
  end.

(** **** The primitives *)

(** The signature is the secret, written in front of the claims. *)
Definition ref_jws_encode (secret : string) (c : Claims.t) : Utf8.ustring :=
  write (put_string secret ++ put_claims c)%list.

Definition ref_jws_decode (secret : string) (token : Utf8.ustring)
  : option Claims.t :=
  match read [] token with
  | Some ns =>
      match get_string ns with
      | Some (s, rest) =>
          if (s =? secret)%string then complete (get_claims rest) else None
      | None => None
      end
  | None => None
  end.

Fixpoint string_of_units (l : list Z) : string :=
  match l with
  | [] => EmptyString
  | u :: rest => String (ascii_of_N (Z.to_N u)) (string_of_units rest)
  end.

Definition ref_transport_encode (e : Envelope.t) : string :=
  string_of_units (write (put_envelope e)).

(** The text ["."] stands for the JSON document [null]. *)
Definition ref_transport_decode (s : string) : option (option Payload.t) :=
  match read [] (Utf8.of_string s) with
  | Some [0%N] => Some None
  | Some (1%N :: ns) => option_map Some (complete (get_payload ns))
  | _ => None
  end.

Definition ref_keystream (key iv : list byte) (i : nat) : byte :=
  Buf.xor (nth (i mod 32) key x00) (nth i iv x2a).

Fixpoint checksum (bs : list byte) : Z :=
  match bs with
  | [] => 0
  | b :: rest => Buf.to_Z b + checksum rest
  end.

(** Sixteen bytes: a checksum of the ciphertext, then zeros. *)
Definition ref_gcm_tag (key iv ct : list byte) : list byte :=
  Buf.of_Z (checksum (key ++ iv ++ ct) mod 256) :: repeat x00 15.

(** The stored hash is the password behind a dollar sign. *)
Definition ref_bcrypt_compare (password hash : string) : bool :=
  (hash =? "$" ++ password)%string.

Definition ref_castObjectId (v : Js.value) : option string :=
  match v with
  | Js.Str s => if (s =? "")%string then None else Some s
  | _ => None
  end.

Definition prims : Primitives :=
  Build_Primitives ref_keystream ref_gcm_tag ref_jws_encode ref_jws_decode
    ref_transport_encode ref_transport_decode ref_bcrypt_compare
    ref_castObjectId.

End Reference.

(* ================================================================== *)
(** ** Sample data for the examples *)
(* ================================================================== *)

Module Sample.

Definition key : list byte := repeat x6b 32.

Definition cfg : Config.t := Config.make "signing-secret" key.

Definition root : Account.t :=
  Account.make "a1" "Root" "root@oloha.io" "$Correct1!" "SUPERADMIN" true
    None 0 None Js.Null.

Definition traveller : Account.t :=
  Account.make "u1" "Tess" "tess@oloha.io" "$Passw0rd!" "USER" true
    None 0 None Js.Null.

Definition db : Db.t := Db.make [root] [traveller].

(** Thirty minutes and one minute, in milliseconds. *)
Definition minute : Z := 60 * 1000.


(** The same account with its activity flag off. *)
Definition disabled_root : Account.t :=
  Account.make "a1" "Root" "root@oloha.io" "$Correct1!" "SUPERADMIN" false
    None 0 None Js.Null.

(** The value of the [accessToken] cookie an answer sets. *)
Definition token_of (o : Outcome.t) : string :=
  match Response.cookies (Outcome.response o) with
  | Response.SetCookie _ value _ => value
  | _ => ""
  end.

(** Two logins of the same super admin, a minute apart. *)
Definition first_login : Outcome.t :=
  loginSuperAdmin Reference.prims cfg 0 [x01] [x0a] db
    (Request.credentials "root@oloha.io" "Correct1!").

Definition second_login : Outcome.t :=
  loginSuperAdmin Reference.prims cfg (1 * minute) [x02] [x0b]
    (Outcome.db first_login)
    (Request.credentials "root@oloha.io" "Correct1!").

End Sample.

(* ================================================================== *)
(** ** The other tokens of [token.helper.js] *)
(* ================================================================== *)

(** [generateShortToken()] (token.helper.js, line 19); [random] is
    [crypto.randomBytes(16)]. *)
Definition generateShortToken (random : list byte) : string :=
  Buf.toString_hex random.

Module TimeBound.
Record t : Type := make {
  token : string;
  expiresAt : Z                   (* milliseconds *)
}.
End TimeBound.

(** [generateTimeBoundToken(ttlMinutes = 30)] (token.helper.js, lines
    26-30); [None] is a call without argument, [random] is
    [crypto.randomBytes(32)]. *)
Definition generateTimeBoundToken (ttlMinutes : option Z) (now : Z)
    (random : list byte) : TimeBound.t :=
  let ttlMinutes := match ttlMinutes with Some m => m | None => 30 end in
  let token := Buf.toString_hex random in
  let expiresAt := now + ttlMinutes * 60 * 1000 in
  TimeBound.make token expiresAt.

(** [verifyTimeBoundToken(expiresAt)] (token.helper.js, line 37) *)
Definition verifyTimeBoundToken (expiresAt : Z) (now : Z) : bool :=
  now <=? expiresAt.

(** A digit of lower-case hexadecimal text. *)
Definition is_lower_hex (c : ascii) : bool :=
  let n := N_of_ascii c in
  (((48 <=? n) && (n <=? 57)) || ((97 <=? n) && (n <=? 102)))%N.

(** Every character of a string satisfies [p]. *)
Fixpoint string_forall (p : ascii -> bool) (s : string) : bool :=
  match s with
  | EmptyString => true
  | String c rest => p c && string_forall p rest
  end.

(* ================================================================== *)
(** ** Regular expressions

    The expressions of the validation code, matched as
    [RegExp.prototype.test] matches an expression without flags: on
    UTF-16 code units, by backtracking, at the first position where a
    match is found. *)
(* ================================================================== *)

Module Regex.

(** The code unit of an ASCII character. *)
Definition chr (c : ascii) : Z := Z.of_N (N_of_ascii c).

(** [LineTerminator]: what [.] does not match. *)
Definition is_line_terminator (c : Z) : bool :=
  (c =? 0x0A) || (c =? 0x0D) || (c =? 0x2028) || (c =? 0x2029).

(** [WhiteSpace]; [\s] is [WhiteSpace] or [LineTerminator]. *)
Definition is_white_space (c : Z) : bool :=
  (c =? 0x09) || (c =? 0x0B) || (c =? 0x0C) || (c =? 0x20) || (c =? 0xA0)
  || (c =? 0x1680) || ((0x2000 <=? c) && (c <=? 0x200A)) || (c =? 0x202F)
  || (c =? 0x205F) || (c =? 0x3000) || (c =? 0xFEFF).

(** One item between the brackets of a character class. *)
Inductive item : Type :=
| Range (lo hi : ascii)           (* lo-hi *)
| Chr (c : ascii)                 (* one character *)
| Digit                           (* \d *)
| Space.                          (* \s *)

Definition item_matches (i : item) (c : Z) : bool :=
  match i with
  | Range lo hi => (chr lo <=? c) && (c <=? chr hi)
  | Chr a => c =? chr a
  | Digit => (chr "0" <=? c) && (c <=? chr "9")
  | Space => is_white_space c || is_line_terminator c
  end.

Inductive cclass : Type :=
| Any                             (* . *)
| OneOf (items : list item)       (* [items] *)
| NoneOf (items : list item).     (* [^items] *)

Definition class_matches (cl : cclass) (c : Z) : bool :=
  match cl with
  | Any => negb (is_line_terminator c)
  | OneOf items => existsb (fun i => item_matches i c) items
  | NoneOf items => negb (existsb (fun i => item_matches i c) items)
  end.

(** The expressions: the assertions [^], [$] and [(?=r)], a quantified
    character class [cl{min,max}] ([max = None] for [cl{min,}]), and
    sequences.  [cl*] is [cl{0,}], [cl+] is [cl{1,}], a literal
    character is a class of one item taken once. *)
Inductive t : Type :=
| Bol
| Eol
| Rep (cl : cclass) (min : nat) (max : option nat)
| LookAhead (r : t)
| Seq (a b : t).

Definition star (cl : cclass) : t := Rep cl 0 None.
Definition plus (cl : cclass) : t := Rep cl 1 None.
Definition one (cl : cclass) : t := Rep cl 1 (Some 1%nat).
Definition lit (c : ascii) : t := one (OneOf [Chr c]).

(** A continuation receives the index of the next character and the
    rest of the input. *)
Definition cont : Type := nat -> list Z -> bool.

(** [cl{min,max}] at index [i] of the input, [s] being what is left of
    it: one more character if that is possible and leads to a match,
    else the continuation if [min] is reached. *)
Fixpoint rep (cl : cclass) (min : nat) (max : option nat) (k : cont)
    (i : nat) (s : list Z) {struct s} : bool :=
  match s with
  | c :: rest =>
      class_matches cl c
      && match max with
         | Some O => false
         | Some (S m) => rep cl (Nat.pred min) (Some m) k (S i) rest
         | None => rep cl (Nat.pred min) None k (S i) rest
         end
  | [] => false
  end
  || match min with O => k i s | S _ => false end.

Fixpoint run (r : t) (k : cont) (i : nat) (s : list Z) : bool :=
  match r with
  | Bol => (i =? 0)%nat && k i s
  | Eol => match s with [] => k i s | _ :: _ => false end
  | Rep cl min max => rep cl min max k i s
  | LookAhead a => run a (fun _ _ => true) i s && k i s
  | Seq a b => run a (run b k) i s
  end.

(** A match that starts at index [i] or later. *)
Fixpoint search (r : t) (i : nat) (s : list Z) : bool :=
  run r (fun _ _ => true) i s
  || match s with
     | [] => false
     | _ :: rest => search r (S i) rest
     end.

(** [r.test(s)] *)
Definition test (r : t) (s : Utf8.ustring) : bool := search r 0 s.

(** What an expression matches, read off its syntax: [matches r i pre
    rest] when [r], at index [i] and in front of [rest], can consume
    exactly [pre]. *)
Fixpoint matches (r : t) (i : nat) (pre rest : list Z) : Prop :=
  match r with
  | Bol => pre = [] /\ i = 0%nat
  | Eol => pre = [] /\ rest = []
  | Rep cl min max =>
      Forall (fun c => class_matches cl c = true) pre
      /\ (min <= List.length pre)%nat
      /\ match max with
         | Some m => (List.length pre <= m)%nat
         | None => True
         end
  | LookAhead a =>
      pre = [] /\ exists p q, rest = (p ++ q)%list /\ matches a i p q
  | Seq a b =>
      exists p q,
        pre = (p ++ q)%list
        /\ matches a i p (q ++ rest)%list
        /\ matches b (i + List.length p)%nat q rest
  end.

End Regex.

(* ================================================================== *)
(** ** The password helper *)
(* ================================================================== *)

Module PasswordHelper.

Import Regex.

(** The special characters of a password: [@$!%*?#&]. *)
Definition specials : list item :=
  [Chr "@"; Chr "$"; Chr "!"; Chr "%"; Chr "*"; Chr "?"; Chr "#"; Chr "&"].

(** [passwordRegex] (password.helper.js, lines 185-186):
    [/^(?=.*[a-z])(?=.*[A-Z])(?=.*\d)(?=.*[@$!%*?#&])[A-Za-z\d@$!%*?#&]{8,}$/] *)
Definition passwordRegex : Regex.t :=
  Seq Bol
    (Seq (LookAhead (Seq (star Any) (one (OneOf [Range "a" "z"]))))
    (Seq (LookAhead (Seq (star Any) (one (OneOf [Range "A" "Z"]))))
    (Seq (LookAhead (Seq (star Any) (one (OneOf [Digit]))))
    (Seq (LookAhead (Seq (star Any) (one (OneOf specials))))
    (Seq (Rep (OneOf (Range "A" "Z" :: Range "a" "z" :: Digit :: specials))
            8 None)
         Eol))))).

(** [passwordRegex.test(password)] on a string of the request. *)
Definition passwordRegex_test (password : string) : bool :=
  Regex.test passwordRegex (Utf8.of_string password).

Module Verdict.
Record t : Type := make { valid : bool; message : string }.
End Verdict.

(** [validatePasswordStrength(password)] (password.helper.js, lines
    193-205) *)
Definition validatePasswordStrength (password : Js.value) : Verdict.t :=
  match password with
  | Js.Str s =>
      if negb (Js.truthy password) then
        Verdict.make false "Password must be a non-empty string"
      else if negb (passwordRegex_test s) then
        Verdict.make false
          "Password must include uppercase, lowercase, number, special char, and be at least 8 chars long."
      else Verdict.make true "Password is strong."
  | _ => Verdict.make false "Password must be a non-empty string"
  end.

(** The four kinds of character the documentation of [passwordRegex]
    names. *)
Definition is_lower (c : Z) : bool := (97 <=? c) && (c <=? 122).
Definition is_upper (c : Z) : bool := (65 <=? c) && (c <=? 90).
Definition is_digit (c : Z) : bool := (48 <=? c) && (c <=? 57).
Definition is_special (c : Z) : bool :=
  existsb (Z.eqb c) [64; 36; 33; 37; 42; 63; 35; 38].

Definition is_allowed (c : Z) : bool :=
  is_lower c || is_upper c || is_digit c || is_special c.

(** "Minimum 8 chars; uppercase, lowercase, number, special char", over
    the alphabet of the last part of the expression. *)
Definition strong (s : Utf8.ustring) : Prop :=
  (8 <= List.length s)%nat
  /\ Forall (fun c => is_allowed c = true) s
  /\ Exists (fun c => is_lower c = true) s
  /\ Exists (fun c => is_upper c = true) s
  /\ Exists (fun c => is_digit c = true) s
  /\ Exists (fun c => is_special c = true) s.

End PasswordHelper.

(* ================================================================== *)
(** ** The validators of the admin console *)
(* ================================================================== *)

Module Validation.

Import Regex.

(** [emailPattern]: [/^[^\s@]+@[^\s@]+\.[^\s@]+$/] *)
Definition emailPattern : Regex.t :=
  Seq Bol
    (Seq (plus (NoneOf [Space; Chr "@"]))
    (Seq (lit "@")
    (Seq (plus (NoneOf [Space; Chr "@"]))
    (Seq (lit ".")
    (Seq (plus (NoneOf [Space; Chr "@"]))
         Eol))))).

(** [contactNumberPattern]: [/^[0-9]{11}$/] *)
Definition contactNumberPattern : Regex.t :=
  Seq Bol (Seq (Rep (OneOf [Range "0" "9"]) 11 (Some 11%nat)) Eol).

(** [validateEmail(email)] (Validation.utility.jsx, lines 33-42) *)
Definition validateEmail (email : option string) : string :=
  if negb (Text.truthy email) then "Email is required"
  else if negb (Regex.test emailPattern (Utf8.of_string (Text.get email)))
  then "Please enter a valid email address"
  else "".

(** [validatePassword(password)] (Validation.utility.jsx, lines 49-57) *)
Definition validatePassword (password : option string) : string :=
  if negb (Text.truthy password) then "Password is required"
  else if (String.length (Text.get password) <? 4)%nat
  then "Password must be at least 4 characters long"
  else "".

(** [validateContactNumber(contactNumber)] (Validation.utility.jsx,
    lines 64-73) *)
Definition validateContactNumber (contactNumber : option string) : string :=
  if negb (Text.truthy contactNumber) then "Contact number is required"
  else if negb (Regex.test contactNumberPattern
                  (Utf8.of_string (Text.get contactNumber)))
  then "Contact number must be 11 digits"
  else "".

(** A part of an address: not empty, and without white space or [@]. *)
Definition email_part (p : Utf8.ustring) : Prop :=
  p <> []
  /\ Forall (fun c => Regex.is_white_space c = false
                      /\ Regex.is_line_terminator c = false
                      /\ c <> 64) p.

End Validation.

(* ================================================================== *)
(** ** The routes behind the middleware *)
(* ================================================================== *)


(** An [_id] read from a document is the text of an ObjectId: it is not
    empty, and casting it gives the same id. *)
Definition objectid_canonical (P : Primitives) : Prop :=
  forall v id,
    castObjectId P v = Some id ->
    id <> "" /\ castObjectId P (Js.Str id) = Some id.

(** The request as the handler next in the chain receives it, once the
    middleware has set [req.user]. *)
Definition with_user (req : Request.t) (u : ReqUser.t) : Request.t :=
  Request.make (Request.authorization req) (Request.accessToken req)
    (Request.email req) (Request.password req) (Some u).

Section Routes.

Variable P : Primitives.
Variable cfg : Config.t.

(** [logoutUser(req, res)] (user controller, lines 490-512); [sid] is
    the [crypto.randomBytes(32)] of [generateSecureToken]. *)
Definition logoutUser (sid : list byte) (db : Db.t) (req : Request.t)
  : Outcome.t :=
  let done (db' : Db.t) (eff : list effect) :=
    Outcome.make db'
      (Response.make 200
         (Js.JObj [("success", Js.JBool true);
                   ("message", Js.JStr "Logout successfully")])
         (Response.ClearCookie "accessToken"))
      eff in
  match Request.user req with
  | Some u =>
      if negb (ReqUser.id u =? "")%string then
        match castObjectId P (Js.Str (ReqUser.id u)) with
        | None => Outcome.make db (Response.server_error CastError) []
        | Some id =>
            let sid' := Js.Str (generateSecureToken sid) in
            done (Db.make (Db.superAdmins db)
                    (Db.updateSessionId (Db.users db) id sid'))
                 [UpdateSessionId id sid']
        end
      else done db []
  | None => done db []
  end.

(** [router.METHOD(path, encryptedAuthMiddleware, handler)]: the handler
    runs only if the middleware calls [next()], and then sees the
    [req.user] the middleware has set. *)
Definition guarded (handler : Db.t -> Request.t -> Outcome.t) (now : Z)
    (db : Db.t) (req : Request.t) : Outcome.t :=
  match encryptedAuthMiddleware P cfg now db req with
  | Gate.Next u => handler db (with_user req u)
  | Gate.Reply r => Outcome.make db r []
  end.

(** [POST /logout-super-admin] (super-admin.route.js, lines 69-73) *)
Definition post_logout_super_admin (now : Z) (sid : list byte)
  : Db.t -> Request.t -> Outcome.t :=
  guarded (logoutSuperAdmin P sid) now.

(** [POST /logout-user] (user routes, line 135) *)
Definition post_logout_user (now : Z) (sid : list byte)
  : Db.t -> Request.t -> Outcome.t :=
  guarded (logoutUser sid) now.

End Routes.

(* ================================================================== *)
(** ** Password reset: the service and its controller *)
(* ================================================================== *)

(** What the reset code throws: [new Error(message)], or what a library
    call throws. *)
Module Err.
Inductive t : Type :=
| Error (message : string)
| Library (e : Exn.error).

(** [error.message] *)
Definition message (e : t) : string :=
  match e with
  | Error m => m
  | Library e => Exn.message e
  end.
End Err.

Inductive attempt (A : Type) : Type :=
| Done (a : A)
| Raise (e : Err.t).
Arguments Done {A} a.
Arguments Raise {A} e.

(** The claim set of a reset token: [{ id, role }] with the times
    [jwt.sign] adds. *)
Module ResetClaims.
Record t : Type := make {
  id : Js.value;
  role : Js.value;
  iat : option Z;
  exp : option Z
}.

Definition with_times (c : t) (i e : Z) : t :=
  make (id c) (role c) (Some i) (Some e).
End ResetClaims.

(** The library functions of the reset code that [Primitives] does not
    hold: the compact serialisation of [jsonwebtoken] for the claims of
    a reset token, and [bcrypt.hash(password, rounds)], whose random
    salt is an argument. *)
Record ResetPrimitives : Type := {
  reset_jws_encode : string -> ResetClaims.t -> Utf8.ustring;
  reset_jws_decode : string -> Utf8.ustring -> option ResetClaims.t;
  bcrypt_hash : string -> Z -> list byte -> string
}.

Module ResetContract.

Definition jws_roundtrip (R : ResetPrimitives) : Prop :=
  forall secret c,
    reset_jws_decode R secret (reset_jws_encode R secret c) = Some c.

Definition jws_text (R : ResetPrimitives) : Prop :=
  forall secret c, Utf8.well_formed (reset_jws_encode R secret c).

(** [bcrypt.compare] accepts a password against its own hash. *)
Definition hash_compare (P : Primitives) (R : ResetPrimitives) : Prop :=
  forall password rounds salt,
    bcrypt_compare P password (bcrypt_hash R password rounds salt) = true.

End ResetContract.

(** The collections a password can be reset in; an agency is seen
    through the fields it shares with the other accounts. *)
Module Directory.
Record t : Type := make {
  superAdmins : list Account.t;
  agencies : list Account.t
}.
End Directory.

Inductive model : Type :=
| SuperAdminModel
| AgencyModel.

Definition model_collection (m : model) (dir : Directory.t)
  : list Account.t :=
  match m with
  | SuperAdminModel => Directory.superAdmins dir
  | AgencyModel => Directory.agencies dir
  end.

Definition model_store (m : model) (dir : Directory.t)
    (col : list Account.t) : Directory.t :=
  match m with
  | SuperAdminModel => Directory.make col (Directory.agencies dir)
  | AgencyModel => Directory.make (Directory.superAdmins dir) col
  end.

(** What the reset handlers do besides answering. *)
Inductive reset_effect : Type :=
| ResetCompare (password hash : string)
| ResetHash (password : string)
| ResetSave (m : model) (doc : Account.t)
| ResetMail (to frontendUrl resetToken : string).

Module ResetOutcome.
Record t : Type := make {
  dir : Directory.t;
  response : Response.t;
  effects : list reset_effect
}.
End ResetOutcome.

(** The document with a new password hash and a new session. *)
Definition set_password (a : Account.t) (hash : string) (sid : Js.value)
  : Account.t :=
  Account.make (Account._id a) (Account.userName a) (Account.email a) hash
    (Account.role a) (Account.isActive a) (Account.lastLogin a)
    (Account.loginAttempts a) (Account.lockUntil a) sid.


(** [res.status(code).json({ success: true, message })] *)
Definition success (code : Z) (message : string) : Response.t :=
  Response.make code
    (Js.JObj [("success", Js.JBool true); ("message", Js.JStr message)])
    Response.NoCookie.

(** One key of a JSON object as [JSON.stringify] prints it: a key whose
    value is [undefined] is left out. *)
Definition json_field (key : string) (v : Js.value)
  : list (string * Js.json) :=
  match v with
  | Js.Undefined => []
  | Js.Null => [(key, Js.JNull)]
  | Js.Bool b => [(key, Js.JBool b)]
  | Js.Num n => [(key, Js.JNum n)]
  | Js.Str s => [(key, Js.JStr s)]
  end.

Section PasswordService.

Variable P : Primitives.
Variable R : ResetPrimitives.

(** [process.env.PASSWORD_RESET_SECRET] *)
Variable SECRET : string.

(** [encrypt(plaintext)] (password.service.js, lines 132-149); [iv] is
    [crypto.randomBytes(16)]. *)
Definition encrypt (iv : list byte) (plaintext : Utf8.ustring)
  : result Envelope.t :=
  let key := Buf.from_hex SECRET in
  if negb (Gcm.init_ok key iv) then Throw CipherError
  else
    let encrypted :=
      (Gcm.ctr (keystream P key iv) 0 (Utf8.encode plaintext) ++ [])%list in
    let authTag := gcm_tag P key iv encrypted in
    Ok (Envelope.make (Buf.toString_hex iv) (Buf.toString_hex encrypted)
          (Buf.toString_hex authTag)).

(** [decrypt(payload)] (password.service.js, lines 157-169) *)
Definition decrypt (payload : Payload.t) : result Utf8.ustring :=
  let key := Buf.from_hex SECRET in
  iv <- buffer_from_hex (Payload.iv payload) ;;
  if negb (Gcm.init_ok key iv) then Throw CipherError
  else
    authTag <- buffer_from_hex (Payload.authTag payload) ;;
    if negb (Gcm.tag_length_ok authTag) then Throw CipherError
    else
      ciphertext <- buffer_from_hex (Payload.ciphertext payload) ;;
      let updated := Gcm.ctr (keystream P key iv) 0 ciphertext in
      final <- Gcm.final P key iv authTag ciphertext ;;
      Ok (Utf8.decode (updated ++ final)%list).

(** [jwt.sign(payload, SECRET, { algorithm: "HS256", expiresIn })] at
    time [now], [expiresIn] being a number of seconds. *)
Definition reset_jwt_sign (payload : ResetClaims.t) (expiresIn now : Z)
  : result Utf8.ustring :=
  match ResetClaims.exp payload with
  | Some _ => Throw SignOptionError
  | None =>
      let timestamp :=
        match ResetClaims.iat payload with
        | Some t => if t =? 0 then Js.floor_div now 1000 else t
        | None => Js.floor_div now 1000
        end in
      Ok (reset_jws_encode R SECRET
            (ResetClaims.with_times payload timestamp (timestamp + expiresIn)))
  end.

(** [jwt.verify(token, SECRET, { algorithms: ["HS256"] })] at time
    [now]: no clock tolerance. *)
Definition reset_jwt_verify (token : Utf8.ustring) (now : Z)
  : result ResetClaims.t :=
  match reset_jws_decode R SECRET token with
  | None => Throw JsonWebTokenError
  | Some decoded =>
      let clockTimestamp := Js.floor_div now 1000 in
      match ResetClaims.exp decoded with
      | Some e =>
          if clockTimestamp >=? e then Throw TokenExpiredError else Ok decoded
      | None => Ok decoded
      end
  end.

(** [generateResetToken(payload, expiresIn = "1h")] (password.service.js,
    lines 178-182).  [expiresIn] is given in seconds, [None] is a call
    without it: one hour. *)
Definition generateResetToken (payload : ResetClaims.t)
    (expiresIn : option Z) (now : Z) (iv : list byte) : result string :=
  let expiresIn := match expiresIn with Some s => s | None => 3600 end in
  token <- reset_jwt_sign payload expiresIn now ;;
  encrypted <- encrypt iv token ;;
  Ok (transport_encode P encrypted).

(** The body of the [try] block of [verifyResetToken]. *)
Definition verify_try (token : string) (now : Z) : result ResetClaims.t :=
  encryptedPayload <- parse_transport P token ;;
  match encryptedPayload with
  | None => Throw TypeError
  | Some payload =>
      decrypted <- decrypt payload ;;
      reset_jwt_verify decrypted now
  end.

(** [verifyResetToken(token)] (password.service.js, lines 191-201) *)
Definition verifyResetToken (token : string) (now : Z)
  : attempt ResetClaims.t :=
  match verify_try token now with
  | Ok payload => Done payload
  | Throw _ => Raise (Err.Error "Invalid or expired reset token")
  end.

(** [hashPassword(password)] (password.helper.js, lines 216-219); [salt]
    is the salt [bcrypt.hash] draws. *)
Definition hashPassword (password : string) (salt : list byte)
  : attempt string :=
  if (password =? "")%string
  then Raise (Err.Error "Password is required for hashing.")
  else Done (bcrypt_hash R password 12 salt).

(** [resetUserPassword(userDoc, newPassword)] (password.service.js,
    lines 210-221) on a document of the collection [m]; [sid] is
    [crypto.randomBytes(32)].  [passwordChangedAt] is no path of either
    schema and is not stored. *)
Definition resetUserPassword (m : model) (dir : Directory.t)
    (userDoc : Account.t) (newPassword : string) (salt sid : list byte)
  : attempt (Directory.t * list reset_effect) :=
  if negb (PasswordHelper.passwordRegex_test newPassword) then
    Raise (Err.Error "Password does not meet complexity requirements")
  else
    let isSame := bcrypt_compare P newPassword (Account.password userDoc) in
    if isSame then
      Raise (Err.Error "New password cannot match the old password")
    else
      match hashPassword newPassword salt with
      | Raise e => Raise e
      | Done hash =>
          let doc := set_password userDoc hash (Js.Str (Buf.toString_hex sid)) in
          Done (model_store m dir (Db.save (model_collection m dir) doc),
                [ResetCompare newPassword (Account.password userDoc);
                 ResetHash newPassword; ResetSave m doc])
      end.

(** [getModelByRole(role)] (password controller, lines 31-41) *)
Definition getModelByRole (role : Js.value) : attempt model :=
  if Js.strict_eq role (Js.Str "SUPERADMIN") then Done SuperAdminModel
  else if Js.strict_eq role (Js.Str "AGENCY") then Done AgencyModel
  else Raise (Err.Error "Invalid role").

(** [error.message || "Server error"] *)
Definition message_or_default (e : Err.t) : string :=
  if (Err.message e =? "")%string then "Server error" else Err.message e.




(** [resetPassword(req, res)] (password controller, lines 97-130);
    [token] is [req.params.token] and [newPassword] is
    [req.body.newPassword]. *)
Definition resetPassword (now : Z) (salt sid : list byte)
    (dir : Directory.t) (token : string) (newPassword : option string)
  : ResetOutcome.t :=
  if negb (Text.truthy newPassword) then
    ResetOutcome.make dir (Response.failure 400 "New password is required") []
  else
    let failed (e : Err.t) :=
      ResetOutcome.make dir (Response.failure 400 (message_or_default e)) [] in
    match verifyResetToken token now with
    | Raise e => failed e
    | Done payload =>
        match getModelByRole (ResetClaims.role payload) with
        | Raise e => failed e
        | Done Model =>
            match castObjectId P (ResetClaims.id payload) with
            | None => failed (Err.Library CastError)
            | Some id =>
                match Db.findById (model_collection Model dir) id with
                | None =>
                    ResetOutcome.make dir
                      (Response.failure 400 "Invalid or expired token") []
                | Some user =>
                    match resetUserPassword Model dir user
                            (Text.get newPassword) salt sid with
                    | Raise e => failed e
                    | Done (dir', eff) =>
                        ResetOutcome.make dir'
                          (success 200 "Password has been reset successfully")
                          eff
                    end
                end
            end
        end
    end.

(** [verifyToken(req, res)] (password controller, lines 141-170) *)
Definition verifyToken (now : Z) (token : string) : Response.t :=
  if (token =? "")%string then Response.failure 400 "Token is required"
  else
    match verifyResetToken token now with
    | Raise e =>
        Response.failure 400
          (if (Err.message e =? "")%string then "Invalid or expired token"
           else Err.message e)
    | Done payload =>
        Response.make 200
          (Js.JObj
             [("success", Js.JBool true);
              ("message", Js.JStr "Token is valid");
              ("data",
               Js.JObj
                 (json_field "userId" (ResetClaims.id payload)
                    ++ json_field "role" (ResetClaims.role payload)
                    ++ match ResetClaims.exp payload with
                       | Some e => [("expiresAt", Js.JNum e)]
                       | None => []
                       end)%list)])
          Response.NoCookie
    end.

End PasswordService.

(** The reference instance of the reset primitives: the serialisation
    of [Reference], and a hash that [Reference.ref_bcrypt_compare]
    accepts. *)
Module ResetReference.

Import Reference.

Definition put_reset_claims (c : ResetClaims.t) : list N :=
  (put_value (ResetClaims.id c) ++ put_value (ResetClaims.role c)
     ++ put_option put_Z (ResetClaims.iat c)
     ++ put_option put_Z (ResetClaims.exp c))%list.

Definition get_reset_claims : parser ResetClaims.t :=
  pbind get_value (fun i => pbind get_value (fun r =>
  pbind (get_option get_Z) (fun a => pbind (get_option get_Z) (fun e =>
    pret (ResetClaims.make i r a e))))).

Definition ref_reset_jws_encode (secret : string) (c : ResetClaims.t)
  : Utf8.ustring :=
  write (put_string secret ++ put_reset_claims c)%list.

Definition ref_reset_jws_decode (secret : string) (token : Utf8.ustring)
  : option ResetClaims.t :=
  match read [] token with
  | Some ns =>
      match get_string ns with
      | Some (s, rest) =>
          if (s =? secret)%string then complete (get_reset_claims rest)
          else None
      | None => None
      end
  | None => None
  end.

Definition ref_bcrypt_hash (password : string) (rounds : Z)
    (salt : list byte) : string :=
  "$" ++ password.

Definition prims : ResetPrimitives :=
  Build_ResetPrimitives ref_reset_jws_encode ref_reset_jws_decode
    ref_bcrypt_hash.

(** A secret of 64 hexadecimal digits. *)
Definition secret : string := Buf.toString_hex (repeat x5a 32).

End ResetReference.

(* ================================================================== *)
(** ** Registration of a super admin *)
(* ================================================================== *)

(** What Mongoose does when a new [SuperAdmin] document is saved
    (super-admin.model.js): the setters of the schema, its validators,
    and the unique index on [email]. *)
Module Mongoose.

(** [trim: true] *)
Definition trim (s : string) : string := Text.trim s.

Inductive error : Type :=
| ValidationError (path : string)   (* a required path is missing *)
| DuplicateKey (path : string).     (* E11000 on a unique index *)

Definition message (e : error) : string :=
  match e with
  | ValidationError path =>
      "SuperAdmin validation failed: " ++ path ++ ": Path `" ++ path
      ++ "` is required."
  | DuplicateKey path => "E11000 duplicate key error: " ++ path
  end.

(** The fields of a new super admin as the controller gives them;
    [None] is [undefined]. *)
Record fields : Type := {
  f_userName : option string;
  f_email : option string;
  f_password : option string
}.



End Mongoose.

Inductive signup_effect : Type :=
| SignupUpload (url : string)       (* uploadToCloudinary gave this URL *)
| SignupHash (password : string)
| SignupInsert (doc : Account.t)
| SignupRollback (url : string).    (* deleteFromCloudinary(url) *)

Module SignupOutcome.
Record t : Type := make {
  db : Db.t;
  response : Response.t;
  effects : list signup_effect
}.
End SignupOutcome.

Section Signup.

Variable R : ResetPrimitives.

(** The answer of a [catch] block of the controller:
    [{ success: false, message: "Server Error", error: error.message }] *)
Definition signup_error (message : string) : Response.t :=
  Response.make 500
    (Js.JObj [("success", Js.JBool false);
              ("message", Js.JStr "Server Error");
              ("error", Js.JStr message)])
    Response.NoCookie.


End Signup.

(** Sample data for the reset and the registration. *)
Module ResetSample.

(** The super admins after the first sample login, and one agency. *)
Definition agency : Account.t :=
  Account.make "g1" "Globe" "desk@globe.io" "$Agency7?" "AGENCY" true
    None 0 None Js.Null.

Definition dir : Directory.t :=
  Directory.make (Db.superAdmins (Outcome.db Sample.first_login)) [agency].

(** A reset token for the sample super admin, made at time 0. *)
Definition token : string :=
  match generateResetToken Reference.prims ResetReference.prims
          ResetReference.secret
          (ResetClaims.make (Js.Str "a1") (Js.Str "SUPERADMIN") None None)
          None 0 [x07] with
  | Ok t => t
  | Throw _ => ""
  end.

(** The reset of the sample super admin, a minute later. *)
Definition reset : ResetOutcome.t :=
  resetPassword Reference.prims ResetReference.prims ResetReference.secret
    Sample.minute [x09] [x03] dir token (Some "Fresh2#pw").

(** The document that reset saves. *)
Definition saved : Account.t :=
  set_password (Account.set_login Sample.root 0 (Js.Str "01")) "$Fresh2#pw"
    (Js.Str "03").

End ResetSample.

(* ================================================================== *)
(** ** The login of a travel agency *)
(* ================================================================== *)

(** A document of [travelAgencySchema], the model [Agency] of Mongoose,
    as [loginAgency] sees it. *)
Module Agency.

(** [account] holds the paths an agency shares with the other accounts:
    [_id], [agencyName] (as [userName]), [email], [password], [role],
    [lastLogin], [loginAttempts], [lockUntil] and [sessionId];
    [isActive] is no path of this schema and the handler does not read
    it. *)
Record t : Type := make {
  account : Account.t;
  status : string
}.

Definition _id (a : t) : string := Account._id (account a).

Definition with_account (a : t) (acc : Account.t) : t :=
  make acc (status a).

(** [agency.suspension?.endAt] on a document that [findOne] has loaded.
    [suspension] is no path of the schema: the property
    [updateAgencyStatus] assigns is not stored, and a loaded document
    has none.  [None] is [undefined]. *)
Definition suspension_endAt (a : t) : option Z := None.

(** [enum] of the path [status] *)
Definition statuses : list string :=
  ["PENDING"; "ACTIVATED"; "SUSPENDED"; "BANNED"].

(** The enum validator of [status]. *)
Definition status_valid (a : t) : bool :=
  existsb (String.eqb (status a)) statuses.

(** The message of the validation error of a [status] outside the
    enum. *)
Definition enum_message (value : string) : string :=
  "Agency validation failed: status: `" ++ value
  ++ "` is not a valid enum value for path `status`.".

(** [TravelAgency.findOne({ email })] *)
Definition findOne (col : list t) (email : string) : option t :=
  find (fun a => (Account.email (account a) =? email)%string) col.

(** [TravelAgency.findById(id)] *)
Definition findById (col : list t) (id : string) : option t :=
  find (fun a => (_id a =? id)%string) col.

(** The collection after a [doc.save()] that passes validation. *)
Definition save (col : list t) (doc : t) : list t :=
  map (fun a => if (_id a =? _id doc)%string then doc else a) col.

(** What identifies an agency and decides whether it may log in. *)
Definition key (a : t) : string * string * string :=
  (_id a, Account.email (account a), status a).

(** The statuses [loginAgency] turns away. *)
Definition barred : list string := ["PENDING"; "BANNED"; "SUSPENDED"].

End Agency.

Inductive agency_effect : Type :=
| AgencyCompare (password hash : string)
| AgencySave (doc : Agency.t).

Module AgencyOutcome.
Record t : Type := make {
  agencies : list Agency.t;
  response : Response.t;
  effects : list agency_effect
}.
End AgencyOutcome.

(** [agency.suspension?.endAt && now < agency.suspension.endAt] *)
Definition suspension_running (a : Agency.t) (now : Z) : bool :=
  match Agency.suspension_endAt a with
  | Some endAt => now <? endAt
  | None => false
  end.

(** The answer of a successful [loginAgency]. *)
Definition agency_welcome (a : Agency.t) (token : string) : Response.t :=
  Response.make 200
    (Js.JObj
       [("success", Js.JBool true);
        ("message", Js.JStr "Login successfully");
        ("agency",
         Js.JObj [("id", Js.JStr (Agency._id a));
                  ("agencyName",
                   Js.JStr (Account.userName (Agency.account a)));
                  ("email", Js.JStr (Account.email (Agency.account a)))]);
        ("token", Js.JStr token);
        ("expiresIn", Js.JNum (24 * 60 * 60))])
    (Response.SetCookie "accessToken" token (24 * 60 * 60 * 1000)).

(** The claims [loginAgency] has sealed for an agency. *)
Definition agency_claims (a : Agency.t) (sessionId : Js.value) : Claims.t :=
  Claims.make (Js.Str "AGENCY")
    (Some (UserClaim.make (Js.Str (Agency._id a))
             (Js.Str (Account.email (Agency.account a)))))
    sessionId None None.

(** One request to [POST /signin-agency]: the instant, the random
    bytes it draws and the request. *)
Module Attempt.
Record t : Type := make {
  instant : Z;
  sid : list byte;
  iv : list byte;
  req : Request.t
}.
End Attempt.

Section AgencyLogin.

Variable P : Primitives.
Variable cfg : Config.t.

(** [loginAgency] from the password check on (lines 291-342 of the
    travel agency controller): [agency] is the document as the steps
    before left it, [col] the collection and [eff] what was done so
    far. *)
Definition agency_password_step (now : Z) (sid iv : list byte)
    (password : string) (agency : Agency.t) (col : list Agency.t)
    (eff : list agency_effect) : AgencyOutcome.t :=
  let acc := Agency.account agency in
  let isMatch := bcrypt_compare P password (Account.password acc) in
  let eff2 := (eff ++ [AgencyCompare password (Account.password acc)])%list in
  if negb isMatch then
    let agency2 := Agency.with_account agency (strike acc now) in
    let message :=
      if locked (Agency.account agency2) now
      then "Too many failed login attempts. Account locked for 30 minutes."
      else "Invalid credentials" in
    AgencyOutcome.make (Agency.save col agency2)
      (Response.make 401
         (wrong_password_body message
            (Account.loginAttempts (Agency.account agency2)))
         Response.NoCookie)
      (eff2 ++ [AgencySave agency2])%list
  else
    let agency2 :=
      Agency.with_account agency
        (Account.set_login acc now (Js.Str (generateSecureToken sid))) in
    let payload :=
      agency_claims agency2 (Account.sessionId (Agency.account agency2)) in
    match generateEncryptedToken P cfg payload now iv with
    | Throw e =>
        AgencyOutcome.make (Agency.save col agency2)
          (Response.server_error e) (eff2 ++ [AgencySave agency2])%list
    | Ok encryptedToken =>
        AgencyOutcome.make (Agency.save col agency2)
          (agency_welcome agency2 encryptedToken)
          (eff2 ++ [AgencySave agency2])%list
    end.

(** [loginAgency(req, res)] (travel agency controller, lines 231-349).
    [sid] is the [crypto.randomBytes(32)] of
    [generateSecureToken] and [iv] the [crypto.randomBytes(16)] of
    [encryptToken].  A [save()] validates the paths the handler has
    assigned; of these only [status] has a validator that can fail. *)
Definition loginAgency (now : Z) (sid iv : list byte)
    (agencies : list Agency.t) (req : Request.t) : AgencyOutcome.t :=
  let email := Request.email req in
  let password := Request.password req in
  if negb (Text.truthy email) || negb (Text.truthy password) then
    AgencyOutcome.make agencies
      (Response.failure 400 "Email and password required") []
  else
    match Agency.findOne agencies (Text.toLowerCase (Text.get email)) with
    | None =>
        AgencyOutcome.make agencies
          (Response.failure 401 "Invalid credentials") []
    | Some agency =>
        if locked (Agency.account agency) now then
          AgencyOutcome.make agencies
            (Response.failure 423
               (locked_message (Agency.account agency) now)) []
        else
          let '(agency1, col1, eff1) :=
            if lock_expired (Agency.account agency) now then
              let a :=
                Agency.with_account agency
                  (Account.set_lock (Agency.account agency) 0 None) in
              (a, Agency.save agencies a, [AgencySave a])
            else (agency, agencies, []) in
          if (Agency.status agency1 =? "PENDING")%string then
            AgencyOutcome.make col1
              (Response.failure 403
                 "Your account is pending approval. Please wait for admin verification.")
              eff1
          else if (Agency.status agency1 =? "BANNED")%string then
            AgencyOutcome.make col1
              (Response.failure 403
                 "Cannot login, your account has been permanently banned.")
              eff1
          else if (Agency.status agency1 =? "SUSPENDED")%string then
            if suspension_running agency1 now then
              AgencyOutcome.make col1
                (Response.failure 403 "Your account is temporarily suspended.")
                eff1
            else
              let agency2 := Agency.make (Agency.account agency1) "ACTIVE" in
              if Agency.status_valid agency2 then
                agency_password_step now sid iv (Text.get password) agency2
                  (Agency.save col1 agency2) (eff1 ++ [AgencySave agency2])
              else
                AgencyOutcome.make col1
                  (signup_error (Agency.enum_message (Agency.status agency2)))
                  eff1
          else
            agency_password_step now sid iv (Text.get password) agency1
              col1 eff1
    end.

(** Requests to [POST /signin-agency] served one after the other: what
    each of them did, on the collection the one before left. *)
Fixpoint agency_logins (attempts : list Attempt.t)
    (agencies : list Agency.t) : list AgencyOutcome.t :=
  match attempts with
  | [] => []
  | a :: rest =>
      let o :=
        loginAgency (Attempt.instant a) (Attempt.sid a) (Attempt.iv a)
          agencies (Attempt.req a) in
      o :: agency_logins rest (AgencyOutcome.agencies o)
  end.

End AgencyLogin.

(** Two agencies and a series of requests. *)
Module AgencySample.

Definition globe : Agency.t :=
  Agency.make
    (Account.make "g1" "Globe" "desk@globe.io" "$Agency7?" "AGENCY" true None 0
       None Js.Null)
    "SUSPENDED".

Definition atlas : Agency.t :=
  Agency.make
    (Account.make "g2" "Atlas" "hello@atlas.io" "$Atlas88!" "AGENCY" true None
       0 None Js.Null)
    "ACTIVATED".

Definition agencies : list Agency.t := [globe; atlas].

Definition attempts : list Attempt.t :=
  [Attempt.make 500 [x01] [x0a]
     (Request.credentials "desk@globe.io" "$Agency7?");
   Attempt.make 1500 [x02] [x0b]
     (Request.credentials "hello@atlas.io" "Atlas88!");
   Attempt.make 2000 [x03] [x0c]
     (Request.credentials "Desk@Globe.io" "$Agency7?")].

End AgencySample.

(* ================================================================== *)
(** * Facts about the encodings *)
(* ================================================================== *)

Section BufFacts.

Lemma of_Z_to_Z (b : byte) : Buf.of_Z (Buf.to_Z b) = b.
Proof. destruct b; reflexivity. Qed.

Lemma to_Z_range (b : byte) : 0 <= Buf.to_Z b < 256.
Proof. destruct b; cbv; split; congruence. Qed.

Lemma to_Z_of_Z (z : Z) : 0 <= z < 256 -> Buf.to_Z (Buf.of_Z z) = z.
Proof.
  intros Hz. unfold Buf.of_Z, Buf.to_Z.
  rewrite Z.mod_small by lia.
  destruct (Byte.of_N (Z.to_N z)) as [b|] eqn:E.
  - apply Byte.to_of_N in E. rewrite E. lia.
  - apply Byte.of_N_None_iff in E. lia.
Qed.

Lemma xor_involutive (a k : byte) : Buf.xor (Buf.xor a k) k = a.
Proof.
  unfold Buf.xor.
  rewrite <- (Byte.of_bits_to_bits a) at 2.
  destruct (Byte.to_bits a) as (a0&a1&a2&a3&a4&a5&a6&a7).
  destruct (Byte.to_bits k) as (k0&k1&k2&k3&k4&k5&k6&k7).
  rewrite Byte.to_bits_of_bits.
  repeat rewrite xorb_assoc. repeat rewrite xorb_nilpotent.
  repeat rewrite xorb_false_r. reflexivity.
Qed.

Lemma hex_byte_roundtrip (b : byte) :
  Buf.hex_value (Buf.hex_digit (Buf.to_Z b / 16)) = Some (Buf.to_Z b / 16)
  /\ Buf.hex_value (Buf.hex_digit (Buf.to_Z b mod 16))
     = Some (Buf.to_Z b mod 16).
Proof. destruct b; split; reflexivity. Qed.

(** Decoding the hex text of a buffer gives the buffer back. *)
Lemma from_hex_toString_hex (bs : list byte) :
  Buf.from_hex (Buf.toString_hex bs) = bs.
Proof.
  induction bs as [|b rest IH]; [reflexivity|].
  cbn [Buf.toString_hex Buf.from_hex].
  destruct (hex_byte_roundtrip b) as [Hh Hl].
  rewrite Hh, Hl, IH. f_equal.
  rewrite <- (of_Z_to_Z b) at 3. f_equal.
  pose proof (Z.div_mod (Buf.to_Z b) 16). lia.
Qed.

Lemma list_eqb_eq (a b : list byte) : Buf.list_eqb a b = true <-> a = b.
Proof.
  revert b; induction a as [|x a IH]; intros [|y b]; cbn;
    try (split; congruence).
  rewrite andb_true_iff, IH. split.
  - intros [H1 H2]. apply Byte.byte_dec_bl in H1. congruence.
  - intros H. inversion H; subst. split; [apply Byte.byte_dec_lb|]; reflexivity.
Qed.

Lemma list_eqb_refl (a : list byte) : Buf.list_eqb a a = true.
Proof. apply list_eqb_eq. reflexivity. Qed.

Lemma flip1_neq (a b : list byte) : Buf.flip1 a b -> a <> b.
Proof.
  intros [pre x y post Hxy] E. apply app_inv_head in E. congruence.
Qed.

Lemma flip1_length (a b : list byte) :
  Buf.flip1 a b -> List.length a = List.length b.
Proof. intros [pre x y post _]. rewrite !List.length_app. reflexivity. Qed.

End BufFacts.

Section Utf8Facts.

Import Utf8.

Local Ltac arith := Z.div_mod_to_equations; lia.

(** Turn a boolean fact about integer comparisons into arithmetic. *)
Local Ltac to_arith E :=
  unfold is_cont, is_second, second_lo, second_hi, is_high, is_low in E;
  repeat match type of E with
    | context [?a =? ?b] => destruct (Z.eqb_spec a b)
    end;
  rewrite ?andb_true_iff, ?andb_false_iff, ?Z.ltb_lt, ?Z.ltb_ge,
    ?Z.leb_le, ?Z.leb_gt in E.

(** Decide the outermost conditional of the goal. *)
Local Ltac step_if :=
  match goal with
  | |- (if ?c then _ else _) = _ =>
      let E := fresh "E" in
      destruct c eqn:E; [ try (exfalso; to_arith E; arith)
                        | try (exfalso; to_arith E; arith) ]
  end.

Lemma decode_encode_1 (u : Z) (k : list byte) :
  0 <= u < 0x80 -> decode (Buf.of_Z u :: k) = u :: decode k.
Proof.
  intros Hu. cbn [decode]. rewrite to_Z_of_Z by lia.
  step_if. reflexivity.
Qed.

Lemma decode_encode_2 (u : Z) (k : list byte) :
  0x80 <= u < 0x800 ->
  decode (Buf.of_Z (0xC0 + u / 64) :: Buf.of_Z (0x80 + u mod 64) :: k)
  = u :: decode k.
Proof.
  intros Hu. remember (_ :: k) as r0 eqn:Hr0.
  cbn [decode]. subst r0. cbv beta iota zeta.
  rewrite !to_Z_of_Z by arith.
  repeat step_if. f_equal. arith.
Qed.

Lemma decode_encode_3 (u : Z) (k : list byte) :
  0x800 <= u < 0x10000 -> is_high u = false -> is_low u = false ->
  decode (Buf.of_Z (0xE0 + u / 4096) :: Buf.of_Z (0x80 + (u / 64) mod 64)
            :: Buf.of_Z (0x80 + u mod 64) :: k)
  = u :: decode k.
Proof.
  intros Hu Hh Hl. to_arith Hh. to_arith Hl.
  remember (_ :: _ :: k) as r0 eqn:Hr0.
  cbn [decode]. subst r0. cbv beta iota zeta.
  rewrite !to_Z_of_Z by arith.
  repeat step_if. f_equal. arith.
Qed.

Lemma decode_encode_4 (u v : Z) (k : list byte) :
  is_high u = true -> is_low v = true ->
  let cp := 0x10000 + (u - 0xD800) * 1024 + (v - 0xDC00) in
  decode (Buf.of_Z (0xF0 + cp / 262144)
            :: Buf.of_Z (0x80 + (cp / 4096) mod 64)
            :: Buf.of_Z (0x80 + (cp / 64) mod 64)
            :: Buf.of_Z (0x80 + cp mod 64) :: k)
  = u :: v :: decode k.
Proof.
  intros Hh Hl cp. to_arith Hh. to_arith Hl.
  assert (Hcp : 0x10000 <= cp < 0x110000) by (subst cp; lia).
  assert (Hu : u = 0xD800 + (cp - 0x10000) / 1024) by (subst cp; arith).
  assert (Hv : v = 0xDC00 + (cp - 0x10000) mod 1024) by (subst cp; arith).
  clearbody cp.
  remember (_ :: _ :: _ :: k) as r0 eqn:Hr0.
  cbn [decode]. subst r0. cbv beta iota zeta.
  rewrite !to_Z_of_Z by arith.
  repeat step_if. unfold units.
  replace (_ + _ + _ + _) with cp by arith.
  step_if. subst u v. reflexivity.
Qed.

(** Encoding well-formed text and decoding the bytes gives the text
    back. *)
Lemma decode_encode (s : ustring) :
  well_formed s -> decode (encode s) = s.
Proof.
  induction 1 as [|u s Hu Hh Hl _ IH|u v s Hh Hl _ IH].
  - reflexivity.
  - cbn [encode]. rewrite Hh, Hl.
    destruct (Z.ltb_spec u 0x80).
    + rewrite decode_encode_1, IH by lia. reflexivity.
    + destruct (Z.ltb_spec u 0x800).
      * rewrite decode_encode_2, IH by lia. reflexivity.
      * rewrite decode_encode_3, IH by (auto; lia). reflexivity.
  - cbn [encode]. rewrite Hh, Hl.
    assert (Hu : 0xD800 <= u <= 0xDBFF).
    { unfold is_high in Hh. apply andb_true_iff in Hh.
      rewrite !Z.leb_le in Hh. lia. }
    destruct (Z.ltb_spec u 0x80); [lia|].
    destruct (Z.ltb_spec u 0x800); [lia|].
    rewrite decode_encode_4, IH by assumption. reflexivity.
Qed.

(** A surrogate on its own does not survive the round trip. *)
Lemma decode_encode_lone_surrogate :
  decode (encode [0xD800]) = [0xFFFD].
Proof. reflexivity. Qed.

Lemma small_units_well_formed (s : ustring) :
  Forall (fun u => 0 <= u < 0xD800) s -> well_formed s.
Proof.
  induction 1 as [|u s Hu _ IH]; constructor; auto; try lia.
  - unfold is_high. destruct (Z.leb_spec 0xD800 u); [lia | reflexivity].
  - unfold is_low. destruct (Z.leb_spec 0xDC00 u); [lia | reflexivity].
Qed.

End Utf8Facts.

(* ================================================================== *)
(** * The reference primitives meet the contracts *)
(* ================================================================== *)

Section ReferenceFacts.

Import Reference.

Lemma N_of_bits_of_N (n : N) : N_of_bits (bits_of_N n) = n.
Proof.
  destruct n as [|p]; [reflexivity|]. cbn [bits_of_N].
  induction p as [q IH|q IH|]; cbn [bits_of_pos N_of_bits];
    try rewrite IH; lia.
Qed.

Lemma read_digits (bs acc : list bool) (l : list Z) :
  read acc (map digit bs ++ l) = read (rev bs ++ acc) l.
Proof.
  revert acc; induction bs as [|b bs IH]; intros acc; [reflexivity|].
  cbn [map app read rev]. rewrite <- app_assoc. cbn [app].
  destruct b; cbn; apply IH.
Qed.

Lemma read_write_N (n : N) (l : list Z) :
  read [] (write_N n ++ l) = option_map (cons n) (read [] l).
Proof.
  unfold write_N. rewrite <- app_assoc, read_digits, app_nil_r.
  cbn. rewrite rev_involutive, N_of_bits_of_N. reflexivity.
Qed.

Lemma read_write (ns : list N) : read [] (write ns) = Some ns.
Proof.
  induction ns as [|n ns IH]; [reflexivity|].
  cbn [write flat_map]. rewrite read_write_N. fold (write ns).
  rewrite IH. reflexivity.
Qed.

Lemma write_small (ns : list N) :
  Forall (fun u => 0 <= u < 0x80) (write ns).
Proof.
  induction ns as [|n ns IH]; [constructor|].
  cbn [write flat_map]. apply Forall_app. split; [|exact IH].
  unfold write_N. apply Forall_app. split.
  - apply Forall_map, Forall_forall. intros [] _; cbn; lia.
  - constructor; [unfold stop; lia | constructor].
Qed.

Lemma get_Z_put_Z (z : Z) (k : list N) : get_Z (put_Z z ++ k)%list = Some (z, k).
Proof.
  unfold get_Z, put_Z, pbind, pret, get_N. cbn [app].
  destruct (Z.ltb_spec z 0); cbn; repeat f_equal; lia.
Qed.

Lemma string_of_ascii_codes (s : string) :
  string_of_list_ascii (map ascii_of_N (map N_of_ascii (list_ascii_of_string s)))
  = s.
Proof.
  induction s as [|c s IH]; [reflexivity|]. cbn.
  rewrite ascii_N_embedding, IH. reflexivity.
Qed.

Lemma length_ascii_codes (s : string) :
  List.length (map N_of_ascii (list_ascii_of_string s)) = String.length s.
Proof.
  rewrite length_map. induction s as [|c s IH]; cbn; congruence.
Qed.

Lemma get_string_put_string (s : string) (k : list N) :
  get_string (put_string s ++ k)%list = Some (s, k).
Proof.
  unfold get_string, put_string, pbind, get_N. cbn [app].
  rewrite Nnat.Nat2N.id.
  pose proof (length_ascii_codes s) as Hlen.
  destruct (Nat.leb_spec (String.length s)
              (List.length (map N_of_ascii (list_ascii_of_string s) ++ k)))
    as [_|Hlt].
  - rewrite <- Hlen at 1 2.
    rewrite firstn_app, skipn_app, Nat.sub_diag, firstn_all, skipn_all.
    cbn. rewrite app_nil_r, string_of_ascii_codes. reflexivity.
  - rewrite length_app in Hlt. lia.
Qed.

Lemma pbind_get_N {B : Type} (f : N -> parser B) (n : N) (k : list N) :
  pbind get_N f (n :: k) = f n k.
Proof. reflexivity. Qed.

Lemma pbind_step {A B : Type} (p : parser A) (f : A -> parser B)
    (ns k : list N) (a : A) :
  p ns = Some (a, k) -> pbind p f ns = f a k.
Proof. intros H. unfold pbind. rewrite H. reflexivity. Qed.

Lemma get_value_put_value (v : Js.value) (k : list N) :
  get_value (put_value v ++ k)%list = Some (v, k).
Proof.
  unfold get_value.
  destruct v as [| |b|z|s]; cbn [put_value app]; rewrite pbind_get_N;
    cbn [N.eqb Pos.eqb].
  - reflexivity.
  - reflexivity.
  - rewrite pbind_get_N. destruct b; reflexivity.
  - rewrite (pbind_step _ _ _ _ _ (get_Z_put_Z z k)). reflexivity.
  - rewrite (pbind_step _ _ _ _ _ (get_string_put_string s k)). reflexivity.
Qed.

Lemma get_option_put_option {A : Type} (get : parser A) (put : A -> list N)
    (o : option A) (k : list N) :
  (forall a k', get (put a ++ k')%list = Some (a, k')) ->
  get_option get (put_option put o ++ k)%list = Some (o, k).
Proof.
  intros H. unfold get_option.
  destruct o as [a|]; cbn [put_option app]; rewrite pbind_get_N;
    cbn [N.eqb Pos.eqb]; [|reflexivity].
  rewrite (pbind_step _ _ _ _ _ (H a k)). reflexivity.
Qed.

Lemma get_user_put_user (u : UserClaim.t) (k : list N) :
  get_user (put_user u ++ k)%list = Some (u, k).
Proof.
  destruct u as [i e]. unfold get_user, put_user. cbn [UserClaim.id UserClaim.email].
  rewrite <- app_assoc.
  rewrite (pbind_step _ _ _ _ _ (get_value_put_value i _)).
  rewrite (pbind_step _ _ _ _ _ (get_value_put_value e _)).
  reflexivity.
Qed.

Lemma get_claims_put_claims (c : Claims.t) (k : list N) :
  get_claims (put_claims c ++ k)%list = Some (c, k).
Proof.
  destruct c as [r u s i e]. unfold get_claims, put_claims.
  cbn [Claims.role Claims.user Claims.sessionId Claims.iat Claims.exp].
  rewrite <- !app_assoc.
  rewrite (pbind_step _ _ _ _ _ (get_value_put_value r _)).
  rewrite (pbind_step _ _ _ _ _
             (get_option_put_option _ _ u _ get_user_put_user)).
  rewrite (pbind_step _ _ _ _ _ (get_value_put_value s _)).
  rewrite (pbind_step _ _ _ _ _
             (get_option_put_option _ _ i _ get_Z_put_Z)).
  rewrite (pbind_step _ _ _ _ _
             (get_option_put_option _ _ e _ get_Z_put_Z)).
  reflexivity.
Qed.

Lemma get_payload_put_strings (i c t : string) (k : list N) :
  get_payload (put_string i ++ put_string c ++ put_string t ++ k)%list
  = Some (Payload.make (Js.Str i) (Js.Str c) (Js.Str t), k).
Proof.
  unfold get_payload.
  rewrite (pbind_step _ _ _ _ _ (get_string_put_string i _)).
  rewrite (pbind_step _ _ _ _ _ (get_string_put_string c _)).
  rewrite (pbind_step _ _ _ _ _ (get_string_put_string t _)).
  reflexivity.
Qed.

Lemma of_string_of_units (l : list Z) :
  Forall (fun u => 0 <= u < 0x80) l ->
  Utf8.of_string (string_of_units l) = l.
Proof.
  induction 1 as [|u l Hu _ IH]; [reflexivity|].
  cbn [string_of_units Utf8.of_string]. rewrite IH. f_equal.
  rewrite N_ascii_embedding; lia.
Qed.

(** The reference primitives meet every contract. *)

Lemma ref_tag_length : Contract.tag_length prims.
Proof. intros key iv ct. reflexivity. Qed.

Lemma checksum_app (a b : list byte) :
  checksum (a ++ b) = checksum a + checksum b.
Proof. induction a as [|x a IH]; cbn [app checksum]; lia. Qed.

Lemma to_Z_inj (a b : byte) : Buf.to_Z a = Buf.to_Z b -> a = b.
Proof.
  intros H. rewrite <- (of_Z_to_Z a), <- (of_Z_to_Z b), H. reflexivity.
Qed.

Lemma ref_tag_binds_ciphertext (key : list byte) :
  Contract.tag_binds_ciphertext prims key.
Proof.
  intros iv ct ct' [pre b b' post Hb] E.
  cbn [gcm_tag prims] in E. unfold ref_gcm_tag in E.
  injection E as E. apply (f_equal Buf.to_Z) in E.
  rewrite !to_Z_of_Z in E by (apply Z.mod_pos_bound; lia).
  rewrite !checksum_app in E. cbn [checksum] in E.
  assert (Buf.to_Z b <> Buf.to_Z b') by (intros H; apply Hb, to_Z_inj, H).
  pose proof (to_Z_range b). pose proof (to_Z_range b').
  Z.div_mod_to_equations. lia.
Qed.

Lemma ref_jws_roundtrip : Contract.jws_roundtrip prims.
Proof.
  intros secret c. cbn [jws_decode jws_encode prims].
  unfold ref_jws_decode, ref_jws_encode.
  rewrite read_write, get_string_put_string, String.eqb_refl.
  rewrite <- (app_nil_r (put_claims c)), get_claims_put_claims.
  reflexivity.
Qed.

Lemma ref_jws_text : Contract.jws_text prims.
Proof.
  intros secret c. apply small_units_well_formed.
  eapply Forall_impl; [|apply write_small]. cbn. lia.
Qed.

Lemma ref_transport_roundtrip : Contract.transport_roundtrip prims.
Proof.
  intros [i c t]. cbn [transport_decode transport_encode prims].
  unfold ref_transport_decode, ref_transport_encode.
  rewrite of_string_of_units by apply write_small.
  rewrite read_write. unfold put_envelope.
  cbn [Envelope.iv Envelope.ciphertext Envelope.authTag].
  rewrite <- (app_nil_r (put_string t)), get_payload_put_strings.
  reflexivity.
Qed.

End ReferenceFacts.

(* ================================================================== *)
(** * The store *)
(* ================================================================== *)

Section StoreFacts.

Lemma findOne_email (col : list Account.t) (q : string) (doc : Account.t) :
  Db.findOne col q = Some doc -> Account.email doc = Db.cast_email q.
Proof.
  unfold Db.findOne. intros H. apply find_some in H as [_ H].
  apply String.eqb_eq, H.
Qed.

Lemma findById_id (col : list Account.t) (id : string) (doc : Account.t) :
  Db.findById col id = Some doc -> Account._id doc = id.
Proof.
  unfold Db.findById. intros H. apply find_some in H as [_ H].
  apply String.eqb_eq, H.
Qed.

(** The lookup casts the email: the sample super admin is found, and
    logs in, under an address written in capitals between blanks. *)
Example lookup_casts_the_email :
  Db.findOne (Db.superAdmins Sample.db) " ROOT@Oloha.io " = Some Sample.root
  /\ Response.status
       (Outcome.response
          (loginSuperAdmin Reference.prims Sample.cfg 0 [x01] [x0a] Sample.db
             (Request.credentials " ROOT@Oloha.io " "Correct1!")))
     = 200.
Proof. vm_compute. split; reflexivity. Qed.

(** A saved document is the one its email finds. *)
Lemma findOne_save (col : list Account.t) (q : string) (doc doc' : Account.t) :
  Db.findOne col q = Some doc ->
  Account._id doc' = Account._id doc ->
  Account.email doc' = Account.email doc ->
  Db.findOne (Db.save col doc') q = Some doc'.
Proof.
  intros Hfind Hid Hemail.
  pose proof (findOne_email _ _ _ Hfind) as Hq.
  unfold Db.findOne, Db.save in *.
  induction col as [|a col IH]; [discriminate|].
  cbn [map find] in *.
  destruct (Account._id a =? Account._id doc')%string eqn:Ea.
  - rewrite Hemail, Hq, String.eqb_refl. reflexivity.
  - destruct (Account.email a =? Db.cast_email q)%string eqn:Eq.
    + injection Hfind as ->. rewrite Hid, String.eqb_refl in Ea. discriminate.
    + apply IH, Hfind.
Qed.

(** A saved document is the one its id finds. *)
Lemma findById_save (col : list Account.t) (id : string) (doc doc' : Account.t) :
  Db.findById col id = Some doc ->
  Account._id doc' = id ->
  Db.findById (Db.save col doc') id = Some doc'.
Proof.
  intros Hfind Hid. subst id. unfold Db.findById, Db.save in *.
  induction col as [|a col IH]; [discriminate|].
  cbn [map find] in *.
  destruct (Account._id a =? Account._id doc')%string eqn:Ea.
  - rewrite String.eqb_refl. reflexivity.
  - rewrite Ea. apply IH, Hfind.
Qed.

Lemma findById_updateSessionId (col : list Account.t) (id : string)
    (doc : Account.t) (sid : Js.value) :
  Db.findById col id = Some doc ->
  Db.findById (Db.updateSessionId col id sid) id
  = Some (Account.set_sessionId doc sid).
Proof.
  intros Hfind. unfold Db.findById, Db.updateSessionId in *.
  induction col as [|a col IH]; [discriminate|].
  cbn [map find] in *.
  destruct (Account._id a =? id)%string eqn:Ea.
  - injection Hfind as ->. cbn [Account.set_sessionId Account._id].
    rewrite Ea. reflexivity.
  - rewrite Ea. apply IH, Hfind.
Qed.

Lemma collection_store (f : Flavour.t) (db : Db.t) (col : list Account.t) :
  handled f -> Flavour.collection f (Flavour.store f db col) = col.
Proof. intros [-> | ->]; reflexivity. Qed.

Lemma findById_saved (f : Flavour.t) (db : Db.t) (id : string)
    (doc doc' : Account.t) :
  handled f ->
  Db.findById (Flavour.collection f db) id = Some doc ->
  Account._id doc' = id ->
  Db.findById (Flavour.collection f (saved f db doc')) id = Some doc'.
Proof.
  intros Hf Hfind Hid. unfold saved. rewrite collection_store by exact Hf.
  eapply findById_save; eauto.
Qed.

End StoreFacts.

(* ================================================================== *)
(** * The credential verifier, branch by branch *)
(* ================================================================== *)

Section LoginFacts.

Variable P : Primitives.
Variable cfg : Config.t.
Variable f : Flavour.t.
Hypothesis Hf : handled f.

Variables (now : Z) (sid iv : list byte) (db : Db.t).
Variables (email password : string).
Hypothesis Hemail : email <> "".
Hypothesis Hpassword : password <> "".

Let req := Request.credentials email password.
Let q := Flavour.query f email.
Let out := login P cfg f now sid iv db req.

Lemma credentials_truthy :
  negb (Text.truthy (Request.email req))
  || negb (Text.truthy (Request.password req)) = false.
Proof.
  subst req. cbn.
  apply String.eqb_neq in Hemail, Hpassword.
  rewrite Hemail, Hpassword. reflexivity.
Qed.


Variable doc : Account.t.
Hypothesis Hfind : Db.findOne (Flavour.collection f db) q = Some doc.

Lemma login_locked :
  locked doc now = true ->
  out = Outcome.make db (Response.failure 423 (locked_message doc now)) [].
Proof.
  intros Hlocked. subst out. unfold login.
  rewrite credentials_truthy. cbn [Request.email req Request.credentials Text.get].
  fold q. rewrite Hfind, Hlocked. reflexivity.
Qed.

Lemma unlock_password : Account.password (unlock doc now) = Account.password doc.
Proof. unfold unlock. destruct (lock_expired doc now); reflexivity. Qed.

Lemma unlock_id : Account._id (unlock doc now) = Account._id doc.
Proof. unfold unlock. destruct (lock_expired doc now); reflexivity. Qed.

Lemma unlock_email : Account.email (unlock doc now) = Account.email doc.
Proof. unfold unlock. destruct (lock_expired doc now); reflexivity. Qed.

Lemma strike_id (d : Account.t) : Account._id (strike d now) = Account._id d.
Proof. unfold strike. destruct (_ >=? 3); reflexivity. Qed.

Lemma strike_email (d : Account.t) :
  Account.email (strike d now) = Account.email d.
Proof. unfold strike. destruct (_ >=? 3); reflexivity. Qed.

(** What the handler writes back is found again under the same email. *)
Lemma written_back (doc' : Account.t) :
  Account._id doc' = Account._id doc ->
  Account.email doc' = Account.email doc ->
  Db.findOne
    (Flavour.collection f
       (Flavour.store f db (Db.save (Flavour.collection f db) doc'))) q
  = Some doc'.
Proof.
  intros Hid He. rewrite collection_store by exact Hf.
  eapply findOne_save; eauto.
Qed.

Lemma written_back_twice (d doc' : Account.t) :
  Account._id d = Account._id doc -> Account.email d = Account.email doc ->
  Account._id doc' = Account._id doc ->
  Account.email doc' = Account.email doc ->
  let db1 := Flavour.store f db (Db.save (Flavour.collection f db) d) in
  Db.findOne
    (Flavour.collection f
       (Flavour.store f db1 (Db.save (Flavour.collection f db1) doc'))) q
  = Some doc'.
Proof.
  intros Hd1 Hd2 Hid He db1. subst db1.
  rewrite !collection_store by exact Hf.
  eapply findOne_save; [eapply findOne_save; eauto | congruence | congruence].
Qed.

(** A wrong password on an account that is not locked. *)
Lemma login_wrong :
  locked doc now = false ->
  bcrypt_compare P password (Account.password doc) = false ->
  let doc2 := strike (unlock doc now) now in
  Outcome.response out
  = Response.make 401
      (wrong_password_body
         (if locked doc2 now
          then "Too many failed login attempts. Account locked for 30 minutes."
          else "Invalid credentials")
         (Account.loginAttempts doc2))
      Response.NoCookie
  /\ Outcome.effects out
     = ((if lock_expired doc now then [Save (unlock doc now)] else [])
          ++ [BcryptCompare password (Account.password doc); Save doc2])%list
  /\ Db.findOne (Flavour.collection f (Outcome.db out)) q = Some doc2.
Proof.
  intros Hlocked Hcmp doc2. subst out doc2. unfold login.
  rewrite credentials_truthy.
  cbn [Request.email Request.password req Request.credentials Text.get].
  fold q. rewrite Hfind, Hlocked. unfold unlock, strike.
  destruct (lock_expired doc now) eqn:Hexp; cbv beta iota zeta;
    cbn [Account.password Account.set_lock]; rewrite Hcmp; cbn [negb];
    cbn [Outcome.response Outcome.effects Outcome.db];
    (split; [|split]).
  - destruct (_ >=? 3); reflexivity.
  - destruct (_ >=? 3); reflexivity.
  - apply written_back_twice; try reflexivity; destruct (_ >=? 3); reflexivity.
  - destruct (_ >=? 3); reflexivity.
  - destruct (_ >=? 3); reflexivity.
  - apply written_back; destruct (_ >=? 3); reflexivity.
Qed.

(** The right password on an account that is not locked. *)
Lemma login_right :
  locked doc now = false ->
  bcrypt_compare P password (Account.password doc) = true ->
  let doc2 :=
    Account.set_login (unlock doc now) now (Js.Str (generateSecureToken sid)) in
  let payload :=
    Claims.make (Js.Str (Flavour.role f))
      (Some (UserClaim.make (Js.Str (Account._id doc))
               (Js.Str (Account.email doc))))
      (Js.Str (generateSecureToken sid)) None None in
  Outcome.response out
  = match generateEncryptedToken P cfg payload now iv with
    | Throw e => Response.server_error e
    | Ok token =>
        Response.make 200
          (Js.JObj
             [("success", Js.JBool true);
              ("message", Js.JStr (Flavour.welcome f));
              (Flavour.profile f,
               Js.JObj [("id", Js.JStr (Account._id doc));
                        ("userName", Js.JStr (Account.userName doc));
                        ("email", Js.JStr (Account.email doc))]);
              ("token", Js.JStr token);
              ("expiresIn", Js.JNum 86400)])
          (Response.SetCookie "accessToken" token 86400000)
    end
  /\ Outcome.effects out
     = ((if lock_expired doc now then [Save (unlock doc now)] else [])
          ++ [BcryptCompare password (Account.password doc); Save doc2])%list
  /\ Db.findOne (Flavour.collection f (Outcome.db out)) q = Some doc2.
Proof.
  intros Hlocked Hcmp doc2 payload. subst out doc2 payload. unfold login.
  rewrite credentials_truthy.
  cbn [Request.email Request.password req Request.credentials Text.get].
  fold q. rewrite Hfind, Hlocked. unfold unlock.
  destruct (lock_expired doc now) eqn:Hexp; cbv beta iota zeta;
    cbn [Account.password Account.set_lock Account.set_login Account._id
           Account.email Account.userName Account.sessionId];
    rewrite Hcmp; cbn [negb];
    destruct (generateEncryptedToken P cfg _ now iv) as [token|e];
    cbn [Outcome.response Outcome.effects Outcome.db];
    (split; [reflexivity | split; [reflexivity|]]).
  1,2: apply written_back_twice; reflexivity.
  1,2: apply written_back; reflexivity.
Qed.

(** The store after a login with the right password. *)
Lemma login_right_db :
  locked doc now = false ->
  bcrypt_compare P password (Account.password doc) = true ->
  Outcome.db out
  = saved f (if lock_expired doc now then saved f db (unlock doc now) else db)
      (Account.set_login (unlock doc now) now
         (Js.Str (generateSecureToken sid))).
Proof.
  intros Hlocked Hcmp. subst out. unfold login.
  rewrite credentials_truthy.
  cbn [Request.email Request.password req Request.credentials Text.get].
  fold q. rewrite Hfind, Hlocked. unfold unlock, saved.
  destruct (lock_expired doc now) eqn:Hexp; cbv beta iota zeta;
    cbn [Account.password Account.set_lock Account.set_login Account._id
           Account.email Account.userName Account.sessionId];
    rewrite Hcmp; cbn [negb];
    destruct (generateEncryptedToken P cfg _ now iv) as [token|e];
    reflexivity.
Qed.

End LoginFacts.

(* ================================================================== *)
(** * Lockout *)
(* ================================================================== *)

Section Lockout.

Variable P : Primitives.
Variable cfg : Config.t.

Lemma unlock_not_locked (doc : Account.t) (now : Z) :
  locked doc now = false -> Account.lockUntil (unlock doc now) = None.
Proof.
  unfold locked, unlock, lock_expired.
  destruct (Account.lockUntil doc) as [t|] eqn:E; [|intros _; exact E].
  intros H. apply Z.ltb_ge in H. apply Z.leb_le in H. rewrite H. reflexivity.
Qed.

Lemma unlock_attempts (doc : Account.t) (now : Z) :
  Account.loginAttempts (unlock doc now)
  = if lock_expired doc now then 0 else Account.loginAttempts doc.
Proof. unfold unlock. destruct (lock_expired doc now); reflexivity. Qed.

Lemma strike_attempts (doc : Account.t) (now : Z) :
  Account.loginAttempts (strike doc now) = Account.loginAttempts doc + 1.
Proof. unfold strike. destruct (_ >=? 3); reflexivity. Qed.

Lemma strike_lockUntil (doc : Account.t) (now : Z) :
  Account.lockUntil (strike doc now)
  = if Account.loginAttempts doc + 1 >=? 3
    then Some (now + 30 * 60 * 1000) else Account.lockUntil doc.
Proof. unfold strike. destruct (_ >=? 3); reflexivity. Qed.

Lemma strike_password (doc : Account.t) (now : Z) :
  Account.password (strike doc now) = Account.password doc.
Proof. unfold strike. destruct (_ >=? 3); reflexivity. Qed.

Lemma locked_None (doc : Account.t) (now : Z) :
  Account.lockUntil doc = None -> locked doc now = false.
Proof. unfold locked. intros ->. reflexivity. Qed.

Lemma unlock_None (doc : Account.t) (now : Z) :
  Account.lockUntil doc = None -> unlock doc now = doc.
Proof. unfold unlock, lock_expired. intros ->. reflexivity. Qed.

(** A token can be issued whenever the key and the iv are usable. *)
Lemma generateEncryptedToken_ok (payload : Claims.t) (now : Z) (iv : list byte) :
  Claims.exp payload = None ->
  Gcm.init_ok (Config.ENCRYPTION_KEY cfg) iv = true ->
  exists token, generateEncryptedToken P cfg payload now iv = Ok token.
Proof.
  intros Hexp Hinit. unfold generateEncryptedToken, jwt_sign, encryptToken.
  rewrite Hexp. cbn [Exn.bind]. rewrite Hinit. cbn [negb Exn.bind].
  eexists. reflexivity.
Qed.

End Lockout.

(** C2.  Lockout threshold: starting from [loginAttempts = 0] on an
    account that is not locked, three consecutive failed password
    checks leave [loginAttempts = 3] and [lockUntil] thirty minutes after
    the third; a fourth attempt before [lockUntil], whatever password it
    brings, is answered 423 "Account locked. Try again in N minutes.",
    N being the time that remains in minutes, rounded up; it runs no
    password comparison, saves nothing and leaves the store as it
    was. *)
Theorem lockout_threshold (P : Primitives) (cfg : Config.t) (f : Flavour.t)
    (db0 : Db.t) (doc : Account.t) (email p1 p2 p3 p4 : string)
    (t1 t2 t3 t4 : Z) (s1 s2 s3 s4 i1 i2 i3 i4 : list byte) :
  handled f ->
  email <> "" -> p1 <> "" -> p2 <> "" -> p3 <> "" -> p4 <> "" ->
  Db.findOne (Flavour.collection f db0) (Flavour.query f email) = Some doc ->
  Account.loginAttempts doc = 0 ->
  locked doc t1 = false ->
  bcrypt_compare P p1 (Account.password doc) = false ->
  bcrypt_compare P p2 (Account.password doc) = false ->
  bcrypt_compare P p3 (Account.password doc) = false ->
  t4 < t3 + 30 * 60 * 1000 ->
  let o1 := login P cfg f t1 s1 i1 db0 (Request.credentials email p1) in
  let o2 := login P cfg f t2 s2 i2 (Outcome.db o1)
              (Request.credentials email p2) in
  let o3 := login P cfg f t3 s3 i3 (Outcome.db o2)
              (Request.credentials email p3) in
  let o4 := login P cfg f t4 s4 i4 (Outcome.db o3)
              (Request.credentials email p4) in
  let remaining := t3 + 30 * 60 * 1000 - t4 in
  exists doc3 minutes,
    Db.findOne (Flavour.collection f (Outcome.db o3)) (Flavour.query f email)
    = Some doc3
    /\ Account.loginAttempts doc3 = 3
    /\ Account.lockUntil doc3 = Some (t3 + 30 * 60 * 1000)
    /\ 0 < minutes
    /\ 60000 * (minutes - 1) < remaining <= 60000 * minutes
    /\ o4 = Outcome.make (Outcome.db o3)
              (Response.failure 423
                 ("Account locked. Try again in " ++ Js.show_int minutes
                  ++ " minutes."))
              [].
Proof.
  intros Hf He H1 H2 H3 H4 Hfind Hzero Hfree Hc1 Hc2 Hc3 Ht o1 o2 o3 o4
    remaining.
  (* first failure *)
  destruct (login_wrong P cfg f Hf t1 s1 i1 db0 email p1 He H1 doc Hfind
              Hfree Hc1) as (_ & _ & Hfind1).
  fold o1 in Hfind1.
  set (d1 := strike (unlock doc t1) t1) in *.
  assert (A1 : Account.loginAttempts d1 = 1).
  { subst d1. rewrite strike_attempts, unlock_attempts, Hzero.
    destruct (lock_expired doc t1); reflexivity. }
  assert (L1 : Account.lockUntil d1 = None).
  { subst d1. rewrite strike_lockUntil, unlock_attempts, Hzero.
    destruct (lock_expired doc t1); cbn; apply unlock_not_locked, Hfree. }
  assert (W1 : Account.password d1 = Account.password doc).
  { subst d1. rewrite strike_password. apply unlock_password. }
  (* second failure *)
  rewrite <- W1 in Hc2.
  destruct (login_wrong P cfg f Hf t2 s2 i2 (Outcome.db o1) email p2 He H2 d1
              Hfind1 (locked_None d1 t2 L1) Hc2) as (_ & _ & Hfind2).
  fold o2 in Hfind2. rewrite (unlock_None d1 t2 L1) in Hfind2.
  set (d2 := strike d1 t2) in *.
  assert (A2 : Account.loginAttempts d2 = 2).
  { subst d2. rewrite strike_attempts, A1. reflexivity. }
  assert (L2 : Account.lockUntil d2 = None).
  { subst d2. rewrite strike_lockUntil, A1. exact L1. }
  assert (W2 : Account.password d2 = Account.password doc).
  { subst d2. rewrite strike_password. exact W1. }
  (* third failure *)
  rewrite <- W2 in Hc3.
  destruct (login_wrong P cfg f Hf t3 s3 i3 (Outcome.db o2) email p3 He H3 d2
              Hfind2 (locked_None d2 t3 L2) Hc3) as (_ & _ & Hfind3).
  fold o3 in Hfind3. rewrite (unlock_None d2 t3 L2) in Hfind3.
  set (d3 := strike d2 t3) in *.
  assert (A3 : Account.loginAttempts d3 = 3).
  { subst d3. rewrite strike_attempts, A2. reflexivity. }
  assert (L3 : Account.lockUntil d3 = Some (t3 + 30 * 60 * 1000)).
  { subst d3. rewrite strike_lockUntil, A2. reflexivity. }
  (* the fourth attempt *)
  exists d3, (Js.ceil_div remaining 60000).
  split; [exact Hfind3|]. split; [exact A3|]. split; [exact L3|].
  split; [|split].
  - subst remaining. unfold Js.ceil_div. Z.div_mod_to_equations. lia.
  - subst remaining. unfold Js.ceil_div. Z.div_mod_to_equations. lia.
  - subst o4.
    rewrite (login_locked P cfg f t4 s4 i4 (Outcome.db o3) email p4 He H4 d3
               Hfind3)
      by (unfold locked; rewrite L3; apply Z.ltb_lt, Ht).
    unfold locked_message. rewrite L3. reflexivity.
Qed.

(** The threshold on the sample super admin: three wrong passwords at
    minutes 0, 1 and 2, then the right one at minute 3. *)
Lemma lockout_threshold_witness :
  let step t p db :=
    loginSuperAdmin Reference.prims Sample.cfg (t * Sample.minute) [x01] [x02]
      db (Request.credentials "root@oloha.io" p) in
  let o3 := step 2 "guess3" (Outcome.db (step 1 "guess2"
                              (Outcome.db (step 0 "guess1" Sample.db)))) in
  exists doc3,
    Db.findOne (Db.superAdmins (Outcome.db o3)) "root@oloha.io" = Some doc3
    /\ Account.loginAttempts doc3 = 3
    /\ Account.lockUntil doc3 = Some (32 * Sample.minute)
    /\ step 3 "Correct1!" (Outcome.db o3)
       = Outcome.make (Outcome.db o3)
           (Response.failure 423 "Account locked. Try again in 29 minutes.")
           [].
Proof.
  intros step o3.
  destruct (lockout_threshold Reference.prims Sample.cfg Flavour.superAdmin
              Sample.db Sample.root "root@oloha.io" "guess1" "guess2" "guess3"
              "Correct1!" 0 (1 * Sample.minute) (2 * Sample.minute)
              (3 * Sample.minute) [x01] [x01] [x01] [x01] [x02] [x02] [x02]
              [x02] (or_introl eq_refl) ltac:(discriminate) ltac:(discriminate)
              ltac:(discriminate) ltac:(discriminate) ltac:(discriminate)
              eq_refl eq_refl eq_refl eq_refl eq_refl eq_refl eq_refl)
    as (doc3 & minutes & Hfind & Hattempts & Hlock & Hpos & Hbounds & Hfourth).
  exists doc3.
  split; [exact Hfind|]. split; [exact Hattempts|]. split; [exact Hlock|].
  assert (Hminutes : minutes = 29).
  { unfold Sample.minute in Hbounds. lia. }
  subst minutes. exact Hfourth.
Defined.






(** C10.  Logout without an authenticated identity answers 200 "Logout
    successfully", clears the [accessToken] cookie and leaves the store
    untouched; the store changes only when [req.user] carries an id. *)
Theorem logout_without_identity (P : Primitives) (sid : list byte) (db : Db.t)
    (req : Request.t) :
  (Text.truthy (option_map ReqUser.id (Request.user req)) = false ->
   logoutSuperAdmin P sid db req
   = Outcome.make db
       (Response.make 200
          (Js.JObj [("success", Js.JBool true);
                    ("message", Js.JStr "Logout successfully")])
          (Response.ClearCookie "accessToken"))
       [])
  /\ (Outcome.db (logoutSuperAdmin P sid db req) <> db ->
      exists u, Request.user req = Some u /\ ReqUser.id u <> "").
Proof.
  unfold logoutSuperAdmin. destruct (Request.user req) as [u|]; cbn.
  - destruct (ReqUser.id u =? "")%string eqn:E; cbn.
    + split; [reflexivity | intros H; now contradiction H].
    + split; [discriminate|]. intros _. exists u. split; [reflexivity|].
      apply String.eqb_neq, E.
  - split; [reflexivity | intros H; now contradiction H].
Qed.

Lemma logout_without_identity_witness :
  logoutSuperAdmin Reference.prims [x01] Sample.db Request.anonymous
  = Outcome.make Sample.db
      (Response.make 200
         (Js.JObj [("success", Js.JBool true);
                   ("message", Js.JStr "Logout successfully")])
         (Response.ClearCookie "accessToken"))
      [].
Proof.
  apply (logout_without_identity Reference.prims [x01] Sample.db
           Request.anonymous).
  reflexivity.
Defined.

(* ================================================================== *)
(** * The crypto envelope and the token codec *)
(* ================================================================== *)

Section EnvelopeFacts.

Variable P : Primitives.
Variable cfg : Config.t.

Lemma ctr_involutive (ks : nat -> byte) (data : list byte) (i : nat) :
  Gcm.ctr ks i (Gcm.ctr ks i data) = data.
Proof.
  revert i; induction data as [|b rest IH]; intros i; [reflexivity|].
  cbn [Gcm.ctr]. rewrite xor_involutive, IH. reflexivity.
Qed.

Lemma tag_length_ok_16 (tag : list byte) :
  List.length tag = 16%nat -> Gcm.tag_length_ok tag = true.
Proof. unfold Gcm.tag_length_ok. intros ->. reflexivity. Qed.

(** [decipher.final()] accepts the tag the cipher produced. *)
Lemma final_own_tag (key iv ct : list byte) :
  Gcm.final P key iv (gcm_tag P key iv ct) ct = Ok [].
Proof.
  unfold Gcm.final. rewrite firstn_all, list_eqb_refl. reflexivity.
Qed.

(** [decipher.final()] throws on any other tag of the same length. *)
Lemma final_other_tag (key iv tag ct : list byte) :
  List.length tag = List.length (gcm_tag P key iv ct) ->
  tag <> gcm_tag P key iv ct ->
  Gcm.final P key iv tag ct = Throw AuthTagError.
Proof.
  intros Hlen Hneq. unfold Gcm.final. rewrite Hlen, firstn_all.
  destruct (Buf.list_eqb tag (gcm_tag P key iv ct)) eqn:E; [|reflexivity].
  apply list_eqb_eq in E. contradiction.
Qed.

(** What opening a sealed envelope returns, for any plaintext. *)
Lemma decrypt_encrypt (iv : list byte) (p : Utf8.ustring) :
  Gcm.init_ok (Config.ENCRYPTION_KEY cfg) iv = true ->
  Contract.tag_length P ->
  exists e,
    encryptToken P cfg iv p = Ok e
    /\ decryptToken P cfg (Payload.of_envelope e)
       = Ok (Utf8.decode (Utf8.encode p)).
Proof.
  intros Hinit Hlen. unfold encryptToken. rewrite Hinit. cbn [negb].
  eexists. split; [reflexivity|].
  unfold decryptToken, Payload.of_envelope, buffer_from_hex.
  cbn [Payload.iv Payload.authTag Payload.ciphertext Envelope.iv
         Envelope.authTag Envelope.ciphertext Exn.bind].
  rewrite !from_hex_toString_hex, Hinit. cbn [negb].
  rewrite tag_length_ok_16 by apply Hlen. cbn [negb].
  rewrite final_own_tag. cbn [Exn.bind].
  rewrite !app_nil_r, ctr_involutive. reflexivity.
Qed.

(** The claims a token carries once it is signed at [t0]. *)
Lemma jwt_sign_fresh (payload : Claims.t) (t0 : Z) :
  Claims.exp payload = None -> Claims.iat payload = None ->
  jwt_sign P cfg payload t0
  = Ok (jws_encode P (Config.JWT_SECRET cfg)
          (Claims.with_times payload (t0 / 1000) (t0 / 1000 + 86400))).
Proof. intros He Hi. unfold jwt_sign. rewrite He, Hi. reflexivity. Qed.

(** [jwt.verify] on a token of this server: only the expiry decides. *)
Lemma jwt_verify_issued (c : Claims.t) (e tolerance now : Z) :
  Contract.jws_roundtrip P ->
  Claims.exp c = Some e ->
  jwt_verify P cfg (jws_encode P (Config.JWT_SECRET cfg) c) tolerance now
  = if now / 1000 >=? e + tolerance then Throw TokenExpiredError else Ok c.
Proof.
  intros Hrt He. unfold jwt_verify. rewrite Hrt, He. reflexivity.
Qed.

End EnvelopeFacts.

(** C6.  Crypto round trip.  With a 32-byte key and a non-empty iv,
    every text is sealed, and opening the envelope gives back what the
    UTF-8 codec of buffers makes of it: the text itself when it is
    well-formed (without a lone surrogate).  [encryptToken] is not
    exported and is called on the output of [jwt.sign] only, which is
    such a text.  And for every claim set that [jwt.sign] accepts
    (one without [exp]; it may carry an [iat]), the token signed from
    it at [t0] is sealed and opened to itself and verifies, until 24
    hours and 30 seconds after its [iat], to the same [role], [user]
    and [sessionId] with the [iat] and [exp] of [jwt.sign]; so does the
    token of [generateEncryptedToken] when the middleware opens it. *)
Theorem crypto_roundtrip (P : Primitives) (cfg : Config.t) (iv : list byte)
    (claims : Claims.t) (t0 now : Z) :
  Contract.tag_length P ->
  Contract.jws_roundtrip P ->
  Contract.jws_text P ->
  Contract.transport_roundtrip P ->
  Gcm.init_ok (Config.ENCRYPTION_KEY cfg) iv = true ->
  Claims.exp claims = None ->
  now / 1000 < issued_at claims t0 + 86400 + 30 ->
  let iat := issued_at claims t0 in
  let signed := Claims.with_times claims iat (iat + 86400) in
  (forall p,
      exists e,
        encryptToken P cfg iv p = Ok e
        /\ decryptToken P cfg (Payload.of_envelope e)
           = Ok (Utf8.decode (Utf8.encode p))
        /\ (Utf8.well_formed p -> Utf8.decode (Utf8.encode p) = p))
  /\ exists rawJwt e token,
       jwt_sign P cfg claims t0 = Ok rawJwt
       /\ encryptToken P cfg iv rawJwt = Ok e
       /\ decryptToken P cfg (Payload.of_envelope e) = Ok rawJwt
       /\ jwt_verify P cfg rawJwt 30 now = Ok signed
       /\ generateEncryptedToken P cfg claims t0 iv = Ok token
       /\ (token <> "" ->
           open_token P cfg now (Request.with_cookie token) = Ok (Some signed))
       /\ Claims.role signed = Claims.role claims
       /\ Claims.user signed = Claims.user claims
       /\ Claims.sessionId signed = Claims.sessionId claims.
Proof.
  intros Htag Hjws Htext Htransport Hinit Hexp Hnow iat signed.
  set (jwt := jws_encode P (Config.JWT_SECRET cfg) signed).
  assert (Hsign : jwt_sign P cfg claims t0 = Ok jwt).
  { unfold jwt_sign. rewrite Hexp. reflexivity. }
  assert (Hverify : jwt_verify P cfg jwt 30 now = Ok signed).
  { subst jwt.
    rewrite (jwt_verify_issued P cfg signed (iat + 86400)) by
      (try assumption; reflexivity).
    destruct (Z.geb_spec (now / 1000) (iat + 86400 + 30));
      [subst iat; lia | reflexivity]. }
  split.
  - intros p.
    destruct (decrypt_encrypt P cfg iv p Hinit Htag) as (e & He1 & He2).
    exists e. split; [exact He1|]. split; [exact He2|].
    intros Hwf. apply decode_encode, Hwf.
  - destruct (decrypt_encrypt P cfg iv jwt Hinit Htag) as (e & He1 & He2).
    rewrite decode_encode in He2 by apply Htext.
    exists jwt, e, (transport_encode P e).
    split; [exact Hsign|]. split; [exact He1|]. split; [exact He2|].
    split; [exact Hverify|].
    split.
    { unfold generateEncryptedToken. rewrite Hsign. cbn [Exn.bind].
      rewrite He1. reflexivity. }
    split; [|repeat split; reflexivity].
    intros Hne. unfold open_token, extract_payload, parse_transport.
    cbn [Request.with_cookie Request.authorization Request.accessToken
           Text.truthy Text.get].
    apply String.eqb_neq in Hne. rewrite Hne. cbn [negb].
    rewrite Htransport. cbn [Exn.bind]. rewrite He2. cbn [Exn.bind].
    rewrite Hverify. reflexivity.
Qed.

(** A text is sealed and opened; and claims that carry an [iat] are
    signed and sealed at the instant 60000 and opened by the middleware
    at the instant 1000. *)
Lemma crypto_roundtrip_witness :
  let claims :=
    Claims.make (Js.Str "SUPERADMIN")
      (Some (UserClaim.make (Js.Str "a1") (Js.Str "root@oloha.io")))
      (Js.Str "01") (Some 5) None in
  (exists e,
      encryptToken Reference.prims Sample.cfg [x02] (Utf8.of_string "a.b.c")
      = Ok e
      /\ decryptToken Reference.prims Sample.cfg (Payload.of_envelope e)
         = Ok (Utf8.of_string "a.b.c"))
  /\ exists token,
       generateEncryptedToken Reference.prims Sample.cfg claims 60000 [x02]
       = Ok token
       /\ open_token Reference.prims Sample.cfg 1000
            (Request.with_cookie token)
          = Ok (Some (Claims.make (Js.Str "SUPERADMIN")
                        (Some (UserClaim.make (Js.Str "a1")
                                 (Js.Str "root@oloha.io")))
                        (Js.Str "01") (Some 5) (Some 86405))).
Proof.
  intros claims.
  destruct (crypto_roundtrip Reference.prims Sample.cfg [x02] claims 60000
              1000 ref_tag_length ref_jws_roundtrip ref_jws_text
              ref_transport_roundtrip eq_refl eq_refl eq_refl)
    as [Hseal (rawJwt & e & token & _ & _ & _ & _ & Hgen & Hopen & _)].
  split.
  - destruct (Hseal (Utf8.of_string "a.b.c")) as (e' & He1 & He2 & Hwf).
    exists e'. split; [exact He1|]. rewrite He2, Hwf; [reflexivity|].
    apply small_units_well_formed. repeat constructor; cbn; lia.
  - exists token. split; [exact Hgen|]. apply Hopen.
    intros E. rewrite E in Hgen. vm_compute in Hgen. discriminate Hgen.
Defined.

(** Outside these texts the codec of the envelope is lossy: a surrogate
    without its partner comes back as U+FFFD.  No such text reaches
    [encryptToken]. *)
Lemma roundtrip_loses_lone_surrogate :
  (e <- encryptToken Reference.prims Sample.cfg [x02] [0xD800] ;;
   decryptToken Reference.prims Sample.cfg (Payload.of_envelope e))
  = Ok [0xFFFD]
  /\ [0xFFFD] <> [0xD800].
Proof. split; [vm_compute; reflexivity | discriminate]. Qed.

(** X8.  Whatever is put in the place of the tag, an envelope with the sealed
    iv and ciphertext opens to the sealed plaintext or not at all. *)
Lemma tag_tampering_never_changes_plaintext (P : Primitives) (cfg : Config.t)
    (iv : list byte) (p q : Utf8.ustring) (e : Envelope.t) (tag : Js.value) :
  encryptToken P cfg iv p = Ok e ->
  decryptToken P cfg
    (Payload.make (Js.Str (Envelope.iv e)) (Js.Str (Envelope.ciphertext e)) tag)
  = Ok q ->
  q = Utf8.decode (Utf8.encode p).
Proof.
  intros Henc. unfold encryptToken in Henc.
  destruct (Gcm.init_ok (Config.ENCRYPTION_KEY cfg) iv) eqn:Hinit;
    [|discriminate].
  cbn [negb] in Henc. injection Henc as <-.
  unfold decryptToken, buffer_from_hex.
  cbn [Payload.iv Payload.authTag Payload.ciphertext Envelope.iv
         Envelope.ciphertext Exn.bind].
  destruct tag as [| | | |t]; cbn [Exn.bind]; try discriminate.
  rewrite !from_hex_toString_hex, Hinit. cbn [negb].
  destruct (Gcm.tag_length_ok (Buf.from_hex t)); cbn [negb]; [|discriminate].
  unfold Gcm.final. destruct (Buf.list_eqb _ _); cbn [Exn.bind];
    [|discriminate].
  rewrite !app_nil_r, ctr_involutive. intros H. injection H as <-.
  reflexivity.
Qed.

(** C7.  Tamper detection: when the ciphertext or the authentication tag
    of a sealed envelope is replaced by hex text that differs from it in
    one byte, [decryptToken] throws the authentication error of
    [decipher.final()] and returns no plaintext. *)
Theorem tamper_detection (P : Primitives) (cfg : Config.t) (iv : list byte)
    (p : Utf8.ustring) (e : Envelope.t) :
  Contract.tag_length P ->
  Contract.tag_binds_ciphertext P (Config.ENCRYPTION_KEY cfg) ->
  encryptToken P cfg iv p = Ok e ->
  (forall ciphertext',
      Buf.flip1 (Buf.from_hex (Envelope.ciphertext e))
        (Buf.from_hex ciphertext') ->
      decryptToken P cfg
        (Payload.make (Js.Str (Envelope.iv e)) (Js.Str ciphertext')
           (Js.Str (Envelope.authTag e)))
      = Throw AuthTagError)
  /\ (forall authTag',
         Buf.flip1 (Buf.from_hex (Envelope.authTag e))
           (Buf.from_hex authTag') ->
         decryptToken P cfg
           (Payload.make (Js.Str (Envelope.iv e))
              (Js.Str (Envelope.ciphertext e)) (Js.Str authTag'))
         = Throw AuthTagError).
Proof.
  intros Hlen Hbind Henc. unfold encryptToken in Henc.
  destruct (Gcm.init_ok (Config.ENCRYPTION_KEY cfg) iv) eqn:Hinit;
    [|discriminate].
  cbn [negb] in Henc. injection Henc as <-.
  cbn [Envelope.iv Envelope.ciphertext Envelope.authTag].
  rewrite !from_hex_toString_hex, !app_nil_r.
  set (key := Config.ENCRYPTION_KEY cfg) in *.
  set (ct := Gcm.ctr (keystream P key iv) 0 (Utf8.encode p)).
  split.
  - intros ct' Hflip. unfold decryptToken, buffer_from_hex.
    cbn [Payload.iv Payload.authTag Payload.ciphertext Exn.bind].
    rewrite !from_hex_toString_hex. fold key. rewrite Hinit. cbn [negb].
    rewrite tag_length_ok_16 by apply Hlen. cbn [negb].
    rewrite final_other_tag; [reflexivity | rewrite !Hlen; reflexivity |].
    apply Hbind, Hflip.
  - intros tag' Hflip. unfold decryptToken, buffer_from_hex.
    cbn [Payload.iv Payload.authTag Payload.ciphertext Exn.bind].
    rewrite !from_hex_toString_hex. fold key. rewrite Hinit. cbn [negb].
    pose proof (flip1_length _ _ Hflip) as Hl.
    rewrite tag_length_ok_16 by (rewrite <- Hl; apply Hlen). cbn [negb].
    rewrite final_other_tag; [reflexivity | symmetry; exact Hl |].
    intros E. apply (flip1_neq _ _ Hflip). symmetry. exact E.
Qed.

(** The envelope of ["hi"] with the first byte of its ciphertext, or of
    its tag, replaced. *)
Lemma tamper_detection_witness :
  decryptToken Reference.prims Sample.cfg
    (Payload.make (Js.Str "02") (Js.Str "ff28")
       (Js.Str "8b000000000000000000000000000000"))
  = Throw AuthTagError
  /\ decryptToken Reference.prims Sample.cfg
       (Payload.make (Js.Str "02") (Js.Str "0128")
          (Js.Str "ff000000000000000000000000000000"))
     = Throw AuthTagError.
Proof.
  destruct (tamper_detection Reference.prims Sample.cfg [x02]
              (Utf8.of_string "hi")
              (Envelope.make "02" "0128" "8b000000000000000000000000000000")
              ref_tag_length (ref_tag_binds_ciphertext Sample.key) eq_refl)
    as [Hc Ht].
  split.
  - apply (Hc "ff28"). apply (Buf.flip1_at [] x01 xff [x28]). discriminate.
  - apply (Ht "ff000000000000000000000000000000").
    apply (Buf.flip1_at [] x8b xff (repeat x00 15)). discriminate.
Defined.

(* ================================================================== *)
(** * The authentication middleware *)
(* ================================================================== *)

Section GateFacts.

Variable P : Primitives.
Variable cfg : Config.t.

Lemma strict_eq_eq (a b : Js.value) : Js.strict_eq a b = true <-> a = b.
Proof.
  destruct a, b; cbn; split; try discriminate; try reflexivity;
    try (intros H; injection H as ->).
  - intros H. apply Bool.eqb_prop in H. congruence.
  - apply Bool.eqb_reflx.
  - intros H. apply Z.eqb_eq in H. congruence.
  - apply Z.eqb_refl.
  - intros H. apply String.eqb_eq in H. congruence.
  - apply String.eqb_refl.
Qed.

Lemma strict_eq_neq (a b : Js.value) : Js.strict_eq a b = false <-> a <> b.
Proof.
  split.
  - intros H E. apply strict_eq_eq in E. congruence.
  - intros H. destruct (Js.strict_eq a b) eqn:E; [|reflexivity].
    apply strict_eq_eq in E. contradiction.
Qed.

(** Once the token is open, the answer is that of the checks. *)
Lemma gate_after_open (now : Z) (db : Db.t) (req : Request.t)
    (decoded : Claims.t) :
  open_token P cfg now req = Ok (Some decoded) ->
  encryptedAuthMiddleware P cfg now db req
  = match check_claims P now db decoded with
    | Ok r => r
    | Throw _ => Gate.Reply (Response.failure 401 "Authentication failed")
    end.
Proof.
  intros H. unfold encryptedAuthMiddleware, gate_try. rewrite H. reflexivity.
Qed.

(** The checks on claims that name a stored super admin. *)
Lemma check_claims_resolved (now : Z) (db : Db.t) (decoded : Claims.t)
    (id : string) (user : Account.t) :
  malformed decoded = false ->
  exceeded_max_lifetime decoded now = false ->
  Claims.role decoded = Js.Str "SUPERADMIN" ->
  castObjectId P (claimed_id decoded) = Some id ->
  Db.findById (Db.superAdmins db) id = Some user ->
  check_claims P now db decoded
  = Ok (if negb (Js.strict_eq (Claims.sessionId decoded)
                   (Account.sessionId user))
        then Gate.Reply (Response.failure 401 "Session mismatch detected")
        else if negb (Account.isActive user)
        then Gate.Reply (Response.failure 403 "Account is disabled")
        else Gate.Next
               (ReqUser.make (Account._id user) (Claims.role decoded)
                  (Account.email user) (Claims.sessionId decoded))).
Proof.
  intros Hm Hl Hr Hc Hf. unfold check_claims.
  rewrite Hm, Hl, Hr, Hc, Hf. cbn [Js.strict_eq negb].
  rewrite String.eqb_refl. cbn [negb].
  destruct (negb (Js.strict_eq _ _)); [reflexivity|].
  destruct (negb (Account.isActive user)); reflexivity.
Qed.

(** Whoever the middleware lets through holds claims that passed every check:
    they name a stored super admin that is active and whose current
    session is the one of the token. *)
Lemma gate_admits (now : Z) (db : Db.t) (req : Request.t) (u : ReqUser.t) :
  encryptedAuthMiddleware P cfg now db req = Gate.Next u ->
  exists decoded user,
    open_token P cfg now req = Ok (Some decoded)
    /\ exceeded_max_lifetime decoded now = false
    /\ castObjectId P (claimed_id decoded) = Some (ReqUser.id u)
    /\ Db.findById (Db.superAdmins db) (ReqUser.id u) = Some user
    /\ Account.isActive user = true
    /\ Claims.sessionId decoded = Account.sessionId user
    /\ ReqUser.sessionId u = Account.sessionId user.
Proof.
  unfold encryptedAuthMiddleware, gate_try.
  destruct (open_token P cfg now req) as [[decoded|]|e]; cbn [Exn.bind];
    try discriminate.
  unfold check_claims.
  destruct (malformed decoded); [discriminate|].
  destruct (exceeded_max_lifetime decoded now) eqn:Hl; [discriminate|].
  destruct (negb (Js.strict_eq (Claims.role decoded) _)); [discriminate|].
  destruct (castObjectId P (claimed_id decoded)) as [id|] eqn:Hc;
    [|discriminate].
  destruct (Db.findById (Db.superAdmins db) id) as [user|] eqn:Hf;
    [|discriminate].
  destruct (Js.strict_eq (Claims.sessionId decoded) (Account.sessionId user))
    eqn:Hs; cbn [negb]; [|discriminate].
  destruct (Account.isActive user) eqn:Ha; cbn [negb]; [|discriminate].
  intros H. injection H as <-. cbn [ReqUser.id ReqUser.sessionId].
  apply strict_eq_eq in Hs.
  pose proof (findById_id _ _ _ Hf) as Hid.
  exists decoded, user. rewrite Hid. repeat split; auto.
Qed.

(** After a login with the right password the super admin is stored
    with a fresh session. *)
Lemma login_right_stored (now : Z) (sid iv : list byte) (db : Db.t)
    (email password : string) (doc : Account.t) :
  email <> "" -> password <> "" ->
  Db.findOne (Db.superAdmins db) email = Some doc ->
  Db.findById (Db.superAdmins db) (Account._id doc) = Some doc ->
  locked doc now = false ->
  bcrypt_compare P password (Account.password doc) = true ->
  Db.findById
    (Db.superAdmins
       (Outcome.db (loginSuperAdmin P cfg now sid iv db
                      (Request.credentials email password))))
    (Account._id doc)
  = Some (Account.set_login (unlock doc now) now
            (Js.Str (generateSecureToken sid))).
Proof.
  intros He Hp Hone Hid Hfree Hcmp. unfold loginSuperAdmin.
  rewrite (login_right_db P cfg Flavour.superAdmin now sid iv db email
             password He Hp doc Hone Hfree Hcmp).
  destruct (lock_expired doc now).
  - apply (findById_saved Flavour.superAdmin _ _ (unlock doc now));
      [left; reflexivity | | cbn; apply unlock_id].
    apply (findById_saved Flavour.superAdmin _ _ doc);
      [left; reflexivity | exact Hid | apply unlock_id].
  - apply (findById_saved Flavour.superAdmin _ _ doc);
      [left; reflexivity | exact Hid | cbn; apply unlock_id].
Qed.


End GateFacts.

Section IssuedTokens.

Variable P : Primitives.
Variable cfg : Config.t.

Hypothesis Htag : Contract.tag_length P.
Hypothesis Hjws : Contract.jws_roundtrip P.
Hypothesis Htext : Contract.jws_text P.
Hypothesis Htransport : Contract.transport_roundtrip P.

(** Two draws of random bytes give the same session id only if they are
    the same bytes. *)
Lemma generateSecureToken_inj (r1 r2 : list byte) :
  generateSecureToken r1 = generateSecureToken r2 -> r1 = r2.
Proof.
  unfold generateSecureToken. intros H.
  rewrite <- (from_hex_toString_hex r1), <- (from_hex_toString_hex r2), H.
  reflexivity.
Qed.

(** The middleware opens a token of [generateEncryptedToken], sent back in the
    cookie, to the claims it was signed from, until the token expires. *)
Lemma issued_token_opens (payload : Claims.t) (t0 now : Z) (iv : list byte)
    (token : string) :
  Claims.iat payload = None -> Claims.exp payload = None ->
  generateEncryptedToken P cfg payload t0 iv = Ok token ->
  token <> "" ->
  now / 1000 < t0 / 1000 + 86400 + 30 ->
  open_token P cfg now (Request.with_cookie token)
  = Ok (Some (Claims.with_times payload (t0 / 1000) (t0 / 1000 + 86400))).
Proof.
  intros Hi He Hgen Hne Hnow. unfold generateEncryptedToken in Hgen.
  rewrite (jwt_sign_fresh P cfg payload t0 He Hi) in Hgen. cbn [Exn.bind] in Hgen.
  set (jwt := jws_encode P (Config.JWT_SECRET cfg) _) in *.
  destruct (Gcm.init_ok (Config.ENCRYPTION_KEY cfg) iv) eqn:Hinit.
  - destruct (decrypt_encrypt P cfg iv jwt Hinit Htag) as (e & He1 & He2).
    rewrite He1 in Hgen. cbn [Exn.bind] in Hgen. injection Hgen as <-.
    unfold open_token, extract_payload, parse_transport.
    cbn [Request.with_cookie Request.authorization Request.accessToken
           Text.truthy Text.get].
    apply String.eqb_neq in Hne. rewrite Hne. cbn [negb].
    rewrite Htransport. cbn [Exn.bind]. rewrite He2. cbn [Exn.bind].
    rewrite decode_encode by apply Htext.
    subst jwt.
    rewrite (jwt_verify_issued P cfg _ (t0 / 1000 + 86400)) by
      (try assumption; reflexivity).
    destruct (Z.geb_spec (now / 1000) (t0 / 1000 + 86400 + 30));
      [lia | reflexivity].
  - unfold encryptToken in Hgen. rewrite Hinit in Hgen. discriminate.
Qed.

(** X7.  The scenario of a fresh login: the right password on an active
    super admin is answered with a token, the account is stored with the
    session id of that token, and the middleware lets the token through for 24
    hours. *)
Lemma login_token_admitted (t0 now : Z) (sid iv : list byte) (db : Db.t)
    (email password : string) (doc : Account.t) :
  email <> "" -> password <> "" ->
  Db.findOne (Db.superAdmins db) email = Some doc ->
  Db.findById (Db.superAdmins db) (Account._id doc) = Some doc ->
  locked doc t0 = false ->
  bcrypt_compare P password (Account.password doc) = true ->
  Account.isActive doc = true ->
  Account._id doc <> "" ->
  castObjectId P (Js.Str (Account._id doc)) = Some (Account._id doc) ->
  Gcm.init_ok (Config.ENCRYPTION_KEY cfg) iv = true ->
  now <= t0 / 1000 * 1000 + 24 * 60 * 60 * 1000 ->
  let o := loginSuperAdmin P cfg t0 sid iv db
             (Request.credentials email password) in
  let current := Js.Str (generateSecureToken sid) in
  exists token,
    Outcome.response o = welcome_response Flavour.superAdmin doc token
    /\ option_map Account.sessionId
         (Db.findById (Db.superAdmins (Outcome.db o)) (Account._id doc))
       = Some current
    /\ (token <> "" ->
        encryptedAuthMiddleware P cfg now (Outcome.db o)
          (Request.with_cookie token)
        = Gate.Next
            (ReqUser.make (Account._id doc) (Js.Str "SUPERADMIN")
               (Account.email doc) current)).
Proof.
  intros He Hp Hone Hid Hfree Hcmp Hact Hne Hcast Hinit Hnow o current.
  set (payload :=
         Claims.make (Js.Str "SUPERADMIN")
           (Some (UserClaim.make (Js.Str (Account._id doc))
                    (Js.Str (Account.email doc))))
           current None None).
  destruct (generateEncryptedToken_ok P cfg payload t0 iv eq_refl Hinit)
    as [token Htok].
  destruct (login_right P cfg Flavour.superAdmin (or_introl eq_refl) t0 sid iv
              db email password He Hp doc Hone Hfree Hcmp) as (Hr & _ & _).
  pose proof (login_right_stored P cfg t0 sid iv db email password doc He Hp Hone
                Hid Hfree Hcmp) as Hst.
  fold o in Hr, Hst. cbn [Flavour.role Flavour.superAdmin] in Hr.
  fold current in Hr. fold payload in Hr. rewrite Htok in Hr.
  exists token. split; [exact Hr|]. split; [rewrite Hst; reflexivity|].
  intros Htoken.
  rewrite (gate_after_open P cfg now (Outcome.db o) _
             (Claims.with_times payload (t0 / 1000) (t0 / 1000 + 86400))).
  - rewrite (check_claims_resolved P now (Outcome.db o) _ (Account._id doc)
               (Account.set_login (unlock doc t0) t0 current)).
    + cbn [Claims.with_times Claims.sessionId Claims.role payload
             Account.set_login Account.sessionId Account.isActive
             Account._id Account.email].
      replace (Js.strict_eq current current) with true
        by (symmetry; apply strict_eq_eq; reflexivity).
      unfold unlock. destruct (lock_expired doc t0);
        cbn [Account.set_lock Account.isActive Account._id Account.email negb];
        rewrite Hact; reflexivity.
    + unfold malformed, payload. cbn.
      apply String.eqb_neq in Hne. rewrite Hne. reflexivity.
    + unfold exceeded_max_lifetime, payload. cbn. apply Z.ltb_ge. lia.
    + reflexivity.
    + exact Hcast.
    + exact Hst.
  - apply (issued_token_opens payload t0 now iv token);
      try assumption; try reflexivity.
    Z.div_mod_to_equations. lia.
Qed.

End IssuedTokens.




(** The middleware resolves no role but "SUPERADMIN": the token that
    [loginUser] hands to the sample user is answered 401 "Invalid role",
    before its session is looked at. *)
Example user_token_invalid_role :
  let o :=
    loginUser Reference.prims Sample.cfg 0 [x01] [x0a] Sample.db
      (Request.credentials "tess@oloha.io" "Passw0rd!") in
  Response.status (Outcome.response o) = 200
  /\ encryptedAuthMiddleware Reference.prims Sample.cfg Sample.minute
       (Outcome.db o) (Request.with_cookie (Sample.token_of o))
     = Gate.Reply (Response.failure 401 "Invalid role").
Proof. vm_compute. split; reflexivity. Qed.

(** C5, as the code has it.  The middleware lets nobody through for an
    account whose [isActive] flag is off: a token that names such an
    account and holds its current session is answered 403 "Account is
    disabled".  The login handlers do not read the flag: the right
    password on such an account, not locked, is answered 200 with a
    token and a cookie. *)
Theorem disabled_account (P : Primitives) (cfg : Config.t) :
  (forall now db req u,
      encryptedAuthMiddleware P cfg now db req = Gate.Next u ->
      exists user,
        Db.findById (Db.superAdmins db) (ReqUser.id u) = Some user
        /\ Account.isActive user = true)
  /\ (forall now db req decoded id user,
         open_token P cfg now req = Ok (Some decoded) ->
         malformed decoded = false ->
         exceeded_max_lifetime decoded now = false ->
         Claims.role decoded = Js.Str "SUPERADMIN" ->
         castObjectId P (claimed_id decoded) = Some id ->
         Db.findById (Db.superAdmins db) id = Some user ->
         Claims.sessionId decoded = Account.sessionId user ->
         Account.isActive user = false ->
         encryptedAuthMiddleware P cfg now db req
         = Gate.Reply (Response.failure 403 "Account is disabled"))
  /\ (forall f now sid iv db email password doc,
         handled f -> email <> "" -> password <> "" ->
         Db.findOne (Flavour.collection f db) (Flavour.query f email)
         = Some doc ->
         Account.isActive doc = false ->
         locked doc now = false ->
         bcrypt_compare P password (Account.password doc) = true ->
         Gcm.init_ok (Config.ENCRYPTION_KEY cfg) iv = true ->
         exists token,
           Outcome.response
             (login P cfg f now sid iv db (Request.credentials email password))
           = welcome_response f doc token).
Proof.
  split; [|split].
  - intros now db req u Hnext.
    destruct (gate_admits P cfg now db req u Hnext)
      as (decoded & user & _ & _ & _ & Hf & Ha & _).
    exists user. split; assumption.
  - intros now db req decoded id user Hopen Hm Hl Hr Hc Hf Hs Ha.
    rewrite (gate_after_open P cfg now db req decoded Hopen).
    rewrite (check_claims_resolved P now db decoded id user Hm Hl Hr Hc Hf).
    rewrite Hs, Ha.
    replace (Js.strict_eq (Account.sessionId user) (Account.sessionId user))
      with true by (symmetry; apply strict_eq_eq; reflexivity).
    reflexivity.
  - intros f now sid iv db email password doc Hf He Hp Hfind _ Hfree Hcmp Hinit.
    destruct (login_right P cfg f Hf now sid iv db email password He Hp doc
                Hfind Hfree Hcmp) as (Hr & _ & _).
    destruct (generateEncryptedToken_ok P cfg
                (Claims.make (Js.Str (Flavour.role f))
                   (Some (UserClaim.make (Js.Str (Account._id doc))
                            (Js.Str (Account.email doc))))
                   (Js.Str (generateSecureToken sid)) None None)
                now iv eq_refl Hinit) as [token Htok].
    exists token. rewrite Hr, Htok. reflexivity.
Qed.

(** The disabled sample account: its password is answered with a
    token. *)
Lemma disabled_account_witness :
  exists token,
    Outcome.response
      (loginSuperAdmin Reference.prims Sample.cfg 0 [x01] [x0a]
         (Db.make [Sample.disabled_root] [])
         (Request.credentials "root@oloha.io" "Correct1!"))
    = welcome_response Flavour.superAdmin Sample.disabled_root token.
Proof.
  destruct (disabled_account Reference.prims Sample.cfg) as (_ & _ & H).
  apply (H Flavour.superAdmin 0 [x01] [x0a] (Db.make [Sample.disabled_root] [])
           "root@oloha.io" "Correct1!" Sample.disabled_root);
    try discriminate; try reflexivity.
  left; reflexivity.
Defined.

(** C5, as the claim states it, fails: the disabled sample account logs
    in with its password and is handed a token.  The middleware then refuses
    that token. *)
Lemma disabled_account_logs_in :
  let db := Db.make [Sample.disabled_root] [] in
  let o :=
    loginSuperAdmin Reference.prims Sample.cfg 0 [x01] [x0a] db
      (Request.credentials "root@oloha.io" "Correct1!") in
  Response.status (Outcome.response o) = 200
  /\ Sample.token_of o <> ""
  /\ encryptedAuthMiddleware Reference.prims Sample.cfg Sample.minute
       (Outcome.db o) (Request.bearer (Sample.token_of o))
     = Gate.Reply (Response.failure 403 "Account is disabled").
Proof. vm_compute. repeat split; discriminate. Qed.

(** One row of the table of [check_claims]: an answer that is not the
    one of the row, a condition that holds, or one that the hypotheses
    at hand contradict. *)
Ltac table_contradiction :=
  exfalso;
  repeat match goal with
         | H : exists _, _ |- _ => destruct H
         | H : _ /\ _ |- _ => destruct H
         end;
  congruence.

Ltac table_case :=
  repeat match goal with
         | |- _ /\ _ => split
         | |- _ <-> _ => split
         end;
  let H := fresh "H" in
  intros H;
  first [ discriminate H
        | reflexivity
        | solve [eexists; reflexivity]
        | solve [repeat match goal with
                        | |- exists _, _ => eexists
                        | |- _ /\ _ => split
                        end; first [eassumption | reflexivity]]
        | table_contradiction ].

Section Shapes.

Variable P : Primitives.
Variable cfg : Config.t.

Lemma check_claims_replies (now : Z) (db : Db.t) (decoded : Claims.t)
    (r : Response.t) :
  check_claims P now db decoded = Ok (Gate.Reply r) ->
  In r (tl (tl gate_replies)).
Proof.
  unfold check_claims, gate_replies. cbn [tl In].
  repeat match goal with
         | |- context [if ?c then _ else _] => destruct c
         | |- context [match ?c with Some _ => _ | None => _ end] => destruct c
         end;
    intros H; try discriminate; injection H as <-; tauto.
Qed.

Lemma gate_try_replies (now : Z) (db : Db.t) (req : Request.t)
    (r : Response.t) :
  gate_try P cfg now db req = Ok (Gate.Reply r) -> In r (tl gate_replies).
Proof.
  unfold gate_try.
  destruct (open_token P cfg now req) as [[decoded|]|e]; cbn [Exn.bind].
  - intros H. right. apply (check_claims_replies now db decoded), H.
  - intros H. injection H as <-. left. reflexivity.
  - discriminate.
Qed.

(** The answers of a login handler. *)
Lemma login_replies (f : Flavour.t) (now : Z) (sid iv : list byte) (db : Db.t)
    (req : Request.t) :
  let r := Outcome.response (login P cfg f now sid iv db req) in
  Response.status r = 200
  \/ r = Response.failure 400 "Email and password are required"
  \/ r = Response.failure 401 "Invalid credentials"
  \/ (exists doc until,
         Account.lockUntil doc = Some until /\ now < until
         /\ r = Response.failure 423
                  ("Account locked. Try again in "
                   ++ Js.show_int (Js.ceil_div (until - now) 60000)
                   ++ " minutes."))
  \/ (exists n,
         r = Response.make 401 (wrong_password_body "Invalid credentials" n)
               Response.NoCookie)
  \/ (exists n,
         r = Response.make 401
               (wrong_password_body
                  "Too many failed login attempts. Account locked for 30 minutes."
                  n)
               Response.NoCookie)
  \/ (exists e, r = Response.server_error e).
Proof.
  unfold login.
  destruct (negb (Text.truthy (Request.email req))
            || negb (Text.truthy (Request.password req))); [tauto|].
  destruct (Db.findOne _ _) as [doc|]; [|tauto].
  destruct (locked doc now) eqn:Hlocked.
  { right. right. right. left. unfold locked in Hlocked.
    unfold locked_message.
    destruct (Account.lockUntil doc) as [until|] eqn:Hu; [|discriminate].
    exists doc, until. apply Z.ltb_lt in Hlocked. cbn. auto. }
  destruct (lock_expired doc now); cbv beta iota zeta;
    (destruct (bcrypt_compare P _ _); cbn [negb];
     [ destruct (generateEncryptedToken P cfg _ now iv); cbn; eauto 10
     | match goal with
       | |- context [locked ?d now] => destruct (locked d now)
       end; cbn; unfold wrong_password_body; eauto 10 ]).
Qed.

(** The checks on verified claims, one by one: which answer stands for
    which check. *)
Lemma check_claims_table (now : Z) (db : Db.t) (decoded : Claims.t) :
  let answer :=
    match check_claims P now db decoded with
    | Ok r => r
    | Throw _ => Gate.Reply (Response.failure 401 "Authentication failed")
    end in
  let reply code message := Gate.Reply (Response.failure code message) in
  let sound :=
    malformed decoded = false /\ exceeded_max_lifetime decoded now = false in
  let resolved id :=
    sound /\ Claims.role decoded = Js.Str "SUPERADMIN"
    /\ castObjectId P (claimed_id decoded) = Some id in
  (answer = reply 401 "Malformed token payload" <-> malformed decoded = true)
  /\ (answer = reply 401 "Token exceeded max lifetime"
      <-> malformed decoded = false
          /\ exceeded_max_lifetime decoded now = true)
  /\ (answer = reply 401 "Invalid role"
      <-> sound /\ Claims.role decoded <> Js.Str "SUPERADMIN")
  /\ (answer = reply 401 "Authentication failed"
      <-> sound /\ Claims.role decoded = Js.Str "SUPERADMIN"
          /\ castObjectId P (claimed_id decoded) = None)
  /\ (answer = reply 404 "User not found"
      <-> exists id,
            resolved id /\ Db.findById (Db.superAdmins db) id = None)
  /\ (answer = reply 401 "Session mismatch detected"
      <-> exists id user,
            resolved id
            /\ Db.findById (Db.superAdmins db) id = Some user
            /\ Claims.sessionId decoded <> Account.sessionId user)
  /\ (answer = reply 403 "Account is disabled"
      <-> exists id user,
            resolved id
            /\ Db.findById (Db.superAdmins db) id = Some user
            /\ Claims.sessionId decoded = Account.sessionId user
            /\ Account.isActive user = false)
  /\ ((exists u, answer = Gate.Next u)
      <-> exists id user,
            resolved id
            /\ Db.findById (Db.superAdmins db) id = Some user
            /\ Claims.sessionId decoded = Account.sessionId user
            /\ Account.isActive user = true).
Proof.
  intros answer reply sound resolved.
  subst answer reply sound resolved. cbv beta. unfold check_claims.
  destruct (malformed decoded) eqn:Hm; [table_case|].
  destruct (exceeded_max_lifetime decoded now) eqn:Hl; [table_case|].
  destruct (Js.strict_eq (Claims.role decoded) (Js.Str "SUPERADMIN")) eqn:Hr;
    cbn [negb]; [apply strict_eq_eq in Hr | apply strict_eq_neq in Hr];
    [|table_case].
  destruct (castObjectId P (claimed_id decoded)) as [id|] eqn:Hc;
    [|table_case].
  destruct (Db.findById (Db.superAdmins db) id) as [user|] eqn:Hf;
    [|table_case].
  destruct (Js.strict_eq (Claims.sessionId decoded) (Account.sessionId user))
    eqn:Hs; cbn [negb];
    [apply strict_eq_eq in Hs | apply strict_eq_neq in Hs]; [|table_case].
  destruct (Account.isActive user) eqn:Ha; cbn [negb]; table_case.
Qed.

End Shapes.

(** C8, as the code has it.  Only what is thrown inside the middleware (while
    the envelope is parsed and opened, the token verified, the id cast)
    is answered with the generic 401 "Authentication failed".  Each check
    of the middleware answers with a status and message of its own, and
    with those only when it is the check that fails: eight bodies in
    all and no two alike.  The login handlers answer 400, 401, 423 or
    500 with their own messages. *)
Theorem error_shapes (P : Primitives) (cfg : Config.t) (now : Z) (db : Db.t)
    (req : Request.t) :
  let answer := encryptedAuthMiddleware P cfg now db req in
  let reply code message := Gate.Reply (Response.failure code message) in
  (forall r, answer = Gate.Reply r -> In r gate_replies)
  /\ (answer = reply 401 "Authentication failed"
      <-> exists e, gate_try P cfg now db req = Throw e)
  /\ (forall e,
         open_token P cfg now req = Throw e ->
         answer = reply 401 "Authentication failed")
  /\ (answer = reply 401 "Unauthorized: Missing encrypted token"
      <-> open_token P cfg now req = Ok None)
  /\ (forall decoded,
         open_token P cfg now req = Ok (Some decoded) ->
         let sound :=
           malformed decoded = false
           /\ exceeded_max_lifetime decoded now = false in
         let resolved id :=
           sound /\ Claims.role decoded = Js.Str "SUPERADMIN"
           /\ castObjectId P (claimed_id decoded) = Some id in
         (answer = reply 401 "Malformed token payload"
          <-> malformed decoded = true)
         /\ (answer = reply 401 "Token exceeded max lifetime"
             <-> malformed decoded = false
                 /\ exceeded_max_lifetime decoded now = true)
         /\ (answer = reply 401 "Invalid role"
             <-> sound /\ Claims.role decoded <> Js.Str "SUPERADMIN")
         /\ (answer = reply 401 "Authentication failed"
             <-> sound /\ Claims.role decoded = Js.Str "SUPERADMIN"
                 /\ castObjectId P (claimed_id decoded) = None)
         /\ (answer = reply 404 "User not found"
             <-> exists id,
                   resolved id /\ Db.findById (Db.superAdmins db) id = None)
         /\ (answer = reply 401 "Session mismatch detected"
             <-> exists id user,
                   resolved id
                   /\ Db.findById (Db.superAdmins db) id = Some user
                   /\ Claims.sessionId decoded <> Account.sessionId user)
         /\ (answer = reply 403 "Account is disabled"
             <-> exists id user,
                   resolved id
                   /\ Db.findById (Db.superAdmins db) id = Some user
                   /\ Claims.sessionId decoded = Account.sessionId user
                   /\ Account.isActive user = false)
         /\ ((exists u, answer = Gate.Next u)
             <-> exists id user,
                   resolved id
                   /\ Db.findById (Db.superAdmins db) id = Some user
                   /\ Claims.sessionId decoded = Account.sessionId user
                   /\ Account.isActive user = true))
  /\ NoDup (map Response.body gate_replies)
  /\ (forall f sid iv,
         let r := Outcome.response (login P cfg f now sid iv db req) in
         Response.status r = 200
         \/ r = Response.failure 400 "Email and password are required"
         \/ r = Response.failure 401 "Invalid credentials"
         \/ (exists doc until,
                Account.lockUntil doc = Some until /\ now < until
                /\ r = Response.failure 423
                         ("Account locked. Try again in "
                          ++ Js.show_int (Js.ceil_div (until - now) 60000)
                          ++ " minutes."))
         \/ (exists n,
                r = Response.make 401
                      (wrong_password_body "Invalid credentials" n)
                      Response.NoCookie)
         \/ (exists n,
                r = Response.make 401
                      (wrong_password_body
                         "Too many failed login attempts. Account locked for 30 minutes."
                         n)
                      Response.NoCookie)
         \/ (exists e, r = Response.server_error e)).
Proof.
  intros answer reply. subst answer reply. cbv beta.
  split; [|split; [|split; [|split; [|split; [|split]]]]].
  - intros r. unfold encryptedAuthMiddleware.
    destruct (gate_try P cfg now db req) as [[u|r']|e] eqn:Hg;
      intros H; try discriminate; injection H as <-.
    + right. apply (gate_try_replies P cfg now db req), Hg.
    + left. reflexivity.
  - unfold encryptedAuthMiddleware.
    destruct (gate_try P cfg now db req) as [[u|r']|e] eqn:Hg; split;
      try discriminate; try (intros [e' He']; discriminate); eauto.
    intros H. injection H as ->.
    apply (gate_try_replies P cfg now db req) in Hg.
    cbn in Hg. repeat destruct Hg as [Hg|Hg]; try discriminate; contradiction.
  - intros e He. unfold encryptedAuthMiddleware, gate_try. rewrite He.
    reflexivity.
  - unfold encryptedAuthMiddleware, gate_try.
    destruct (open_token P cfg now req) as [[decoded|]|e]; cbn [Exn.bind];
      split; try discriminate; try reflexivity.
    destruct (check_claims P now db decoded) as [[u|r']|e] eqn:Hc;
      intros H; try discriminate. injection H as ->.
    apply check_claims_replies in Hc. cbn in Hc.
    repeat destruct Hc as [Hc|Hc]; try discriminate; contradiction.
  - intros decoded Hopen sound resolved. subst sound resolved. cbv beta.
    rewrite (gate_after_open P cfg now db req decoded Hopen).
    apply check_claims_table.
  - cbn. repeat constructor; cbn; intuition discriminate.
  - intros f sid iv. apply login_replies.
Qed.

(** The token of the first sample login, after the second login: it is
    the session check that answers. *)
Lemma error_shapes_witness :
  encryptedAuthMiddleware Reference.prims Sample.cfg (2 * Sample.minute)
    (Outcome.db Sample.second_login)
    (Request.with_cookie (Sample.token_of Sample.first_login))
  = Gate.Reply (Response.failure 401 "Session mismatch detected").
Proof.
  destruct (error_shapes Reference.prims Sample.cfg (2 * Sample.minute)
              (Outcome.db Sample.second_login)
              (Request.with_cookie (Sample.token_of Sample.first_login)))
    as (_ & _ & _ & _ & Htable & _).
  destruct (Htable
              (Claims.make (Js.Str "SUPERADMIN")
                 (Some (UserClaim.make (Js.Str "a1") (Js.Str "root@oloha.io")))
                 (Js.Str "01") (Some 0) (Some 86400))
              ltac:(vm_compute; reflexivity))
    as (_ & _ & _ & _ & _ & [_ Hmismatch] & _).
  apply Hmismatch.
  exists "a1",
    (Account.set_login Sample.root (1 * Sample.minute) (Js.Str "02")).
  split; [split; [split; reflexivity | split; reflexivity]|].
  split; [vm_compute; reflexivity|].
  intros E. vm_compute in E. discriminate E.
Defined.

(** C8, as the claim states it, fails: a request without a token and a
    request with a superseded token are answered with two different
    bodies, neither of them the generic one. *)
Lemma gate_bodies_reveal_step :
  let missing :=
    encryptedAuthMiddleware Reference.prims Sample.cfg 0 Sample.db
      Request.anonymous in
  let superseded :=
    encryptedAuthMiddleware Reference.prims Sample.cfg (2 * Sample.minute)
      (Outcome.db Sample.second_login)
      (Request.with_cookie (Sample.token_of Sample.first_login)) in
  missing
  = Gate.Reply (Response.failure 401 "Unauthorized: Missing encrypted token")
  /\ superseded
     = Gate.Reply (Response.failure 401 "Session mismatch detected")
  /\ missing <> superseded
  /\ missing <> Gate.Reply (Response.failure 401 "Authentication failed")
  /\ superseded <> Gate.Reply (Response.failure 401 "Authentication failed").
Proof. vm_compute. repeat split; discriminate. Qed.

(** The lifetime check is the only one that answers "Token exceeded max
    lifetime". *)
Lemma lifetime_reply_iff (P : Primitives) (now : Z) (db : Db.t)
    (decoded : Claims.t) :
  malformed decoded = false ->
  (check_claims P now db decoded
   = Ok (Gate.Reply (Response.failure 401 "Token exceeded max lifetime"))
   <-> exceeded_max_lifetime decoded now = true).
Proof.
  intros Hm. unfold check_claims. rewrite Hm.
  destruct (exceeded_max_lifetime decoded now); split; try reflexivity;
    try discriminate.
  repeat match goal with
         | |- context [if ?c then _ else _] => destruct c
         | |- context [match ?c with Some _ => _ | None => _ end] =>
             destruct c
         end; discriminate.
Qed.

(** C9, as the code has it.  On non-malformed verified claims the
    middleware answers 401 "Token exceeded max lifetime" exactly when
    [now - iat > 24h].  For a token signed by this server at [t0] the
    check is not redundant with the expiry of [jwt.verify]: verification
    with its 30 seconds of tolerance accepts while
    [floor(now/1000) < iat + 24h + 30s], the lifetime check while
    [now <= iat + 24h].  So the lifetime check accepts nothing that
    verification refuses, it accepts every token that is unexpired
    without the tolerance, and it is the lifetime check that refuses a
    token between 24h and 24h 30s old. *)
Theorem max_lifetime_vs_expiry (P : Primitives) (cfg : Config.t)
    (verified payload : Claims.t) (t0 now : Z) (db : Db.t) :
  Contract.jws_roundtrip P ->
  Claims.iat payload = None -> Claims.exp payload = None ->
  let day := 24 * 60 * 60 in
  let iat := t0 / 1000 in
  let decoded := Claims.with_times payload iat (iat + day) in
  let token := jws_encode P (Config.JWT_SECRET cfg) decoded in
  (malformed verified = false ->
   (check_claims P now db verified
    = Ok (Gate.Reply (Response.failure 401 "Token exceeded max lifetime"))
    <-> exists issuedAt,
          Claims.iat verified = Some issuedAt
          /\ now - issuedAt * 1000 > day * 1000))
  /\ jwt_sign P cfg payload t0 = Ok token
  /\ (jwt_verify P cfg token 30 now = Ok decoded <-> now / 1000 < iat + day + 30)
  /\ (exceeded_max_lifetime decoded now = true <-> now - iat * 1000 > day * 1000)
  /\ (exceeded_max_lifetime decoded now = false ->
      jwt_verify P cfg token 30 now = Ok decoded)
  /\ (now / 1000 < iat + day -> exceeded_max_lifetime decoded now = false).
Proof.
  intros Hrt Hi He day iat decoded token.
  assert (Hv : jwt_verify P cfg token 30 now
               = if now / 1000 >=? iat + day + 30
                 then Throw TokenExpiredError else Ok decoded).
  { subst token. apply jwt_verify_issued; [exact Hrt | reflexivity]. }
  assert (Hx : exceeded_max_lifetime decoded now
               = (iat * 1000 <? now - day * 1000)) by reflexivity.
  split; [|split; [apply jwt_sign_fresh; assumption|]].
  - intros Hm. rewrite (lifetime_reply_iff P now db verified Hm).
    unfold exceeded_max_lifetime.
    destruct (Claims.iat verified) as [i|]; split.
    + intros H. apply Z.ltb_lt in H. exists i. split; [reflexivity | lia].
    + intros (i' & Hi' & Hgt). injection Hi' as <-. apply Z.ltb_lt. lia.
    + discriminate.
    + intros (i' & Hi' & _). discriminate.
  - split; [|split; [|split]].
    + rewrite Hv. destruct (Z.geb_spec (now / 1000) (iat + day + 30)); split;
        try discriminate; try reflexivity; lia.
    + rewrite Hx, Z.ltb_lt. lia.
    + rewrite Hx, Hv. intros H. apply Z.ltb_ge in H.
      destruct (Z.geb_spec (now / 1000) (iat + day + 30)); [|reflexivity].
      subst day. Z.div_mod_to_equations. lia.
    + rewrite Hx. intros H. apply Z.ltb_ge.
      subst day. Z.div_mod_to_equations. lia.
Qed.

(** A token signed at time 0, looked at 24 hours minus one second
    later. *)
Lemma max_lifetime_vs_expiry_witness :
  let payload :=
    Claims.make (Js.Str "SUPERADMIN")
      (Some (UserClaim.make (Js.Str "a1") (Js.Str "root@oloha.io")))
      (Js.Str "01") None None in
  let decoded := Claims.with_times payload 0 86400 in
  exceeded_max_lifetime decoded 86399000 = false
  /\ jwt_verify Reference.prims Sample.cfg
       (jws_encode Reference.prims "signing-secret" decoded) 30 86399000
     = Ok decoded.
Proof.
  intros payload decoded.
  destruct (max_lifetime_vs_expiry Reference.prims Sample.cfg payload payload
              0 86399000 Sample.db ref_jws_roundtrip eq_refl eq_refl)
    as (_ & _ & _ & _ & Hv & Hx).
  split; [apply Hx; reflexivity | apply Hv, Hx; reflexivity].
Defined.

(** C9, as the claim states it, fails: ten seconds past the 24 hours, a
    token signed by this server still passes [jwt.verify] with its
    tolerance, and the lifetime check refuses it. *)
Lemma lifetime_check_not_redundant :
  let payload :=
    Claims.make (Js.Str "SUPERADMIN")
      (Some (UserClaim.make (Js.Str "a1") (Js.Str "root@oloha.io")))
      (Js.Str "01") None None in
  let now := (24 * 60 * 60 + 10) * 1000 in
  exists decoded,
    (token <- jwt_sign Reference.prims Sample.cfg payload 0 ;;
     jwt_verify Reference.prims Sample.cfg token 30 now) = Ok decoded
    /\ exceeded_max_lifetime decoded now = true
    /\ check_claims Reference.prims now Sample.db decoded
       = Ok (Gate.Reply (Response.failure 401 "Token exceeded max lifetime")).
Proof. eexists. vm_compute. repeat split. Qed.

(* ================================================================== *)
(** * The token helper *)
(* ================================================================== *)

Section TokenHelperFacts.

Lemma toString_hex_length (bs : list byte) :
  String.length (Buf.toString_hex bs) = (2 * List.length bs)%nat.
Proof.
  induction bs as [|b rest IH]; [reflexivity|].
  cbn [Buf.toString_hex String.length List.length]. rewrite IH. lia.
Qed.

Lemma toString_hex_lower (bs : list byte) :
  string_forall is_lower_hex (Buf.toString_hex bs) = true.
Proof.
  induction bs as [|b rest IH]; [reflexivity|].
  cbn [Buf.toString_hex string_forall]. rewrite IH.
  destruct b; reflexivity.
Qed.

End TokenHelperFacts.

(** X1.  The tokens of the helper are lower-case hexadecimal text, two
    characters for each random byte: 64 characters for the 32 bytes of
    [generateSecureToken], 32 for the 16 bytes of [generateShortToken];
    and the text determines the bytes. *)
Theorem hex_tokens_format (random : list byte) :
  String.length (generateSecureToken random) = (2 * List.length random)%nat
  /\ string_forall is_lower_hex (generateSecureToken random) = true
  /\ String.length (generateShortToken random) = (2 * List.length random)%nat
  /\ string_forall is_lower_hex (generateShortToken random) = true
  /\ Buf.from_hex (generateSecureToken random) = random
  /\ Buf.from_hex (generateShortToken random) = random.
Proof.
  unfold generateSecureToken, generateShortToken.
  rewrite toString_hex_length, toString_hex_lower, from_hex_toString_hex.
  repeat split.
Qed.

(** X2.  A time-bound token made at [t0] verifies at [now] exactly when
    [now] is not later than [t0] plus its minutes of life, thirty when
    none are given; the last millisecond is included.  Its text is two
    hexadecimal characters for each random byte. *)
Theorem time_bound_token_window (ttlMinutes : option Z) (t0 now : Z)
    (random : list byte) :
  let issued := generateTimeBoundToken ttlMinutes t0 random in
  let minutes := match ttlMinutes with Some m => m | None => 30 end in
  (verifyTimeBoundToken (TimeBound.expiresAt issued) now = true
   <-> now <= t0 + minutes * 60000)
  /\ String.length (TimeBound.token issued) = (2 * List.length random)%nat.
Proof.
  intros issued minutes. subst issued minutes.
  unfold generateTimeBoundToken, verifyTimeBoundToken.
  cbn [TimeBound.expiresAt TimeBound.token]. split.
  - rewrite Z.leb_le. destruct ttlMinutes; lia.
  - apply toString_hex_length.
Qed.

(* ================================================================== *)
(** * The matcher and what an expression matches *)
(* ================================================================== *)

Section RegexFacts.

Import Regex.

Lemma rep_spec (cl : cclass) (s : list Z) :
  forall (min : nat) (max : option nat) (k : cont) (i : nat),
    rep cl min max k i s = true
    <-> exists pre rest,
          s = (pre ++ rest)%list
          /\ matches (Rep cl min max) i pre rest
          /\ k (i + List.length pre)%nat rest = true.
Proof.
  induction s as [|c s IH]; intros min max k i.
  - cbn [rep orb]. split.
    + destruct min; [|discriminate]. intros Hk. exists [], [].
      cbn [matches List.length app]. rewrite Nat.add_0_r.
      repeat split; auto. destruct max; [apply Nat.le_0_l | exact I].
    + intros (pre & rest & Hs & (_ & Hmin & _) & Hk).
      symmetry in Hs. apply app_eq_nil in Hs. destruct Hs as [-> ->].
      cbn [List.length] in *. rewrite Nat.add_0_r in Hk.
      destruct min; [exact Hk | lia].
  - cbn [rep]. rewrite orb_true_iff, andb_true_iff. split.
    + intros [[Hc Hrec] | Hstop].
      * assert (Hnext :
          exists max',
            rep cl (Nat.pred min) max' k (S i) s = true
            /\ match max, max' with
               | Some m, Some m' => m = S m'
               | None, None => True
               | _, _ => False
               end).
        { destruct max as [[|m]|]; [discriminate | |];
            eexists; (split; [exact Hrec|]); cbn; auto. }
        destruct Hnext as (max' & Hrec' & Hmax).
        apply IH in Hrec'.
        destruct Hrec' as (pre & rest & Hs & (Hall & Hmin & Hm) & Hk).
        exists (c :: pre), rest. cbn [matches List.length app].
        rewrite Nat.add_succ_r. subst s.
        repeat split; auto.
        -- lia.
        -- destruct max as [m|], max' as [m'|]; try contradiction; auto.
           subst m. lia.
      * destruct min; [|discriminate]. exists [], (c :: s).
        cbn [matches List.length app]. rewrite Nat.add_0_r.
        repeat split; auto. destruct max; [apply Nat.le_0_l | exact I].
    + intros (pre & rest & Hs & (Hall & Hmin & Hm) & Hk).
      destruct pre as [|c' pre].
      * right. cbn [List.length] in *. rewrite Nat.add_0_r in Hk.
        cbn [app] in Hs. subst rest.
        destruct min; [exact Hk | lia].
      * left. cbn [app] in Hs. injection Hs as <- Hs.
        inversion Hall as [|? ? Hc Hall']; subst.
        split; [exact Hc|].
        cbn [List.length] in *. rewrite Nat.add_succ_r in Hk.
        destruct max as [[|m]|].
        -- lia.
        -- apply IH. exists pre, rest. cbn [matches].
           repeat split; auto; lia.
        -- apply IH. exists pre, rest. cbn [matches].
           repeat split; auto; lia.
Qed.

(** The matcher finds exactly the matches of the expression. *)
Lemma run_spec (r : Regex.t) :
  forall (k : cont) (i : nat) (s : list Z),
    run r k i s = true
    <-> exists pre rest,
          s = (pre ++ rest)%list
          /\ matches r i pre rest
          /\ k (i + List.length pre)%nat rest = true.
Proof.
  induction r as [| |cl min max|a IHa|a IHa b IHb]; intros k i s.
  - cbn [run]. rewrite andb_true_iff, Nat.eqb_eq. split.
    + intros [-> Hk]. exists [], s. cbn. auto.
    + intros (pre & rest & -> & (-> & ->) & Hk). cbn in Hk. auto.
  - cbn [run]. split.
    + destruct s; [|discriminate]. intros Hk. exists [], [].
      cbn. rewrite Nat.add_0_r. auto.
    + intros (pre & rest & -> & (-> & ->) & Hk). cbn in *.
      rewrite Nat.add_0_r in Hk. exact Hk.
  - cbn [run]. apply rep_spec.
  - cbn [run]. rewrite andb_true_iff, IHa. split.
    + intros [(p & q & Hs & Hm & _) Hk]. exists [], s.
      cbn [app List.length matches]. rewrite Nat.add_0_r.
      repeat split; auto. exists p, q. auto.
    + intros (pre & rest & Hs & (-> & p & q & Hr & Hm) & Hk).
      cbn [app List.length] in *. rewrite Nat.add_0_r in Hk. subst s.
      split; [|exact Hk]. exists p, q. auto.
  - cbn [run]. rewrite IHa. split.
    + intros (p & r1 & Hs & Hma & Hb). apply IHb in Hb.
      destruct Hb as (q & rest & Hr1 & Hmb & Hk). subst r1.
      exists (p ++ q)%list, rest. rewrite <- app_assoc.
      split; [exact Hs|]. split.
      * exists p, q. auto.
      * rewrite List.length_app, Nat.add_assoc. exact Hk.
    + intros (pre & rest & Hs & (p & q & -> & Hma & Hmb) & Hk).
      exists p, (q ++ rest)%list. rewrite <- app_assoc in Hs.
      split; [exact Hs|]. split; [exact Hma|].
      apply IHb. exists q, rest.
      rewrite List.length_app, Nat.add_assoc in Hk. auto.
Qed.

Lemma search_spec (r : Regex.t) (s : list Z) :
  forall i,
    search r i s = true
    <-> exists skipped s',
          s = (skipped ++ s')%list
          /\ run r (fun _ _ => true) (i + List.length skipped)%nat s' = true.
Proof.
  induction s as [|c s IH]; intros i.
  - cbn [search]. rewrite orb_false_r. split.
    + intros H. exists [], []. cbn. rewrite Nat.add_0_r. auto.
    + intros (skipped & s' & Hs & H). symmetry in Hs.
      apply app_eq_nil in Hs. destruct Hs as [-> ->].
      cbn in H. rewrite Nat.add_0_r in H. exact H.
  - cbn [search]. rewrite orb_true_iff, IH. split.
    + intros [H | (skipped & s' & -> & H)].
      * exists [], (c :: s). cbn. rewrite Nat.add_0_r. auto.
      * exists (c :: skipped), s'. cbn [app List.length].
        rewrite Nat.add_succ_r. auto.
    + intros (skipped & s' & Hs & H). destruct skipped as [|c' skipped].
      * left. cbn in *. rewrite Nat.add_0_r in H. subst s'. exact H.
      * right. cbn [app List.length] in *. injection Hs as <- ->.
        rewrite Nat.add_succ_r in H. exists skipped, s'. auto.
Qed.

(** An expression that begins with [^] is matched against the whole
    input from its first character. *)
Lemma test_anchored (r : Regex.t) (s : list Z) :
  test (Seq Bol r) s = true
  <-> exists pre rest, s = (pre ++ rest)%list /\ matches r 0 pre rest.
Proof.
  unfold test. rewrite search_spec. split.
  - intros (skipped & s' & -> & H). cbn [run] in H.
    apply andb_true_iff in H. destruct H as [H0 H].
    apply Nat.eqb_eq in H0. destruct skipped; [|discriminate].
    apply run_spec in H. destruct H as (pre & rest & -> & Hm & _).
    exists pre, rest. auto.
  - intros (pre & rest & -> & Hm). exists [], (pre ++ rest)%list.
    split; [reflexivity|]. cbn [run List.length Nat.add Nat.eqb andb].
    apply run_spec. exists pre, rest. auto.
Qed.

(** A look-ahead in front of [b] consumes nothing. *)
Lemma matches_lookahead_seq (a b : Regex.t) (i : nat) (pre rest : list Z) :
  matches (Seq (LookAhead a) b) i pre rest
  <-> (exists p q, (pre ++ rest)%list = (p ++ q)%list /\ matches a i p q)
      /\ matches b i pre rest.
Proof.
  cbn [matches]. split.
  - intros (p & q & -> & (-> & p' & q' & Hr & Ha) & Hb).
    cbn [app List.length] in *. rewrite Nat.add_0_r in Hb.
    split; [exists p', q'; auto | exact Hb].
  - intros [(p' & q' & Hr & Ha) Hb]. exists [], pre.
    cbn [app List.length]. rewrite Nat.add_0_r.
    repeat split; auto. exists p', q'. auto.
Qed.

(** [.*cl] in front of a text: some character of the text is in [cl]
    and no line terminator comes before it. *)
Lemma matches_somewhere (cl : cclass) (i : nat) (s : list Z) :
  (exists p q, s = (p ++ q)%list /\ matches (Seq (star Any) (one cl)) i p q)
  <-> exists p c q,
        s = (p ++ c :: q)%list
        /\ Forall (fun x => is_line_terminator x = false) p
        /\ class_matches cl c = true.
Proof.
  cbn [matches star one]. split.
  - intros (p & q & -> & p1 & p2 & -> & (Hany & _) & Hone & Hmin & Hmax).
    destruct p2 as [|c [|c' p2]]; cbn [List.length] in *; try lia.
    inversion Hone as [|? ? Hc _]; subst.
    exists p1, c, q. rewrite <- app_assoc. repeat split; auto.
    eapply Forall_impl; [|exact Hany].
    intros x Hx. cbn [class_matches] in Hx.
    apply negb_true_iff in Hx. exact Hx.
  - intros (p & c & q & -> & Hany & Hc).
    exists (p ++ [c])%list, q. rewrite <- app_assoc.
    split; [reflexivity|]. exists p, [c]. cbn [List.length].
    repeat split; auto; try lia.
    eapply Forall_impl; [|exact Hany].
    intros x Hx. cbn [class_matches]. rewrite Hx. reflexivity.
Qed.

(** [cl{min,max}$] *)
Lemma matches_rep_eol (cl : cclass) (min : nat) (max : option nat) (i : nat)
    (pre rest : list Z) :
  matches (Seq (Rep cl min max) Eol) i pre rest
  <-> rest = [] /\ matches (Rep cl min max) i pre [].
Proof.
  cbn [matches]. split.
  - intros (p & q & -> & Hrep & -> & ->). rewrite app_nil_r. auto.
  - intros (-> & Hrep). exists pre, []. rewrite app_nil_r. auto.
Qed.

Lemma Exists_split {A : Type} (P : A -> Prop) (l : list A) :
  Exists P l <-> exists p c q, l = (p ++ c :: q)%list /\ P c.
Proof.
  rewrite Exists_exists. split.
  - intros (c & Hin & Hc). apply in_split in Hin.
    destruct Hin as (p & q & ->). exists p, c, q. auto.
  - intros (p & c & q & -> & Hc). exists c. split; [|exact Hc].
    apply in_or_app. right. left. reflexivity.
Qed.

Lemma of_string_length (s : string) :
  List.length (Utf8.of_string s) = String.length s.
Proof.
  induction s as [|c s IH]; [reflexivity|].
  cbn [Utf8.of_string List.length String.length]. rewrite IH. reflexivity.
Qed.

End RegexFacts.

(* ================================================================== *)
(** * Passwords and the form validators *)
(* ================================================================== *)

Section PasswordFacts.

Import Regex PasswordHelper.

Ltac eval_chr :=
  repeat match goal with
         | |- context [chr ?a] =>
             let v := eval vm_compute in (chr a) in change (chr a) with v
         | H : context [chr ?a] |- _ =>
             let v := eval vm_compute in (chr a) in change (chr a) with v in H
         end.

Ltac to_arith :=
  repeat first
    [ rewrite andb_true_iff | rewrite orb_true_iff | rewrite negb_true_iff
    | rewrite andb_false_iff | rewrite orb_false_iff | rewrite negb_false_iff
    | rewrite Z.leb_le | rewrite Z.eqb_eq | rewrite Z.leb_gt
    | rewrite Z.eqb_neq ].

Ltac to_arith_in H :=
  repeat first
    [ rewrite andb_true_iff in H | rewrite orb_true_iff in H
    | rewrite negb_true_iff in H | rewrite andb_false_iff in H
    | rewrite orb_false_iff in H | rewrite negb_false_iff in H
    | rewrite Z.leb_le in H | rewrite Z.eqb_eq in H | rewrite Z.leb_gt in H
    | rewrite Z.eqb_neq in H ].

Lemma class_lower (c : Z) :
  class_matches (OneOf [Range "a" "z"]) c = is_lower c.
Proof.
  unfold class_matches, existsb, item_matches, is_lower. eval_chr.
  apply orb_false_r.
Qed.

Lemma class_upper (c : Z) :
  class_matches (OneOf [Range "A" "Z"]) c = is_upper c.
Proof.
  unfold class_matches, existsb, item_matches, is_upper. eval_chr.
  apply orb_false_r.
Qed.

Lemma class_digit (c : Z) : class_matches (OneOf [Digit]) c = is_digit c.
Proof.
  unfold class_matches, existsb, item_matches, is_digit. eval_chr.
  apply orb_false_r.
Qed.

Lemma class_special (c : Z) :
  class_matches (OneOf specials) c = is_special c.
Proof.
  unfold class_matches, specials, existsb, item_matches, is_special. eval_chr.
  reflexivity.
Qed.

Lemma class_allowed (c : Z) :
  class_matches
    (OneOf (Range "A" "Z" :: Range "a" "z" :: Digit :: specials)) c = true
  <-> is_allowed c = true.
Proof.
  unfold class_matches, specials, existsb, item_matches, is_allowed, is_lower,
    is_upper, is_digit, is_special, existsb.
  eval_chr. to_arith. lia.
Qed.

Lemma allowed_not_terminator (c : Z) :
  is_allowed c = true -> is_line_terminator c = false.
Proof.
  unfold is_allowed, is_lower, is_upper, is_digit, is_special, existsb,
    is_line_terminator.
  to_arith. lia.
Qed.

(** A character of the kind [cl] somewhere in a text of allowed
    characters is what the look-ahead [(?=.*cl)] asks for. *)
Lemma lookahead_allowed (cl : cclass) (kind : Z -> bool) (i : nat)
    (s : list Z) :
  (forall c, class_matches cl c = kind c) ->
  Forall (fun c => is_allowed c = true) s ->
  ((exists p q, s = (p ++ q)%list /\ matches (Seq (star Any) (one cl)) i p q)
   <-> Exists (fun c => kind c = true) s).
Proof.
  intros Hcl Hall. rewrite matches_somewhere, Exists_split. split.
  - intros (p & c & q & -> & _ & Hc). exists p, c, q.
    rewrite <- Hcl. auto.
  - intros (p & c & q & -> & Hc). exists p, c, q.
    rewrite Hcl. repeat split; auto.
    apply Forall_app in Hall. destruct Hall as [Hp _].
    eapply Forall_impl; [|exact Hp]. apply allowed_not_terminator.
Qed.

(** What [passwordRegex] accepts. *)
Lemma passwordRegex_strong (s : Utf8.ustring) :
  Regex.test passwordRegex s = true <-> strong s.
Proof.
  unfold passwordRegex, strong. rewrite test_anchored. split.
  - intros (pre & rest & -> & Hm).
    apply matches_lookahead_seq in Hm. destruct Hm as [H1 Hm].
    apply matches_lookahead_seq in Hm. destruct Hm as [H2 Hm].
    apply matches_lookahead_seq in Hm. destruct Hm as [H3 Hm].
    apply matches_lookahead_seq in Hm. destruct Hm as [H4 Hm].
    apply matches_rep_eol in Hm. destruct Hm as (-> & Hall & Hmin & _).
    rewrite app_nil_r in *.
    assert (Hall' : Forall (fun c => is_allowed c = true) pre).
    { eapply Forall_impl; [|exact Hall]. intros c. apply class_allowed. }
    split; [exact Hmin|]. split; [exact Hall'|].
    rewrite (lookahead_allowed _ is_lower) in H1
      by (try apply class_lower; assumption).
    rewrite (lookahead_allowed _ is_upper) in H2
      by (try apply class_upper; assumption).
    rewrite (lookahead_allowed _ is_digit) in H3
      by (try apply class_digit; assumption).
    rewrite (lookahead_allowed _ is_special) in H4
      by (try apply class_special; assumption).
    auto.
  - intros (Hmin & Hall & H1 & H2 & H3 & H4).
    exists s, []. rewrite app_nil_r. split; [reflexivity|].
    apply matches_lookahead_seq. rewrite app_nil_r. split.
    { apply (lookahead_allowed _ is_lower); auto using class_lower. }
    apply matches_lookahead_seq. rewrite app_nil_r. split.
    { apply (lookahead_allowed _ is_upper); auto using class_upper. }
    apply matches_lookahead_seq. rewrite app_nil_r. split.
    { apply (lookahead_allowed _ is_digit); auto using class_digit. }
    apply matches_lookahead_seq. rewrite app_nil_r. split.
    { apply (lookahead_allowed _ is_special); auto using class_special. }
    apply matches_rep_eol. split; [reflexivity|]. cbn [matches].
    repeat split; auto.
    eapply Forall_impl; [|exact Hall]. intros c. apply class_allowed.
Qed.

End PasswordFacts.

Section ValidationFacts.

Import Regex PasswordHelper Validation.

Ltac eval_chr :=
  repeat match goal with
         | |- context [chr ?a] =>
             let v := eval vm_compute in (chr a) in change (chr a) with v
         end.

Lemma matches_lit (a : ascii) (i : nat) (pre rest : list Z) :
  matches (lit a) i pre rest <-> pre = [chr a].
Proof.
  cbn [matches lit one]. split.
  - intros (Hall & Hmin & Hmax).
    destruct pre as [|c [|c' pre]]; cbn [List.length] in *; try lia.
    inversion Hall as [|? ? Hc _]; subst.
    cbn [class_matches existsb item_matches] in Hc.
    rewrite orb_false_r in Hc. apply Z.eqb_eq in Hc. subst c. reflexivity.
  - intros ->. cbn [List.length]. repeat split; auto.
    constructor; [|constructor].
    cbn [class_matches existsb item_matches].
    rewrite Z.eqb_refl. reflexivity.
Qed.

Lemma class_part (c : Z) :
  class_matches (NoneOf [Space; Chr "@"]) c = true
  <-> is_white_space c = false /\ is_line_terminator c = false /\ c <> 64.
Proof.
  cbn [class_matches existsb item_matches]. eval_chr.
  rewrite orb_false_r, negb_true_iff, !orb_false_iff, Z.eqb_neq. tauto.
Qed.

Lemma matches_part (i : nat) (pre rest : list Z) :
  matches (plus (NoneOf [Space; Chr "@"])) i pre rest <-> email_part pre.
Proof.
  cbn [matches plus]. unfold email_part. split.
  - intros (Hall & Hmin & _). split.
    + destruct pre; [cbn in Hmin; lia | discriminate].
    + eapply Forall_impl; [|exact Hall]. intros c. apply class_part.
  - intros (Hne & Hall). repeat split.
    + eapply Forall_impl; [|exact Hall]. intros c. apply class_part.
    + destruct pre; [contradiction | cbn; lia].
Qed.

(** What [emailPattern] accepts: a part, [@], a part, a full stop and a
    part, one after the other. *)
Lemma emailPattern_parts (u : Utf8.ustring) :
  Regex.test emailPattern u = true
  <-> exists l d t,
        u = (l ++ 64 :: d ++ 46 :: t)%list
        /\ email_part l /\ email_part d /\ email_part t.
Proof.
  unfold emailPattern. rewrite test_anchored. split.
  - intros (pre & rest & -> & Hm).
    destruct Hm as (l & q1 & -> & Hl & Hm).
    destruct Hm as (a & q2 & -> & Ha & Hm).
    destruct Hm as (d & q3 & -> & Hd & Hm).
    destruct Hm as (b & q4 & -> & Hb & Hm).
    destruct Hm as (t & q5 & -> & Ht & Hm).
    destruct Hm as (-> & ->).
    apply matches_lit in Ha, Hb. subst a b.
    apply matches_part in Hl, Hd, Ht.
    exists l, d, t. rewrite !app_nil_r. split; [reflexivity | auto].
  - intros (l & d & t & -> & Hl & Hd & Ht).
    exists (l ++ 64 :: d ++ 46 :: t)%list, []. rewrite app_nil_r.
    split; [reflexivity|].
    exists l, (64 :: d ++ 46 :: t)%list. split; [reflexivity|].
    split; [apply matches_part, Hl|].
    exists [64], (d ++ 46 :: t)%list. split; [reflexivity|].
    split; [apply matches_lit; reflexivity|].
    exists d, (46 :: t)%list. split; [reflexivity|].
    split; [apply matches_part, Hd|].
    exists [46], t. split; [reflexivity|].
    split; [apply matches_lit; reflexivity|].
    exists t, []. rewrite app_nil_r. split; [reflexivity|].
    split; [apply matches_part, Ht|].
    split; reflexivity.
Qed.

Lemma class_digits (c : Z) :
  class_matches (OneOf [Range "0" "9"]) c = is_digit c.
Proof.
  unfold class_matches, existsb, item_matches, is_digit. eval_chr.
  apply orb_false_r.
Qed.

(** What [contactNumberPattern] accepts. *)
Lemma contactNumberPattern_digits (u : Utf8.ustring) :
  Regex.test contactNumberPattern u = true
  <-> List.length u = 11%nat /\ Forall (fun c => is_digit c = true) u.
Proof.
  unfold contactNumberPattern. rewrite test_anchored. split.
  - intros (pre & rest & -> & Hm). apply matches_rep_eol in Hm.
    destruct Hm as (-> & Hall & Hmin & Hmax). rewrite app_nil_r. split.
    + lia.
    + eapply Forall_impl; [|exact Hall]. intros c Hc.
      rewrite <- class_digits. exact Hc.
  - intros (Hlen & Hall). exists u, []. rewrite app_nil_r.
    split; [reflexivity|]. apply matches_rep_eol. split; [reflexivity|].
    cbn [matches]. rewrite Hlen. repeat split; auto.
    eapply Forall_impl; [|exact Hall]. intros c Hc.
    rewrite class_digits. exact Hc.
Qed.

Lemma truthy_Some (s : string) :
  Text.truthy (Some s) = negb (String.length s =? 0)%nat.
Proof. destruct s; reflexivity. Qed.

End ValidationFacts.

(** X3.  A password passes [passwordRegex], and [validatePasswordStrength]
    calls it valid, exactly when it has at least eight characters, all
    of them ASCII letters, digits or one of [@$!%*?#&], with at least
    one lower-case letter, one upper-case letter, one digit and one of
    the special characters; what is not a string is never valid. *)
Theorem strong_passwords :
  (forall password : string,
      PasswordHelper.passwordRegex_test password = true
      <-> PasswordHelper.strong (Utf8.of_string password))
  /\ (forall password : Js.value,
         PasswordHelper.Verdict.valid
           (PasswordHelper.validatePasswordStrength password) = true
         <-> exists s, password = Js.Str s
                       /\ PasswordHelper.strong (Utf8.of_string s)).
Proof.
  split.
  - intros password. apply passwordRegex_strong.
  - intros password. unfold PasswordHelper.validatePasswordStrength. split.
    + destruct password as [| | | |s]; cbn; try discriminate.
      destruct (negb (negb (s =? "")%string)); [discriminate|].
      destruct (PasswordHelper.passwordRegex_test s) eqn:Ht; [|discriminate].
      intros _. exists s. split; [reflexivity|].
      apply passwordRegex_strong, Ht.
    + intros (s & -> & Hs).
      assert (Ht : PasswordHelper.passwordRegex_test s = true)
        by apply passwordRegex_strong, Hs.
      destruct Hs as (Hlen & _). rewrite of_string_length in Hlen.
      destruct s as [|c s]; [cbn in Hlen; lia|].
      cbn [Js.truthy String.eqb negb]. rewrite Ht. reflexivity.
Qed.

(** X4.  The form of the admin console lets through every password the
    backend accepts at registration: [validatePassword] has no complaint
    about a password that passes [passwordRegex]. *)
Theorem console_accepts_strong_passwords (password : string) :
  PasswordHelper.passwordRegex_test password = true ->
  Validation.validatePassword (Some password) = "".
Proof.
  intros Ht. apply passwordRegex_strong in Ht. destruct Ht as (Hlen & _).
  rewrite of_string_length in Hlen.
  unfold Validation.validatePassword. rewrite truthy_Some.
  cbn [Text.get].
  destruct (Nat.eqb_spec (String.length password) 0); [lia|].
  destruct (Nat.ltb_spec (String.length password) 4); [lia|].
  reflexivity.
Qed.

Lemma console_accepts_strong_passwords_witness :
  PasswordHelper.passwordRegex_test "Correct1!" = true
  /\ Validation.validatePassword (Some "Correct1!") = "".
Proof.
  split; [vm_compute; reflexivity|].
  apply (console_accepts_strong_passwords "Correct1!").
  vm_compute. reflexivity.
Defined.

(** X5.  [validateEmail] has no complaint exactly about the texts made of
    three parts, the first two separated by [@] and the last two by a
    full stop, where a part is not empty and holds neither white space
    nor [@]. *)
Theorem validateEmail_accepts (email : string) :
  Validation.validateEmail (Some email) = ""
  <-> exists l d t,
        Utf8.of_string email = (l ++ 64 :: d ++ 46 :: t)%list
        /\ Validation.email_part l /\ Validation.email_part d
        /\ Validation.email_part t.
Proof.
  rewrite <- emailPattern_parts. unfold Validation.validateEmail.
  rewrite truthy_Some. cbn [Text.get].
  destruct (Nat.eqb_spec (String.length email) 0) as [H0|H0]; cbn [negb].
  - split; [discriminate|]. intros Ht. apply emailPattern_parts in Ht.
    destruct Ht as (l & d & t & Hu & _).
    apply (f_equal (@List.length Z)) in Hu.
    rewrite of_string_length, H0, List.length_app in Hu. cbn in Hu. lia.
  - destruct (Regex.test _ _); cbn [negb]; split; auto; discriminate.
Qed.

(** X6.  [validateContactNumber] has no complaint exactly about the texts of
    eleven ASCII digits. *)
Theorem validateContactNumber_accepts (contactNumber : string) :
  Validation.validateContactNumber (Some contactNumber) = ""
  <-> String.length contactNumber = 11%nat
      /\ Forall (fun c => PasswordHelper.is_digit c = true)
           (Utf8.of_string contactNumber).
Proof.
  rewrite <- (of_string_length contactNumber) at 1.
  rewrite <- contactNumberPattern_digits.
  unfold Validation.validateContactNumber.
  rewrite truthy_Some. cbn [Text.get].
  destruct (Nat.eqb_spec (String.length contactNumber) 0) as [H0|H0];
    cbn [negb].
  - split; [discriminate|]. intros Ht.
    apply contactNumberPattern_digits in Ht. destruct Ht as (Hlen & _).
    rewrite of_string_length in Hlen. lia.
  - destruct (Regex.test _ _); cbn [negb]; split; auto; discriminate.
Qed.

(* ================================================================== *)
(** * The middleware over time, and the routes behind it *)
(* ================================================================== *)

Section GateOverTime.

Variable P : Primitives.
Variable cfg : Config.t.

(** Everything the middleware has checked when it calls [next()]. *)
Lemma gate_next_inv (now : Z) (db : Db.t) (req : Request.t) (u : ReqUser.t) :
  encryptedAuthMiddleware P cfg now db req = Gate.Next u ->
  exists decoded user,
    open_token P cfg now req = Ok (Some decoded)
    /\ malformed decoded = false
    /\ exceeded_max_lifetime decoded now = false
    /\ Claims.role decoded = Js.Str "SUPERADMIN"
    /\ castObjectId P (claimed_id decoded) = Some (ReqUser.id u)
    /\ Db.findById (Db.superAdmins db) (ReqUser.id u) = Some user
    /\ Account.isActive user = true
    /\ Claims.sessionId decoded = Account.sessionId user
    /\ u = ReqUser.make (Account._id user) (Js.Str "SUPERADMIN")
             (Account.email user) (Account.sessionId user).
Proof.
  unfold encryptedAuthMiddleware, gate_try.
  destruct (open_token P cfg now req) as [[decoded|]|e]; cbn [Exn.bind];
    try discriminate.
  unfold check_claims.
  destruct (malformed decoded) eqn:Hm; [discriminate|].
  destruct (exceeded_max_lifetime decoded now) eqn:Hl; [discriminate|].
  destruct (Js.strict_eq (Claims.role decoded) (Js.Str "SUPERADMIN")) eqn:Hr;
    cbn [negb]; [|discriminate].
  destruct (castObjectId P (claimed_id decoded)) as [id|] eqn:Hc;
    [|discriminate].
  destruct (Db.findById (Db.superAdmins db) id) as [user|] eqn:Hf;
    [|discriminate].
  destruct (Js.strict_eq (Claims.sessionId decoded) (Account.sessionId user))
    eqn:Hs; cbn [negb]; [|discriminate].
  destruct (Account.isActive user) eqn:Ha; cbn [negb]; [|discriminate].
  intros H. injection H as <-. cbn [ReqUser.id].
  apply strict_eq_eq in Hs, Hr.
  pose proof (findById_id _ _ _ Hf) as Hid.
  exists decoded, user. rewrite Hid, Hr, Hs. repeat split; auto.
Qed.

(** Whatever the middleware answers by itself is one of its eight replies. *)
Lemma gate_reply_shapes (now : Z) (db : Db.t) (req : Request.t)
    (r : Response.t) :
  encryptedAuthMiddleware P cfg now db req = Gate.Reply r ->
  In r gate_replies.
Proof.
  unfold encryptedAuthMiddleware.
  destruct (gate_try P cfg now db req) as [g|e] eqn:Hg.
  - intros ->. right. apply (gate_try_replies P cfg now db req r Hg).
  - intros H. injection H as <-. left. reflexivity.
Qed.

Lemma gate_replies_no_cookie (r : Response.t) :
  In r gate_replies -> Response.cookies r = Response.NoCookie.
Proof.
  unfold gate_replies. cbn [In].
  intros [<-|[<-|[<-|[<-|[<-|[<-|[<-|[<-|[]]]]]]]]]; reflexivity.
Qed.

(** A token that verifies at some instant verifies at every earlier
    instant, to the same claims. *)
Lemma open_token_earlier (now now' : Z) (req : Request.t) (d : Claims.t) :
  now <= now' ->
  open_token P cfg now' req = Ok (Some d) ->
  open_token P cfg now req = Ok (Some d).
Proof.
  intros Hle. unfold open_token.
  destruct (extract_payload P req) as [[payload|]|e]; cbn [Exn.bind];
    try discriminate.
  destruct (decryptToken P cfg payload) as [jwt|e]; cbn [Exn.bind];
    try discriminate.
  unfold jwt_verify.
  destruct (jws_decode P (Config.JWT_SECRET cfg) jwt) as [decoded|];
    cbn [Exn.bind]; try discriminate.
  destruct (Claims.exp decoded) as [e|]; cbn [Exn.bind]; [|auto].
  unfold Js.floor_div.
  destruct (Z.geb_spec (now' / 1000) (e + 30)); cbn [Exn.bind];
    [discriminate|].
  intros Hok.
  destruct (Z.geb_spec (now / 1000) (e + 30)); cbn [Exn.bind]; [|exact Hok].
  pose proof (Z.div_le_mono now now' 1000 ltac:(lia) Hle). lia.
Qed.

(** The claims a request opens to do not depend on the instant. *)
Lemma open_token_same_claims (now now' : Z) (req : Request.t)
    (d d' : Claims.t) :
  open_token P cfg now req = Ok (Some d) ->
  open_token P cfg now' req = Ok (Some d') ->
  d = d'.
Proof.
  unfold open_token.
  destruct (extract_payload P req) as [[payload|]|e]; cbn [Exn.bind];
    try discriminate.
  destruct (decryptToken P cfg payload) as [jwt|e]; cbn [Exn.bind];
    try discriminate.
  unfold jwt_verify.
  destruct (jws_decode P (Config.JWT_SECRET cfg) jwt) as [decoded|];
    cbn [Exn.bind]; try discriminate.
  destruct (Claims.exp decoded) as [e|]; cbn [Exn.bind].
  - destruct (_ >=? _); cbn [Exn.bind]; [discriminate|].
    destruct (_ >=? _); cbn [Exn.bind]; [discriminate|].
    congruence.
  - congruence.
Qed.

Lemma exceeded_earlier (now now' : Z) (d : Claims.t) :
  now <= now' ->
  exceeded_max_lifetime d now' = false ->
  exceeded_max_lifetime d now = false.
Proof.
  intros Hle. unfold exceeded_max_lifetime.
  destruct (Claims.iat d) as [iat|]; [|auto].
  rewrite !Z.ltb_ge. lia.
Qed.

(** After the rotation of a session, the middleware answers a token of
    the session before it with 401 "Session mismatch detected". *)
Lemma stale_token_mismatch (now : Z) (db' : Db.t) (req : Request.t)
    (decoded : Claims.t) (id : string) (user' : Account.t) :
  open_token P cfg now req = Ok (Some decoded) ->
  malformed decoded = false ->
  exceeded_max_lifetime decoded now = false ->
  Claims.role decoded = Js.Str "SUPERADMIN" ->
  castObjectId P (claimed_id decoded) = Some id ->
  Db.findById (Db.superAdmins db') id = Some user' ->
  Claims.sessionId decoded <> Account.sessionId user' ->
  encryptedAuthMiddleware P cfg now db' req
  = Gate.Reply (Response.failure 401 "Session mismatch detected").
Proof.
  intros Hopen Hm Hl Hr Hc Hf Hne.
  rewrite (gate_after_open P cfg now db' req decoded Hopen).
  rewrite (check_claims_resolved P now db' decoded id user' Hm Hl Hr Hc Hf).
  apply strict_eq_neq in Hne. rewrite Hne. reflexivity.
Qed.

(** A request whose claims name a super admin with another session is
    not let through, at any instant. *)
Lemma stale_token_refused (now now' : Z) (db' : Db.t) (req : Request.t)
    (decoded : Claims.t) (id : string) (user' : Account.t) :
  open_token P cfg now req = Ok (Some decoded) ->
  castObjectId P (claimed_id decoded) = Some id ->
  Db.findById (Db.superAdmins db') id = Some user' ->
  Claims.sessionId decoded <> Account.sessionId user' ->
  exists r, encryptedAuthMiddleware P cfg now' db' req = Gate.Reply r.
Proof.
  intros Hopen Hc Hf Hne.
  destruct (encryptedAuthMiddleware P cfg now' db' req) as [u'|r] eqn:Hg;
    [|exists r; reflexivity].
  destruct (gate_next_inv now' db' req u' Hg)
    as (d' & user'' & Hopen' & _ & _ & _ & Hc' & Hf' & _ & Hs' & _).
  rewrite (open_token_same_claims _ _ _ _ _ Hopen' Hopen) in *.
  rewrite Hc in Hc'. injection Hc' as Hid.
  rewrite <- Hid, Hf in Hf'. injection Hf' as Huser.
  rewrite <- Huser in Hs'. contradiction.
Qed.

End GateOverTime.

Lemma ref_objectid_canonical : objectid_canonical Reference.prims.
Proof.
  intros v id. cbn [castObjectId Reference.prims].
  unfold Reference.ref_castObjectId.
  destruct v as [| | | |s]; try discriminate.
  destruct (String.eqb_spec s ""); [discriminate|].
  intros H. injection H as <-. split; [assumption|].
  destruct (String.eqb_spec s ""); [contradiction | reflexivity].
Qed.

(** X9.  Admission only ever ends: a request the middleware lets through at
    some instant is let through, as the same user, at every earlier
    instant on the same store. *)
Theorem admission_antitone (P : Primitives) (cfg : Config.t) (now now' : Z)
    (db : Db.t) (req : Request.t) (u : ReqUser.t) :
  now <= now' ->
  encryptedAuthMiddleware P cfg now' db req = Gate.Next u ->
  encryptedAuthMiddleware P cfg now db req = Gate.Next u.
Proof.
  intros Hle Hg.
  destruct (gate_next_inv P cfg now' db req u Hg)
    as (d & user & Hopen & Hm & Hl & Hr & Hc & Hf & Ha & Hs & Hu).
  rewrite (gate_after_open P cfg now db req d
             (open_token_earlier P cfg now now' req d Hle Hopen)).
  rewrite (check_claims_resolved P now db d (ReqUser.id u) user Hm
             (exceeded_earlier now now' d Hle Hl) Hr Hc Hf).
  rewrite Hs, Ha, Hr.
  replace (Js.strict_eq (Account.sessionId user) (Account.sessionId user))
    with true by (symmetry; apply strict_eq_eq; reflexivity).
  cbn [negb]. rewrite Hu. reflexivity.
Qed.

(** The token of the first sample login, let through after a minute, is
    let through at once. *)
Lemma admission_antitone_witness :
  encryptedAuthMiddleware Reference.prims Sample.cfg 0
    (Outcome.db Sample.first_login)
    (Request.with_cookie (Sample.token_of Sample.first_login))
  = Gate.Next
      (ReqUser.make "a1" (Js.Str "SUPERADMIN") "root@oloha.io" (Js.Str "01")).
Proof.
  apply (admission_antitone Reference.prims Sample.cfg 0 Sample.minute).
  - unfold Sample.minute. lia.
  - vm_compute. reflexivity.
Defined.

(** The first sample login, and its token a minute later. *)
Lemma login_token_admitted_witness :
  exists token,
    Outcome.response Sample.first_login
    = welcome_response Flavour.superAdmin Sample.root token
    /\ option_map Account.sessionId
         (Db.findById (Db.superAdmins (Outcome.db Sample.first_login)) "a1")
       = Some (Js.Str "01")
    /\ (token <> "" ->
        encryptedAuthMiddleware Reference.prims Sample.cfg Sample.minute
          (Outcome.db Sample.first_login) (Request.with_cookie token)
        = Gate.Next
            (ReqUser.make "a1" (Js.Str "SUPERADMIN") "root@oloha.io"
               (Js.Str "01"))).
Proof.
  apply (login_token_admitted Reference.prims Sample.cfg ref_tag_length
           ref_jws_roundtrip ref_jws_text ref_transport_roundtrip
           0 Sample.minute [x01] [x0a] Sample.db "root@oloha.io" "Correct1!"
           Sample.root);
    try discriminate; reflexivity.
Defined.

(** The envelope of ["hi"], presented with the first four bytes of its
    tag only. *)
Lemma tag_tampering_never_changes_plaintext_witness :
  decryptToken Reference.prims Sample.cfg
    (Payload.make (Js.Str "02") (Js.Str "0128") (Js.Str "8b000000"))
  = Ok (Utf8.of_string "hi")
  /\ Utf8.of_string "hi" = Utf8.decode (Utf8.encode (Utf8.of_string "hi")).
Proof.
  split; [vm_compute; reflexivity|].
  apply (tag_tampering_never_changes_plaintext Reference.prims Sample.cfg
           [x02] (Utf8.of_string "hi") (Utf8.of_string "hi")
           (Envelope.make "02" "0128" "8b000000000000000000000000000000")
           (Js.Str "8b000000"));
    vm_compute; reflexivity.
Defined.

Section UserTokens.

Variable P : Primitives.
Variable cfg : Config.t.

Hypothesis Htag : Contract.tag_length P.
Hypothesis Hjws : Contract.jws_roundtrip P.
Hypothesis Htext : Contract.jws_text P.
Hypothesis Htransport : Contract.transport_roundtrip P.

(** What the middleware opens a token of this server to, at any
    instant. *)
Lemma issued_cookie_opens (payload : Claims.t) (t0 now : Z) (iv : list byte)
    (token : string) :
  Claims.iat payload = None -> Claims.exp payload = None ->
  generateEncryptedToken P cfg payload t0 iv = Ok token ->
  token <> "" ->
  open_token P cfg now (Request.with_cookie token)
  = if now / 1000 >=? t0 / 1000 + 86400 + 30
    then Throw TokenExpiredError
    else Ok (Some (Claims.with_times payload (t0 / 1000) (t0 / 1000 + 86400))).
Proof.
  intros Hi He Hgen Hne. unfold generateEncryptedToken in Hgen.
  rewrite (jwt_sign_fresh P cfg payload t0 He Hi) in Hgen.
  cbn [Exn.bind] in Hgen.
  set (jwt := jws_encode P (Config.JWT_SECRET cfg) _) in *.
  destruct (Gcm.init_ok (Config.ENCRYPTION_KEY cfg) iv) eqn:Hinit.
  - destruct (decrypt_encrypt P cfg iv jwt Hinit Htag) as (e & He1 & He2).
    rewrite He1 in Hgen. cbn [Exn.bind] in Hgen. injection Hgen as <-.
    unfold open_token, extract_payload, parse_transport.
    cbn [Request.with_cookie Request.authorization Request.accessToken
           Text.truthy Text.get].
    apply String.eqb_neq in Hne. rewrite Hne. cbn [negb].
    rewrite Htransport. cbn [Exn.bind]. rewrite He2. cbn [Exn.bind].
    rewrite decode_encode by apply Htext.
    subst jwt.
    rewrite (jwt_verify_issued P cfg _ (t0 / 1000 + 86400)) by
      (try assumption; reflexivity).
    destruct (_ >=? _); reflexivity.
  - unfold encryptToken in Hgen. rewrite Hinit in Hgen. discriminate.
Qed.

(** The claims of a token of this server, whenever the middleware
    opens it. *)
Lemma issued_cookie_claims (payload : Claims.t) (t0 now : Z) (iv : list byte)
    (token : string) (d : Claims.t) :
  Claims.iat payload = None -> Claims.exp payload = None ->
  generateEncryptedToken P cfg payload t0 iv = Ok token ->
  open_token P cfg now (Request.with_cookie token) = Ok (Some d) ->
  d = Claims.with_times payload (t0 / 1000) (t0 / 1000 + 86400).
Proof.
  intros Hi He Hgen.
  destruct (String.eqb_spec token "") as [->|Hne].
  - unfold open_token, extract_payload. cbn. discriminate.
  - rewrite (issued_cookie_opens payload t0 now iv token Hi He Hgen Hne).
    destruct (_ >=? _); [discriminate|]. intros H. injection H as <-.
    reflexivity.
Qed.

End UserTokens.

(** X10.  The token [loginUser] hands out opens no route behind the
    middleware.  A log-out request of the user that carries it is
    answered by the middleware, with one of its replies and without
    touching the cookie, and leaves every session as it was; while the
    token is fresh the reply is 401 "Invalid role". *)
Theorem user_token_never_admitted (P : Primitives) (cfg : Config.t) (t0 : Z)
    (sid iv : list byte) (db : Db.t) (email password : string)
    (doc : Account.t) :
  Contract.tag_length P -> Contract.jws_roundtrip P ->
  Contract.jws_text P -> Contract.transport_roundtrip P ->
  email <> "" -> password <> "" ->
  Db.findOne (Db.users db) (Text.toLowerCase email) = Some doc ->
  locked doc t0 = false ->
  bcrypt_compare P password (Account.password doc) = true ->
  Gcm.init_ok (Config.ENCRYPTION_KEY cfg) iv = true ->
  exists token,
    Outcome.response
      (loginUser P cfg t0 sid iv db (Request.credentials email password))
    = welcome_response Flavour.user doc token
    /\ forall now sid' db',
         let o :=
           post_logout_user P cfg now sid' db' (Request.with_cookie token) in
         Outcome.db o = db'
         /\ Outcome.effects o = []
         /\ In (Outcome.response o) gate_replies
         /\ Response.cookies (Outcome.response o) = Response.NoCookie
         /\ (token <> "" -> Account._id doc <> "" ->
             now <= t0 / 1000 * 1000 + 24 * 60 * 60 * 1000 ->
             Outcome.response o = Response.failure 401 "Invalid role").
Proof.
  intros Htag Hjws Htext Htransport He Hp Hfind Hfree Hcmp Hinit.
  set (payload :=
         Claims.make (Js.Str "USER")
           (Some (UserClaim.make (Js.Str (Account._id doc))
                    (Js.Str (Account.email doc))))
           (Js.Str (generateSecureToken sid)) None None).
  destruct (generateEncryptedToken_ok P cfg payload t0 iv eq_refl Hinit)
    as [token Htok].
  destruct (login_right P cfg Flavour.user (or_intror eq_refl) t0 sid iv
              db email password He Hp doc Hfind Hfree Hcmp) as (Hr & _ & _).
  cbn [Flavour.role Flavour.user] in Hr. fold payload in Hr.
  rewrite Htok in Hr.
  exists token. split; [exact Hr|].
  intros now sid' db' o. subst o. unfold post_logout_user, guarded.
  destruct (encryptedAuthMiddleware P cfg now db' (Request.with_cookie token))
    as [u|r] eqn:Hg.
  - exfalso.
    destruct (gate_next_inv P cfg now db' _ u Hg)
      as (d & user & Hopen & _ & _ & Hrole & _).
    rewrite (issued_cookie_claims P cfg Htag Hjws Htext Htransport payload t0
               now iv token d eq_refl eq_refl Htok Hopen) in Hrole.
    discriminate.
  - cbn [Outcome.db Outcome.effects Outcome.response].
    pose proof (gate_reply_shapes P cfg now db' _ r Hg) as Hin.
    repeat split; auto using gate_replies_no_cookie.
    intros Hne Hid Hnow.
    assert (Hopen :
              open_token P cfg now (Request.with_cookie token)
              = Ok (Some (Claims.with_times payload (t0 / 1000)
                            (t0 / 1000 + 86400)))).
    { rewrite (issued_cookie_opens P cfg Htag Hjws Htext Htransport payload
                 t0 now iv token eq_refl eq_refl Htok Hne).
      destruct (Z.geb_spec (now / 1000) (t0 / 1000 + 86400 + 30));
        [|reflexivity].
      exfalso. Z.div_mod_to_equations. lia. }
    rewrite (gate_after_open P cfg now db' _ _ Hopen) in Hg.
    unfold check_claims in Hg.
    assert (Hm : malformed
                   (Claims.with_times payload (t0 / 1000) (t0 / 1000 + 86400))
                 = false).
    { unfold malformed, payload. cbn.
      apply String.eqb_neq in Hid. rewrite Hid. reflexivity. }
    assert (Hl : exceeded_max_lifetime
                   (Claims.with_times payload (t0 / 1000) (t0 / 1000 + 86400))
                   now = false).
    { unfold exceeded_max_lifetime, payload. cbn. apply Z.ltb_ge. lia. }
    rewrite Hm, Hl in Hg. cbn in Hg. injection Hg as <-. reflexivity.
Qed.

(** The sample user logs in and cannot log out with the token. *)
Lemma user_token_never_admitted_witness :
  exists token,
    Outcome.response
      (loginUser Reference.prims Sample.cfg 0 [x01] [x0a] Sample.db
         (Request.credentials "tess@oloha.io" "Passw0rd!"))
    = welcome_response Flavour.user Sample.traveller token
    /\ forall now sid' db',
         let o :=
           post_logout_user Reference.prims Sample.cfg now sid' db'
             (Request.with_cookie token) in
         Outcome.db o = db'
         /\ Outcome.effects o = []
         /\ In (Outcome.response o) gate_replies
         /\ Response.cookies (Outcome.response o) = Response.NoCookie
         /\ (token <> "" -> "u1" <> "" ->
             now <= 0 / 1000 * 1000 + 24 * 60 * 60 * 1000 ->
             Outcome.response o = Response.failure 401 "Invalid role").
Proof.
  apply (user_token_never_admitted Reference.prims Sample.cfg 0 [x01] [x0a]
           Sample.db "tess@oloha.io" "Passw0rd!" Sample.traveller
           ref_tag_length ref_jws_roundtrip ref_jws_text
           ref_transport_roundtrip);
    try discriminate; reflexivity.
Defined.

(** X11.  Logging out through the route revokes the token that was used: the
    handler runs as the user the middleware let through, stores a fresh
    session id for that account, and from then on the middleware refuses the
    same request, at once with 401 "Session mismatch detected". *)
Theorem logout_revokes_token (P : Primitives) (cfg : Config.t) (now : Z)
    (sid : list byte) (db : Db.t) (req : Request.t) (u : ReqUser.t) :
  objectid_canonical P ->
  encryptedAuthMiddleware P cfg now db req = Gate.Next u ->
  ReqUser.sessionId u <> Js.Str (generateSecureToken sid) ->
  let o := post_logout_super_admin P cfg now sid db req in
  Outcome.response o
  = Response.make 200
      (Js.JObj [("success", Js.JBool true);
                ("message", Js.JStr "Logout successfully")])
      (Response.ClearCookie "accessToken")
  /\ Outcome.effects o
     = [UpdateSessionId (ReqUser.id u) (Js.Str (generateSecureToken sid))]
  /\ option_map Account.sessionId
       (Db.findById (Db.superAdmins (Outcome.db o)) (ReqUser.id u))
     = Some (Js.Str (generateSecureToken sid))
  /\ encryptedAuthMiddleware P cfg now (Outcome.db o) req
     = Gate.Reply (Response.failure 401 "Session mismatch detected")
  /\ forall now',
       exists r,
         encryptedAuthMiddleware P cfg now' (Outcome.db o) req = Gate.Reply r.
Proof.
  intros Hcanon Hg Hfresh o.
  destruct (gate_next_inv P cfg now db req u Hg)
    as (d & user & Hopen & Hm & Hl & Hr & Hc & Hf & Ha & Hs & Hu).
  destruct (Hcanon _ _ Hc) as [Hne Hcast].
  assert (Ho : o = Outcome.make
                     (Db.make
                        (Db.updateSessionId (Db.superAdmins db) (ReqUser.id u)
                           (Js.Str (generateSecureToken sid)))
                        (Db.users db))
                     (Response.make 200
                        (Js.JObj [("success", Js.JBool true);
                                  ("message", Js.JStr "Logout successfully")])
                        (Response.ClearCookie "accessToken"))
                     [UpdateSessionId (ReqUser.id u)
                        (Js.Str (generateSecureToken sid))]).
  { subst o. unfold post_logout_super_admin, guarded. rewrite Hg.
    unfold logoutSuperAdmin, with_user. cbn [Request.user].
    apply String.eqb_neq in Hne. rewrite Hne, Hcast. reflexivity. }
  rewrite Ho. cbn [Outcome.response Outcome.effects Outcome.db].
  set (db' := Db.make _ (Db.users db)).
  assert (Hf' : Db.findById (Db.superAdmins db') (ReqUser.id u)
                = Some (Account.set_sessionId user
                          (Js.Str (generateSecureToken sid)))).
  { apply (findById_updateSessionId _ _ _
             (Js.Str (generateSecureToken sid)) Hf). }
  assert (Hstale : Claims.sessionId d
                   <> Account.sessionId
                        (Account.set_sessionId user
                           (Js.Str (generateSecureToken sid)))).
  { cbn [Account.set_sessionId Account.sessionId]. rewrite Hs.
    rewrite Hu in Hfresh. exact Hfresh. }
  split; [reflexivity|]. split; [reflexivity|].
  split; [rewrite Hf'; reflexivity|].
  split.
  - apply (stale_token_mismatch P cfg now db' req d (ReqUser.id u) _ Hopen Hm
             Hl Hr Hc Hf' Hstale).
  - intros now'.
    apply (stale_token_refused P cfg now now' db' req d (ReqUser.id u) _ Hopen
             Hc Hf' Hstale).
Qed.

(** The sample super admin logs out a minute after the first login. *)
Lemma logout_revokes_token_witness :
  let req := Request.with_cookie (Sample.token_of Sample.first_login) in
  let o :=
    post_logout_super_admin Reference.prims Sample.cfg Sample.minute [x02]
      (Outcome.db Sample.first_login) req in
  encryptedAuthMiddleware Reference.prims Sample.cfg Sample.minute
    (Outcome.db o) req
  = Gate.Reply (Response.failure 401 "Session mismatch detected").
Proof.
  intros req o.
  destruct (logout_revokes_token Reference.prims Sample.cfg Sample.minute
              [x02] (Outcome.db Sample.first_login) req
              (ReqUser.make "a1" (Js.Str "SUPERADMIN") "root@oloha.io"
                 (Js.Str "01"))
              ref_objectid_canonical)
    as (_ & _ & _ & H & _).
  - vm_compute. reflexivity.
  - discriminate.
  - exact H.
Defined.

(* ================================================================== *)
(** * What a login leaves alone *)
(* ================================================================== *)

Section LoginFrame.

Lemma NoDup_ids_unique (col : list Account.t) (a b : Account.t) :
  NoDup (map Account._id col) -> In a col -> In b col ->
  Account._id a = Account._id b -> a = b.
Proof.
  induction col as [|c col IH]; [contradiction|].
  cbn [map]. intros Hnd Ha Hb Hid. inversion Hnd as [|? ? Hnotin Hnd']; subst.
  destruct Ha as [-> | Ha], Hb as [-> | Hb]; auto.
  - exfalso. apply Hnotin. rewrite Hid. apply in_map, Hb.
  - exfalso. apply Hnotin. rewrite <- Hid. apply in_map, Ha.
Qed.





Variable P : Primitives.
Variable cfg : Config.t.


End LoginFrame.



(* ================================================================== *)
(** * Password reset *)
(* ================================================================== *)

Section ResetFacts.

Variable P : Primitives.
Variable R : ResetPrimitives.
Variable SECRET : string.

(** Opening what [encrypt] sealed. *)
Lemma reset_decrypt_encrypt (iv : list byte) (p : Utf8.ustring) :
  Gcm.init_ok (Buf.from_hex SECRET) iv = true ->
  Contract.tag_length P ->
  exists e,
    encrypt P SECRET iv p = Ok e
    /\ decrypt P SECRET (Payload.of_envelope e)
       = Ok (Utf8.decode (Utf8.encode p)).
Proof.
  intros Hinit Hlen. unfold encrypt. rewrite Hinit. cbn [negb].
  eexists. split; [reflexivity|].
  unfold decrypt, Payload.of_envelope, buffer_from_hex.
  cbn [Payload.iv Payload.authTag Payload.ciphertext Envelope.iv
         Envelope.authTag Envelope.ciphertext Exn.bind].
  rewrite !from_hex_toString_hex, Hinit. cbn [negb Exn.bind].
  rewrite ?from_hex_toString_hex.
  rewrite tag_length_ok_16 by apply Hlen. cbn [negb Exn.bind].
  rewrite ?from_hex_toString_hex.
  rewrite final_own_tag. cbn [Exn.bind].
  rewrite !app_nil_r, ctr_involutive. reflexivity.
Qed.

(** A reset token of this server, verified at any instant. *)
Lemma reset_token_verifies (payload : ResetClaims.t) (expiresIn : option Z)
    (t0 now : Z) (iv : list byte) :
  Contract.tag_length P -> Contract.transport_roundtrip P ->
  ResetContract.jws_roundtrip R -> ResetContract.jws_text R ->
  Gcm.init_ok (Buf.from_hex SECRET) iv = true ->
  ResetClaims.iat payload = None -> ResetClaims.exp payload = None ->
  let span := match expiresIn with Some s => s | None => 3600 end in
  exists token,
    generateResetToken P R SECRET payload expiresIn t0 iv = Ok token
    /\ verifyResetToken P R SECRET token now
       = if now / 1000 <? t0 / 1000 + span
         then Done (ResetClaims.with_times payload (t0 / 1000)
                      (t0 / 1000 + span))
         else Raise (Err.Error "Invalid or expired reset token").
Proof.
  intros Htag Htr Hjws Htext Hinit Hi He span.
  unfold generateResetToken, reset_jwt_sign. rewrite He, Hi.
  cbn [Exn.bind]. fold span. unfold Js.floor_div.
  set (claims := ResetClaims.with_times payload (t0 / 1000)
                   (t0 / 1000 + span)).
  destruct (reset_decrypt_encrypt iv (reset_jws_encode R SECRET claims)
              Hinit Htag) as (e & He1 & He2).
  rewrite He1. cbn [Exn.bind]. eexists. split; [reflexivity|].
  unfold verifyResetToken, verify_try, parse_transport.
  rewrite Htr. cbn [Exn.bind]. rewrite He2. cbn [Exn.bind].
  rewrite decode_encode by apply Htext.
  unfold reset_jwt_verify. rewrite Hjws.
  cbn [ResetClaims.exp ResetClaims.with_times claims]. unfold Js.floor_div.
  destruct (Z.geb_spec (now / 1000) (t0 / 1000 + span)) as [Hge|Hlt];
    destruct (Z.ltb_spec (now / 1000) (t0 / 1000 + span)); try lia;
    reflexivity.
Qed.

Lemma from_hex_length (s : string) :
  (2 * List.length (Buf.from_hex s) <= String.length s)%nat.
Proof.
  assert (H : forall s,
             (2 * List.length (Buf.from_hex s) <= String.length s)%nat
             /\ forall c,
                  (2 * List.length (Buf.from_hex (String c s))
                   <= S (String.length s))%nat).
  { clear s. induction s as [|c1 s [IH1 IH2]].
    - split; [cbn; lia | intros c; cbn; lia].
    - split; [apply IH2|]. intros c. cbn [Buf.from_hex].
      destruct (Buf.hex_value c), (Buf.hex_value c1);
        cbn [List.length String.length]; lia. }
  apply H.
Qed.

(** What a successful reset has gone through. *)
Lemma reset_success_inv (now : Z) (salt sid : list byte) (dir : Directory.t)
    (token : string) (newPassword : option string) :
  let o := resetPassword P R SECRET now salt sid dir token newPassword in
  Response.status (ResetOutcome.response o) = 200 ->
  exists password payload m id user,
    newPassword = Some password
    /\ verifyResetToken P R SECRET token now = Done payload
    /\ getModelByRole (ResetClaims.role payload) = Done m
    /\ castObjectId P (ResetClaims.id payload) = Some id
    /\ Db.findById (model_collection m dir) id = Some user
    /\ PasswordHelper.passwordRegex_test password = true
    /\ bcrypt_compare P password (Account.password user) = false
    /\ let doc :=
         set_password user (bcrypt_hash R password 12 salt)
           (Js.Str (Buf.toString_hex sid)) in
       o = ResetOutcome.make
             (model_store m dir (Db.save (model_collection m dir) doc))
             (success 200 "Password has been reset successfully")
             [ResetCompare password (Account.password user);
              ResetHash password; ResetSave m doc].
Proof.
  intros o. subst o. unfold resetPassword.
  destruct newPassword as [password|]; cbn [Text.truthy negb];
    [|cbn; discriminate].
  destruct (password =? "")%string eqn:Hpw; cbn [negb];
    [cbn; discriminate|].
  destruct (verifyResetToken P R SECRET token now) as [payload|e] eqn:Hv;
    [|cbn; discriminate].
  destruct (getModelByRole (ResetClaims.role payload)) as [m|e] eqn:Hm;
    [|cbn; discriminate].
  destruct (castObjectId P (ResetClaims.id payload)) as [id|] eqn:Hcast;
    [|cbn; discriminate].
  destruct (Db.findById (model_collection m dir) id) as [user|] eqn:Hf;
    [|cbn; discriminate].
  unfold resetUserPassword. cbn [Text.get].
  destruct (PasswordHelper.passwordRegex_test password) eqn:Ht; cbn [negb];
    [|cbn; discriminate].
  destruct (bcrypt_compare P password (Account.password user)) eqn:Hc;
    [cbn; discriminate|].
  unfold hashPassword. rewrite Hpw. intros _.
  exists password, payload, m, id, user. repeat split; auto.
Qed.

Lemma collection_model_store (m : model) (dir : Directory.t)
    (col : list Account.t) :
  model_collection m (model_store m dir col) = col.
Proof. destruct m; reflexivity. Qed.

End ResetFacts.

Section ResetReferenceFacts.

Import Reference ResetReference.

Lemma get_reset_claims_put (c : ResetClaims.t) (k : list N) :
  get_reset_claims (put_reset_claims c ++ k)%list = Some (c, k).
Proof.
  destruct c as [i r a e]. unfold get_reset_claims, put_reset_claims.
  cbn [ResetClaims.id ResetClaims.role ResetClaims.iat ResetClaims.exp].
  rewrite <- !app_assoc.
  rewrite (pbind_step _ _ _ _ _ (get_value_put_value i _)).
  rewrite (pbind_step _ _ _ _ _ (get_value_put_value r _)).
  rewrite (pbind_step _ _ _ _ _
             (get_option_put_option _ _ a _ get_Z_put_Z)).
  rewrite (pbind_step _ _ _ _ _
             (get_option_put_option _ _ e _ get_Z_put_Z)).
  reflexivity.
Qed.

Lemma ref_reset_jws_roundtrip : ResetContract.jws_roundtrip ResetReference.prims.
Proof.
  intros secret c. cbn [reset_jws_decode reset_jws_encode ResetReference.prims].
  unfold ref_reset_jws_decode, ref_reset_jws_encode.
  rewrite read_write, get_string_put_string, String.eqb_refl.
  rewrite <- (app_nil_r (put_reset_claims c)), get_reset_claims_put.
  reflexivity.
Qed.

Lemma ref_reset_jws_text : ResetContract.jws_text ResetReference.prims.
Proof.
  intros secret c. apply small_units_well_formed.
  eapply Forall_impl; [|apply write_small]. cbn. lia.
Qed.

Lemma ref_hash_compare :
  ResetContract.hash_compare Reference.prims ResetReference.prims.
Proof.
  intros password rounds salt. cbn. apply String.eqb_refl.
Qed.

End ResetReferenceFacts.

(** X13.  A reset token round trip, and its hour.  With a secret that is the
    hexadecimal text of a 32-byte key, a token made at [t0] from
    [{ id, role }] verifies to these claims, with [iat] and [exp =
    iat + 3600] added, at every instant before the second [exp]; from
    that second on, with no tolerance, it is refused with the one error
    of [verifyResetToken], and [verifyToken] answers accordingly. *)
Theorem reset_token_round_trip (P : Primitives) (R : ResetPrimitives)
    (SECRET : string) (payload : ResetClaims.t) (t0 : Z) (iv : list byte) :
  Contract.tag_length P -> Contract.transport_roundtrip P ->
  ResetContract.jws_roundtrip R -> ResetContract.jws_text R ->
  Gcm.init_ok (Buf.from_hex SECRET) iv = true ->
  ResetClaims.iat payload = None -> ResetClaims.exp payload = None ->
  exists token,
    generateResetToken P R SECRET payload None t0 iv = Ok token
    /\ (forall now,
           now / 1000 < t0 / 1000 + 3600 ->
           verifyResetToken P R SECRET token now
           = Done (ResetClaims.with_times payload (t0 / 1000)
                     (t0 / 1000 + 3600))
           /\ (token <> "" ->
               Response.status (verifyToken P R SECRET now token) = 200))
    /\ (forall now,
           t0 / 1000 + 3600 <= now / 1000 ->
           verifyResetToken P R SECRET token now
           = Raise (Err.Error "Invalid or expired reset token")
           /\ (token <> "" ->
               verifyToken P R SECRET now token
               = Response.failure 400 "Invalid or expired reset token")).
Proof.
  intros Htag Htr Hjws Htext Hinit Hi He.
  destruct (reset_token_verifies P R SECRET payload None t0 0 iv Htag Htr Hjws
              Htext Hinit Hi He) as (token & Hgen & _).
  exists token. split; [exact Hgen|].
  assert (Hv : forall now,
             verifyResetToken P R SECRET token now
             = if now / 1000 <? t0 / 1000 + 3600
               then Done (ResetClaims.with_times payload (t0 / 1000)
                            (t0 / 1000 + 3600))
               else Raise (Err.Error "Invalid or expired reset token")).
  { intros now.
    destruct (reset_token_verifies P R SECRET payload None t0 now iv Htag Htr
                Hjws Htext Hinit Hi He) as (token' & Hgen' & Hv).
    rewrite Hgen in Hgen'. injection Hgen' as <-. exact Hv. }
  split; intros now Hnow.
  - assert (H : verifyResetToken P R SECRET token now
                = Done (ResetClaims.with_times payload (t0 / 1000)
                          (t0 / 1000 + 3600))).
    { rewrite Hv. destruct (Z.ltb_spec (now / 1000) (t0 / 1000 + 3600));
        [reflexivity | lia]. }
    split; [exact H|]. intros Hne. unfold verifyToken.
    apply String.eqb_neq in Hne. rewrite Hne, H. reflexivity.
  - assert (H : verifyResetToken P R SECRET token now
                = Raise (Err.Error "Invalid or expired reset token")).
    { rewrite Hv. destruct (Z.ltb_spec (now / 1000) (t0 / 1000 + 3600));
        [lia | reflexivity]. }
    split; [exact H|]. intros Hne. unfold verifyToken.
    apply String.eqb_neq in Hne. rewrite Hne, H. reflexivity.
Qed.

(** A token for the sample super admin, made at time 0. *)
Lemma reset_token_round_trip_witness :
  exists token,
    generateResetToken Reference.prims ResetReference.prims
      ResetReference.secret
      (ResetClaims.make (Js.Str "a1") (Js.Str "SUPERADMIN") None None)
      None 0 [x07] = Ok token
    /\ verifyResetToken Reference.prims ResetReference.prims
         ResetReference.secret token 3599999
       = Done (ResetClaims.make (Js.Str "a1") (Js.Str "SUPERADMIN")
                 (Some 0) (Some 3600))
    /\ verifyResetToken Reference.prims ResetReference.prims
         ResetReference.secret token 3600000
       = Raise (Err.Error "Invalid or expired reset token").
Proof.
  destruct (reset_token_round_trip Reference.prims ResetReference.prims
              ResetReference.secret
              (ResetClaims.make (Js.Str "a1") (Js.Str "SUPERADMIN") None None)
              0 [x07] ref_tag_length ref_transport_roundtrip
              ref_reset_jws_roundtrip ref_reset_jws_text eq_refl eq_refl
              eq_refl)
    as (token & Hgen & Hin & Hout).
  exists token. split; [exact Hgen|]. split.
  - apply (Hin 3599999). reflexivity.
  - apply (Hout 3600000). discriminate.
Defined.

(** X14.  The reset secret is also the cipher key: a reset token is made, or
    verified, only if [PASSWORD_RESET_SECRET] begins with the
    hexadecimal text of exactly 32 bytes, hence holds at least 64
    characters. *)
Theorem reset_secret_is_a_key (P : Primitives) (R : ResetPrimitives)
    (SECRET : string) :
  (forall payload expiresIn now iv token,
      generateResetToken P R SECRET payload expiresIn now iv = Ok token ->
      List.length (Buf.from_hex SECRET) = 32%nat
      /\ (64 <= String.length SECRET)%nat)
  /\ (forall token now payload,
         verifyResetToken P R SECRET token now = Done payload ->
         List.length (Buf.from_hex SECRET) = 32%nat
         /\ (64 <= String.length SECRET)%nat).
Proof.
  assert (Hkey : forall iv,
             Gcm.init_ok (Buf.from_hex SECRET) iv = true ->
             List.length (Buf.from_hex SECRET) = 32%nat
             /\ (64 <= String.length SECRET)%nat).
  { intros iv H. unfold Gcm.init_ok in H. apply andb_true_iff in H.
    destruct H as [H _]. apply Nat.eqb_eq in H. split; [exact H|].
    pose proof (from_hex_length SECRET). lia. }
  split.
  - intros payload expiresIn now iv token. unfold generateResetToken.
    destruct (reset_jwt_sign R SECRET payload _ now) as [jwt|e];
      cbn [Exn.bind]; [|discriminate].
    unfold encrypt.
    destruct (Gcm.init_ok (Buf.from_hex SECRET) iv) eqn:Hinit; cbn [negb];
      [|discriminate].
    intros _. apply (Hkey iv Hinit).
  - intros token now payload. unfold verifyResetToken, verify_try.
    destruct (parse_transport P token) as [[p|]|e]; cbn [Exn.bind];
      try discriminate.
    unfold decrypt.
    destruct (buffer_from_hex (Payload.iv p)) as [iv|e]; cbn [Exn.bind];
      [|discriminate].
    destruct (Gcm.init_ok (Buf.from_hex SECRET) iv) eqn:Hinit; cbn [negb];
      [|discriminate].
    intros _. apply (Hkey iv Hinit).
Qed.

(** X15.  A reset that is not answered 200 changes nothing; one that is has
    verified the token, found the account its claims name, checked the
    new password against [passwordRegex] and against the old hash, and
    then stored the new hash and a fresh session id on that account,
    whose other fields, the lockout among them, stay as they were. *)
Theorem reset_password_outcomes (P : Primitives) (R : ResetPrimitives)
    (SECRET : string) (now : Z) (salt sid : list byte) (dir : Directory.t)
    (token : string) (newPassword : option string) :
  let o := resetPassword P R SECRET now salt sid dir token newPassword in
  (Response.status (ResetOutcome.response o) <> 200 ->
   ResetOutcome.dir o = dir /\ ResetOutcome.effects o = []
   /\ Response.status (ResetOutcome.response o) = 400)
  /\ (Response.status (ResetOutcome.response o) = 200 ->
      exists password payload m id user,
        newPassword = Some password
        /\ verifyResetToken P R SECRET token now = Done payload
        /\ getModelByRole (ResetClaims.role payload) = Done m
        /\ castObjectId P (ResetClaims.id payload) = Some id
        /\ Db.findById (model_collection m dir) id = Some user
        /\ PasswordHelper.strong (Utf8.of_string password)
        /\ bcrypt_compare P password (Account.password user) = false
        /\ Db.findById (model_collection m (ResetOutcome.dir o)) id
           = Some (set_password user (bcrypt_hash R password 12 salt)
                     (Js.Str (Buf.toString_hex sid)))
        /\ model_collection
             (match m with
              | SuperAdminModel => AgencyModel
              | AgencyModel => SuperAdminModel
              end) (ResetOutcome.dir o)
           = model_collection
               (match m with
                | SuperAdminModel => AgencyModel
                | AgencyModel => SuperAdminModel
                end) dir).
Proof.
  intros o. split.
  - subst o. unfold resetPassword.
    destruct (negb (Text.truthy newPassword)); [cbn; auto|].
    destruct (verifyResetToken P R SECRET token now) as [payload|e];
      [|cbn; auto].
    destruct (getModelByRole (ResetClaims.role payload)) as [m|e];
      [|cbn; auto].
    destruct (castObjectId P (ResetClaims.id payload)) as [id|];
      [|cbn; auto].
    destruct (Db.findById (model_collection m dir) id) as [user|];
      [|cbn; auto].
    destruct (resetUserPassword P R m dir user (Text.get newPassword) salt sid)
      as [[dir' eff]|e]; [|cbn; auto].
    cbn. intros H. contradiction H. reflexivity.
  - intros H200.
    destruct (reset_success_inv P R SECRET now salt sid dir token newPassword
                H200)
      as (password & payload & m & id & user & Hp & Hv & Hm & Hc & Hf & Ht
          & Hcmp & Ho).
    fold o in Ho. exists password, payload, m, id, user.
    rewrite Ho. cbn [ResetOutcome.dir].
    refine (conj Hp (conj Hv (conj Hm (conj Hc (conj Hf
              (conj _ (conj Hcmp (conj _ _)))))))).
    + apply passwordRegex_strong, Ht.
    + rewrite collection_model_store.
      apply (findById_save _ id user); [exact Hf|].
      cbn [set_password Account._id]. apply (findById_id _ _ _ Hf).
    + destruct m; reflexivity.
Qed.

Section ResetCompositions.

Variable P : Primitives.
Variable R : ResetPrimitives.
Variable SECRET : string.

Lemma reset_failure_inv (now : Z) (salt sid : list byte) (dir : Directory.t)
    (token : string) (newPassword : option string) :
  let o := resetPassword P R SECRET now salt sid dir token newPassword in
  Response.status (ResetOutcome.response o) <> 200 ->
  ResetOutcome.dir o = dir /\ ResetOutcome.effects o = []
  /\ Response.status (ResetOutcome.response o) = 400.
Proof.
  intros o. subst o. unfold resetPassword.
  destruct (negb (Text.truthy newPassword)); [cbn; auto|].
  destruct (verifyResetToken P R SECRET token now) as [payload|e];
    [|cbn; auto].
  destruct (getModelByRole (ResetClaims.role payload)) as [m|e];
    [|cbn; auto].
  destruct (castObjectId P (ResetClaims.id payload)) as [id|];
    [|cbn; auto].
  destruct (Db.findById (model_collection m dir) id) as [user|];
    [|cbn; auto].
  destruct (resetUserPassword P R m dir user (Text.get newPassword) salt sid)
    as [[dir' eff]|e]; [|cbn; auto].
  cbn. intros H. contradiction H. reflexivity.
Qed.

(** A reset that saved a super admin: what it stored, and where. *)
Lemma reset_saved_super_admin (now : Z) (salt sid : list byte)
    (dir : Directory.t) (token : string) (newPassword : option string)
    (doc : Account.t) :
  let o := resetPassword P R SECRET now salt sid dir token newPassword in
  In (ResetSave SuperAdminModel doc) (ResetOutcome.effects o) ->
  exists password user,
    newPassword = Some password
    /\ PasswordHelper.passwordRegex_test password = true
    /\ Db.findById (Directory.superAdmins dir) (Account._id doc) = Some user
    /\ doc = set_password user (bcrypt_hash R password 12 salt)
               (Js.Str (Buf.toString_hex sid))
    /\ Directory.superAdmins (ResetOutcome.dir o)
       = Db.save (Directory.superAdmins dir) doc.
Proof.
  intros o Hin.
  destruct (Z.eq_dec (Response.status (ResetOutcome.response o)) 200)
    as [H200|Hnot].
  - destruct (reset_success_inv P R SECRET now salt sid dir token newPassword
                H200)
      as (password & payload & m & id & user & Hp & _ & _ & _ & Hf & Ht & _
          & Ho).
    fold o in Ho. cbv zeta in Ho. rewrite Ho in Hin |- *.
    cbn [ResetOutcome.effects ResetOutcome.dir In] in *.
    destruct Hin as [Hin | [Hin | [Hin | []]]]; try discriminate.
    injection Hin as -> <-.
    exists password, user.
    cbn [set_password Account._id model_store model_collection
           Directory.superAdmins] in *.
    rewrite (findById_id _ _ _ Hf). auto.
  - destruct (reset_failure_inv now salt sid dir token newPassword Hnot)
      as (_ & Heff & _).
    fold o in Heff. rewrite Heff in Hin. contradiction.
Qed.

End ResetCompositions.

(** X16.  A password reset signs the account out everywhere: once a reset has
    saved a super admin with a fresh session id, the middleware refuses, at
    every instant, a request it let through for that account before. *)
Theorem reset_revokes_sessions (P : Primitives) (R : ResetPrimitives)
    (SECRET : string) (cfg : Config.t) (now0 now now' : Z)
    (salt sid : list byte) (dir : Directory.t) (users : list Account.t)
    (token : string) (newPassword : option string) (req : Request.t)
    (u : ReqUser.t) (doc : Account.t) :
  let o := resetPassword P R SECRET now salt sid dir token newPassword in
  encryptedAuthMiddleware P cfg now0
    (Db.make (Directory.superAdmins dir) users) req = Gate.Next u ->
  In (ResetSave SuperAdminModel doc) (ResetOutcome.effects o) ->
  Account._id doc = ReqUser.id u ->
  ReqUser.sessionId u <> Js.Str (Buf.toString_hex sid) ->
  exists r,
    encryptedAuthMiddleware P cfg now'
      (Db.make (Directory.superAdmins (ResetOutcome.dir o)) users) req
    = Gate.Reply r.
Proof.
  intros o Hg Hin Hid Hfresh.
  destruct (reset_saved_super_admin P R SECRET now salt sid dir token
              newPassword doc Hin)
    as (password & user & _ & _ & Hf & Hdoc & Hdir).
  fold o in Hdir.
  destruct (gate_next_inv P cfg now0 _ req u Hg)
    as (d & user_g & Hopen & _ & _ & _ & Hc & _ & _ & Hs & Hu).
  apply (stale_token_refused P cfg now0 now'
           (Db.make (Directory.superAdmins (ResetOutcome.dir o)) users) req d
           (ReqUser.id u) doc Hopen Hc).
  - cbn [Db.superAdmins]. rewrite Hdir, <- Hid.
    apply (findById_save _ _ user); [exact Hf | reflexivity].
  - rewrite Hs. rewrite Hu in Hfresh. cbn [ReqUser.sessionId] in Hfresh.
    rewrite Hdoc. cbn [set_password Account.sessionId]. exact Hfresh.
Qed.

(** X17.  After a reset that saved a super admin, the new password logs the
    account in, unless the account is locked: a reset leaves the lockout
    as it was. *)
Theorem reset_then_login (P : Primitives) (R : ResetPrimitives)
    (SECRET : string) (cfg : Config.t) (now t1 : Z)
    (salt sid sid' iv : list byte) (dir : Directory.t)
    (users : list Account.t) (token email password : string)
    (user doc : Account.t) :
  ResetContract.hash_compare P R ->
  NoDup (map Account._id (Directory.superAdmins dir)) ->
  let o := resetPassword P R SECRET now salt sid dir token (Some password) in
  In (ResetSave SuperAdminModel doc) (ResetOutcome.effects o) ->
  email <> "" ->
  Db.findOne (Directory.superAdmins dir) email = Some user ->
  Account._id user = Account._id doc ->
  Gcm.init_ok (Config.ENCRYPTION_KEY cfg) iv = true ->
  let db' := Db.make (Directory.superAdmins (ResetOutcome.dir o)) users in
  let answer :=
    Outcome.response
      (loginSuperAdmin P cfg t1 sid' iv db'
         (Request.credentials email password)) in
  Account.lockUntil doc = Account.lockUntil user
  /\ Account.loginAttempts doc = Account.loginAttempts user
  /\ (locked user t1 = true ->
      answer = Response.failure 423 (locked_message user t1))
  /\ (locked user t1 = false ->
      exists token', answer = welcome_response Flavour.superAdmin user token').
Proof.
  intros Hhash Hnd o Hin He Hone Hid Hinit db' answer.
  destruct (reset_saved_super_admin P R SECRET now salt sid dir token
              (Some password) doc Hin)
    as (password' & user' & Hp & Ht & Hf & Hdoc & Hdir).
  injection Hp as <-. fold o in Hdir.
  assert (Huser : user' = user).
  { apply (NoDup_ids_unique (Directory.superAdmins dir)); auto.
    - unfold Db.findById in Hf. apply find_some in Hf. tauto.
    - unfold Db.findOne in Hone. apply find_some in Hone. tauto.
    - rewrite (findById_id _ _ _ Hf). auto. }
  subst user'.
  assert (Hpw : password <> "").
  { apply passwordRegex_strong in Ht. destruct Ht as (Hlen & _).
    rewrite of_string_length in Hlen. intros ->. cbn in Hlen. lia. }
  assert (Hfind : Db.findOne (Db.superAdmins db') email = Some doc).
  { subst db'. cbn [Db.superAdmins]. rewrite Hdir.
    apply (findOne_save _ _ user); auto. rewrite Hdoc. reflexivity. }
  assert (Hlock : forall t, locked doc t = locked user t).
  { intros t. rewrite Hdoc. reflexivity. }
  split; [rewrite Hdoc; reflexivity|].
  split; [rewrite Hdoc; reflexivity|].
  split.
  - intros Hlocked. subst answer. unfold loginSuperAdmin.
    rewrite (login_locked P cfg Flavour.superAdmin t1 sid' iv db' email password
               He Hpw doc Hfind) by (rewrite Hlock; exact Hlocked).
    cbn [Outcome.response]. unfold locked_message. rewrite Hdoc. reflexivity.
  - intros Hfree.
    assert (Hcmp : bcrypt_compare P password (Account.password doc) = true).
    { rewrite Hdoc. cbn [set_password Account.password]. apply Hhash. }
    destruct (login_right P cfg Flavour.superAdmin (or_introl eq_refl) t1 sid'
                iv db' email password He Hpw doc Hfind
                ltac:(rewrite Hlock; exact Hfree) Hcmp) as (Hr & _ & _).
    destruct (generateEncryptedToken_ok P cfg
                (Claims.make (Js.Str "SUPERADMIN")
                   (Some (UserClaim.make (Js.Str (Account._id doc))
                            (Js.Str (Account.email doc))))
                   (Js.Str (generateSecureToken sid')) None None)
                t1 iv eq_refl Hinit) as [token' Htok].
    cbn [Flavour.role Flavour.superAdmin] in Hr. rewrite Htok in Hr.
    exists token'. subst answer. unfold loginSuperAdmin. rewrite Hr.
    rewrite Hdoc. reflexivity.
Qed.

(** The sample super admin, reset while signed in. *)
Lemma reset_revokes_sessions_witness :
  exists r,
    encryptedAuthMiddleware Reference.prims Sample.cfg (2 * Sample.minute)
      (Db.make (Directory.superAdmins (ResetOutcome.dir ResetSample.reset))
         [Sample.traveller])
      (Request.with_cookie (Sample.token_of Sample.first_login))
    = Gate.Reply r.
Proof.
  apply (reset_revokes_sessions Reference.prims ResetReference.prims
           ResetReference.secret Sample.cfg Sample.minute Sample.minute
           (2 * Sample.minute) [x09] [x03] ResetSample.dir [Sample.traveller]
           ResetSample.token (Some "Fresh2#pw")
           (Request.with_cookie (Sample.token_of Sample.first_login))
           (ReqUser.make "a1" (Js.Str "SUPERADMIN") "root@oloha.io"
              (Js.Str "01"))
           ResetSample.saved).
  - vm_compute. reflexivity.
  - vm_compute. right. right. left. reflexivity.
  - reflexivity.
  - discriminate.
Defined.

(** The sample super admin signs in with the new password. *)
Lemma reset_then_login_witness :
  exists token',
    Outcome.response
      (loginSuperAdmin Reference.prims Sample.cfg (2 * Sample.minute) [x04]
         [x0c]
         (Db.make (Directory.superAdmins (ResetOutcome.dir ResetSample.reset))
            [Sample.traveller])
         (Request.credentials "root@oloha.io" "Fresh2#pw"))
    = welcome_response Flavour.superAdmin
        (Account.set_login Sample.root 0 (Js.Str "01")) token'.
Proof.
  destruct (reset_then_login Reference.prims ResetReference.prims
              ResetReference.secret Sample.cfg Sample.minute
              (2 * Sample.minute) [x09] [x03] [x04] [x0c] ResetSample.dir
              [Sample.traveller] ResetSample.token "root@oloha.io" "Fresh2#pw"
              (Account.set_login Sample.root 0 (Js.Str "01"))
              ResetSample.saved ref_hash_compare)
    as (_ & _ & _ & H).
  - cbn. constructor; [intros []|constructor].
  - vm_compute. right. right. left. reflexivity.
  - discriminate.
  - reflexivity.
  - reflexivity.
  - reflexivity.
  - apply H. reflexivity.
Defined.

Section ForgotFacts.

Variable P : Primitives.
Variable R : ResetPrimitives.
Variable SECRET : string.



End ForgotFacts.



(* ================================================================== *)
(** * Registration *)
(* ================================================================== *)

Section SignupFacts.








Variable R : ResetPrimitives.




End SignupFacts.




(** The sample secret: 64 hexadecimal digits. *)
Lemma reset_secret_is_a_key_witness :
  List.length (Buf.from_hex ResetReference.secret) = 32%nat
  /\ (64 <= String.length ResetReference.secret)%nat.
Proof.
  destruct (reset_secret_is_a_key Reference.prims ResetReference.prims
              ResetReference.secret) as [H _].
  apply (H (ResetClaims.make (Js.Str "a1") (Js.Str "SUPERADMIN") None None)
           None 0 [x07] ResetSample.token).
  vm_compute. reflexivity.
Defined.

(** The sample reset: what is stored for the super admin. *)
Lemma reset_password_outcomes_witness :
  Db.findById (Directory.superAdmins (ResetOutcome.dir ResetSample.reset)) "a1"
  = Some ResetSample.saved.
Proof.
  destruct (reset_password_outcomes Reference.prims ResetReference.prims
              ResetReference.secret Sample.minute [x09] [x03] ResetSample.dir
              ResetSample.token (Some "Fresh2#pw")) as [_ H].
  destruct (H eq_refl)
    as (password & payload & m & id & user & Hp & Hv & Hm & Hc & Hf & _ & _
        & Hsaved & _).
  injection Hp as <-.
  vm_compute in Hv. injection Hv as <-.
  vm_compute in Hm. injection Hm as <-.
  vm_compute in Hc. injection Hc as <-.
  vm_compute in Hf. injection Hf as <-.
  exact Hsaved.
Defined.


(* ================================================================== *)
(** * The login of a travel agency *)
(* ================================================================== *)

Lemma agency_ids_unique (col : list Agency.t) (a b : Agency.t) :
  NoDup (map Agency._id col) -> In a col -> In b col ->
  Agency._id a = Agency._id b -> a = b.
Proof.
  induction col as [|c col IH]; [contradiction|].
  cbn [map]. intros Hnd Ha Hb Hid. inversion Hnd as [|? ? Hnotin Hnd']; subst.
  destruct Ha as [-> | Ha], Hb as [-> | Hb]; auto.
  - exfalso. apply Hnotin. rewrite Hid. apply in_map, Hb.
  - exfalso. apply Hnotin. rewrite <- Hid. apply in_map, Ha.
Qed.

Lemma agency_key_id (a b : Agency.t) :
  Agency.key a = Agency.key b -> Agency._id a = Agency._id b.
Proof. unfold Agency.key. congruence. Qed.

Lemma agency_keys_ids (col col' : list Agency.t) :
  map Agency.key col' = map Agency.key col ->
  map Agency._id col' = map Agency._id col.
Proof.
  intros H.
  assert (E : forall l, map Agency._id l
                        = map (fun k => fst (fst k)) (map Agency.key l)).
  { intros l. rewrite map_map. reflexivity. }
  rewrite !E, H. reflexivity.
Qed.

(** Saving a document that keeps the key of a stored one keeps the keys
    of the collection. *)
Lemma agency_save_keys (col : list Agency.t) (a doc : Agency.t) :
  NoDup (map Agency._id col) -> In a col ->
  Agency.key doc = Agency.key a ->
  map Agency.key (Agency.save col doc) = map Agency.key col.
Proof.
  intros Hnd Hin Hk. unfold Agency.save. rewrite map_map.
  apply map_ext_in. intros x Hx.
  destruct (String.eqb_spec (Agency._id x) (Agency._id doc)) as [Hid|];
    [|reflexivity].
  rewrite (agency_ids_unique col x a Hnd Hx Hin); [exact Hk|].
  rewrite Hid. apply agency_key_id, Hk.
Qed.

Lemma agency_save_in (col : list Agency.t) (a doc : Agency.t) :
  In a col -> Agency._id doc = Agency._id a -> In doc (Agency.save col doc).
Proof.
  intros Hin Hid. unfold Agency.save. apply in_map_iff. exists a.
  rewrite Hid, String.eqb_refl. auto.
Qed.

Lemma agency_findOne_in (col : list Agency.t) (q : string) (a : Agency.t) :
  Agency.findOne col q = Some a ->
  In a col /\ Account.email (Agency.account a) = q.
Proof.
  unfold Agency.findOne. intros H. apply find_some in H.
  destruct H as [Hin He]. apply String.eqb_eq in He. auto.
Qed.

(** The lookup by email sees the keys only. *)
Lemma agency_findOne_keys (col col' : list Agency.t) (q : string)
    (a : Agency.t) :
  map Agency.key col' = map Agency.key col ->
  Agency.findOne col q = Some a ->
  exists a', Agency.findOne col' q = Some a' /\ Agency.key a' = Agency.key a.
Proof.
  revert col'. induction col as [|c col IH]; intros [|c' col'] Hk Hf;
    try discriminate.
  cbn [map] in Hk. unfold Agency.key at 1 3 in Hk.
  injection Hk as Hid He Hst Hk.
  unfold Agency.findOne in *. cbn [find] in *.
  rewrite He.
  destruct (Account.email (Agency.account c) =? q)%string.
  - injection Hf as <-. exists c'. unfold Agency.key. split; congruence.
  - apply IH; assumption.
Qed.

Section AgencyFacts.

Variable P : Primitives.
Variable cfg : Config.t.

(** The password check stores one document, with the key of the one it
    was given. *)
Lemma agency_password_step_keys (now : Z) (sid iv : list byte)
    (password : string) (agency : Agency.t) (col : list Agency.t)
    (eff : list agency_effect) :
  NoDup (map Agency._id col) -> In agency col ->
  map Agency.key
    (AgencyOutcome.agencies
       (agency_password_step P cfg now sid iv password agency col eff))
  = map Agency.key col.
Proof.
  intros Hnd Hin. unfold agency_password_step.
  destruct (negb _).
  - cbn [AgencyOutcome.agencies].
    apply (agency_save_keys col agency); auto.
    unfold strike. destruct (_ >=? _); reflexivity.
  - destruct (generateEncryptedToken _ _ _ _ _);
      cbn [AgencyOutcome.agencies];
      apply (agency_save_keys col agency); auto.
Qed.

(** [loginAgency] changes neither the id, nor the email, nor the status
    of a stored agency. *)
Lemma loginAgency_keys (now : Z) (sid iv : list byte)
    (agencies : list Agency.t) (req : Request.t) :
  NoDup (map Agency._id agencies) ->
  map Agency.key
    (AgencyOutcome.agencies (loginAgency P cfg now sid iv agencies req))
  = map Agency.key agencies.
Proof.
  intros Hnd. unfold loginAgency.
  destruct (_ || _); [reflexivity|].
  destruct (Agency.findOne agencies _) as [agency|] eqn:Hf; [|reflexivity].
  apply agency_findOne_in in Hf. destruct Hf as [Hin _].
  destruct (locked _ now); [reflexivity|].
  set (a := Agency.with_account agency
              (Account.set_lock (Agency.account agency) 0 None)).
  assert (Hka : map Agency.key (Agency.save agencies a)
                = map Agency.key agencies).
  { apply (agency_save_keys agencies agency); auto. }
  assert (Hnda : NoDup (map Agency._id (Agency.save agencies a))).
  { rewrite (agency_keys_ids _ _ Hka). exact Hnd. }
  assert (Hina : In a (Agency.save agencies a)).
  { apply (agency_save_in agencies agency); auto. }
  destruct (lock_expired _ now).
  - cbn [Agency.status a Agency.with_account].
    destruct (Agency.status agency =? "PENDING")%string; [exact Hka|].
    destruct (Agency.status agency =? "BANNED")%string; [exact Hka|].
    destruct (Agency.status agency =? "SUSPENDED")%string.
    + destruct (suspension_running _ now); [exact Hka|].
      cbn. exact Hka.
    + rewrite agency_password_step_keys; auto.
  - destruct (Agency.status agency =? "PENDING")%string; [reflexivity|].
    destruct (Agency.status agency =? "BANNED")%string; [reflexivity|].
    destruct (Agency.status agency =? "SUSPENDED")%string.
    + destruct (suspension_running _ now); reflexivity.
    + rewrite agency_password_step_keys; auto.
Qed.

(** What one request does for an agency that is pending, banned or
    suspended. *)
Lemma loginAgency_barred (now : Z) (sid iv : list byte)
    (agencies : list Agency.t) (req : Request.t) (agency : Agency.t) :
  Agency.findOne agencies (Text.toLowerCase (Text.get (Request.email req)))
  = Some agency ->
  In (Agency.status agency) Agency.barred ->
  let o := loginAgency P cfg now sid iv agencies req in
  In (Response.status (AgencyOutcome.response o)) [400; 403; 423; 500]
  /\ Response.cookies (AgencyOutcome.response o) = Response.NoCookie
  /\ forall password hash,
       ~ In (AgencyCompare password hash) (AgencyOutcome.effects o).
Proof.
  intros Hf Hb o. subst o. unfold loginAgency. rewrite Hf.
  destruct (_ || _); [cbn; intuition discriminate|].
  destruct (locked _ now); [cbn; intuition discriminate|].
  assert (Hs : Agency.status agency = "PENDING"
               \/ Agency.status agency = "BANNED"
               \/ Agency.status agency = "SUSPENDED").
  { cbn in Hb. intuition auto. }
  destruct (lock_expired _ now);
    cbn [Agency.status Agency.with_account];
    destruct Hs as [-> | [-> | ->]]; cbn;
    try (destruct (suspension_running _ now); cbn);
    intuition discriminate.
Qed.

End AgencyFacts.

(** X21.  An agency that is pending, banned or suspended never logs in,
    whatever is sent to the login route, in whatever order and at
    whatever time: every request for its email is turned away with 400,
    403, 423 or 500, sets no cookie, and does not even reach the
    password check.  This holds after the end of a suspension too. *)
Theorem barred_agency_never_logs_in (P : Primitives) (cfg : Config.t)
    (attempts : list Attempt.t) (agencies : list Agency.t) (email : string)
    (agency : Agency.t) :
  NoDup (map Agency._id agencies) ->
  Agency.findOne agencies email = Some agency ->
  In (Agency.status agency) Agency.barred ->
  forall (n : nat) (a : Attempt.t) (o : AgencyOutcome.t),
    nth_error attempts n = Some a ->
    nth_error (agency_logins P cfg attempts agencies) n = Some o ->
    Text.toLowerCase (Text.get (Request.email (Attempt.req a))) = email ->
    In (Response.status (AgencyOutcome.response o)) [400; 403; 423; 500]
    /\ Response.cookies (AgencyOutcome.response o) = Response.NoCookie
    /\ forall password hash,
         ~ In (AgencyCompare password hash) (AgencyOutcome.effects o).
Proof.
  revert agencies agency.
  induction attempts as [|a0 rest IH]; intros agencies agency Hnd Hf Hb n a o
    Ha Ho He.
  - destruct n; discriminate.
  - destruct n as [|n]; cbn [nth_error agency_logins] in Ha, Ho.
    + injection Ha as ->. injection Ho as <-.
      apply (loginAgency_barred P cfg _ _ _ agencies _ agency); auto.
      rewrite He. exact Hf.
    + set (o0 := loginAgency P cfg (Attempt.instant a0) (Attempt.sid a0)
                   (Attempt.iv a0) agencies (Attempt.req a0)) in *.
      pose proof (loginAgency_keys P cfg (Attempt.instant a0) (Attempt.sid a0)
                    (Attempt.iv a0) agencies (Attempt.req a0) Hnd) as Hk.
      fold o0 in Hk.
      destruct (agency_findOne_keys agencies (AgencyOutcome.agencies o0)
                  email agency Hk Hf) as (agency' & Hf' & Hk').
      apply (IH (AgencyOutcome.agencies o0) agency'
               ltac:(rewrite (agency_keys_ids _ _ Hk); exact Hnd) Hf'
               ltac:(unfold Agency.key in Hk';
                     replace (Agency.status agency')
                       with (Agency.status agency) by congruence;
                     exact Hb)
               n a o Ha Ho He).
Qed.

(** The sample agencies: one is suspended, the other is activated. *)
Lemma barred_agency_never_logs_in_witness :
  exists o,
    nth_error
      (agency_logins Reference.prims Sample.cfg AgencySample.attempts
         AgencySample.agencies) 2 = Some o
    /\ In (Response.status (AgencyOutcome.response o)) [400; 403; 423; 500]
    /\ Response.cookies (AgencyOutcome.response o) = Response.NoCookie
    /\ forall password hash,
         ~ In (AgencyCompare password hash) (AgencyOutcome.effects o).
Proof.
  eexists. split; [reflexivity|].
  apply (barred_agency_never_logs_in Reference.prims Sample.cfg
           AgencySample.attempts AgencySample.agencies "desk@globe.io"
           AgencySample.globe
           ltac:(repeat constructor; cbn; intuition discriminate)
           eq_refl ltac:(cbn; auto) 2
           (Attempt.make 2000 [x03] [x0c]
              (Request.credentials "Desk@Globe.io" "$Agency7?"))
           _ eq_refl eq_refl eq_refl).
Defined.

(** X22.  A suspension is not lifted by logging in.  When a suspended
    agency that is not locked asks to log in, the handler finds no
    running suspension on the document it has loaded and tries to store
    the status "ACTIVE", which the schema does not allow: the request
    is answered 500 with the validation error, the password is not
    looked at, and the agency stays suspended; only an expired lock has
    been cleared. *)
Theorem ended_suspension_not_lifted (P : Primitives) (cfg : Config.t)
    (now : Z) (sid iv : list byte) (agencies : list Agency.t)
    (req : Request.t) (agency : Agency.t) :
  Text.truthy (Request.email req) = true ->
  Text.truthy (Request.password req) = true ->
  Agency.findOne agencies (Text.toLowerCase (Text.get (Request.email req)))
  = Some agency ->
  Agency.status agency = "SUSPENDED" ->
  locked (Agency.account agency) now = false ->
  let o := loginAgency P cfg now sid iv agencies req in
  let cleared :=
    Agency.make (unlock (Agency.account agency) now) "SUSPENDED" in
  AgencyOutcome.response o
  = signup_error
      "Agency validation failed: status: `ACTIVE` is not a valid enum value for path `status`."
  /\ AgencyOutcome.agencies o
     = (if lock_expired (Agency.account agency) now
        then Agency.save agencies cleared else agencies)
  /\ AgencyOutcome.effects o
     = (if lock_expired (Agency.account agency) now
        then [AgencySave cleared] else []).
Proof.
  intros He Hp Hf Hs Hl o cleared. subst o cleared.
  unfold loginAgency, unlock. rewrite He, Hp, Hf, Hl. cbn [negb orb].
  destruct agency as [acc status]. cbn [Agency.status] in Hs. subst.
  cbn [Agency.account] in *.
  destruct (lock_expired acc now);
    cbn [Agency.status Agency.with_account Agency.account
           String.eqb Ascii.eqb Bool.eqb];
    unfold suspension_running, Agency.suspension_endAt; cbn; auto.
Qed.

Lemma ended_suspension_not_lifted_witness :
  let o :=
    loginAgency Reference.prims Sample.cfg 2000 [x01] [x0a]
      AgencySample.agencies (Request.credentials "Desk@Globe.io" "$Agency7?") in
  AgencyOutcome.response o
  = signup_error
      "Agency validation failed: status: `ACTIVE` is not a valid enum value for path `status`."
  /\ AgencyOutcome.agencies o = AgencySample.agencies
  /\ AgencyOutcome.effects o = [].
Proof.
  exact (ended_suspension_not_lifted Reference.prims Sample.cfg 2000 [x01]
           [x0a] AgencySample.agencies
           (Request.credentials "Desk@Globe.io" "$Agency7?")
           AgencySample.globe eq_refl eq_refl eq_refl eq_refl eq_refl).
Defined.

(** X23.  The token [loginAgency] hands out opens no route behind the
    middleware, which resolves super admins only.  An activated agency
    with the right password is welcomed with a token; whatever the
    store and the instant, the middleware answers a request that
    carries it as a cookie with one of its replies, and with 401
    "Invalid role" while the token is fresh. *)
Theorem agency_token_never_admitted (P : Primitives) (cfg : Config.t)
    (t0 : Z) (sid iv : list byte) (agencies : list Agency.t)
    (email password : string) (agency : Agency.t) :
  Contract.tag_length P -> Contract.jws_roundtrip P ->
  Contract.jws_text P -> Contract.transport_roundtrip P ->
  email <> "" -> password <> "" ->
  Agency.findOne agencies (Text.toLowerCase email) = Some agency ->
  Agency.status agency = "ACTIVATED" ->
  locked (Agency.account agency) t0 = false ->
  bcrypt_compare P password (Account.password (Agency.account agency)) = true ->
  Gcm.init_ok (Config.ENCRYPTION_KEY cfg) iv = true ->
  exists token,
    AgencyOutcome.response
      (loginAgency P cfg t0 sid iv agencies
         (Request.credentials email password))
    = agency_welcome agency token
    /\ forall now db,
         exists r,
           encryptedAuthMiddleware P cfg now db (Request.with_cookie token)
           = Gate.Reply r
           /\ In r gate_replies
           /\ (token <> "" -> Agency._id agency <> "" ->
               now <= t0 / 1000 * 1000 + 24 * 60 * 60 * 1000 ->
               r = Response.failure 401 "Invalid role").
Proof.
  intros Htag Hjws Htext Htransport He Hp Hfind Hs Hfree Hcmp Hinit.
  set (payload :=
         agency_claims agency (Js.Str (generateSecureToken sid))).
  destruct (generateEncryptedToken_ok P cfg payload t0 iv eq_refl Hinit)
    as [token Htok].
  exists token. split.
  - unfold loginAgency.
    cbn [Request.credentials Request.email Request.password Text.truthy
           Text.get].
    apply String.eqb_neq in He, Hp. rewrite He, Hp. cbn [negb orb].
    rewrite Hfind, Hfree.
    destruct agency as [acc status]. cbn [Agency.status] in Hs. subst.
    cbn [Agency.account] in *.
    destruct (lock_expired acc t0);
      cbn [Agency.status Agency.with_account Agency.account
             String.eqb Ascii.eqb Bool.eqb];
      unfold agency_password_step;
      cbn [Agency.account Agency.with_account Account.set_lock
             Account.password];
      rewrite Hcmp; cbn [negb];
      unfold payload, agency_claims, Agency._id in Htok;
      unfold agency_claims, agency_welcome, Agency._id;
      cbn [Agency._id Agency.account Agency.with_account Account.set_login
             Account.set_lock Account._id Account.email Account.sessionId]
        in Htok |- *;
      rewrite Htok; reflexivity.
  - intros now db.
    destruct (encryptedAuthMiddleware P cfg now db (Request.with_cookie token))
      as [u|r] eqn:Hg.
    + exfalso.
      destruct (gate_next_inv P cfg now db _ u Hg)
        as (d & user & Hopen & _ & _ & Hrole & _).
      rewrite (issued_cookie_claims P cfg Htag Hjws Htext Htransport payload t0
                 now iv token d eq_refl eq_refl Htok Hopen) in Hrole.
      discriminate.
    + exists r. split; [reflexivity|].
      split; [exact (gate_reply_shapes P cfg now db _ r Hg)|].
      intros Hne Hid Hnow.
      assert (Hopen :
                open_token P cfg now (Request.with_cookie token)
                = Ok (Some (Claims.with_times payload (t0 / 1000)
                              (t0 / 1000 + 86400)))).
      { rewrite (issued_cookie_opens P cfg Htag Hjws Htext Htransport payload
                   t0 now iv token eq_refl eq_refl Htok Hne).
        destruct (Z.geb_spec (now / 1000) (t0 / 1000 + 86400 + 30));
          [|reflexivity].
        exfalso. Z.div_mod_to_equations. lia. }
      rewrite (gate_after_open P cfg now db _ _ Hopen) in Hg.
      unfold check_claims in Hg.
      assert (Hm : malformed
                     (Claims.with_times payload (t0 / 1000)
                        (t0 / 1000 + 86400))
                   = false).
      { apply String.eqb_neq in Hid.
        unfold malformed, payload, agency_claims. cbn.
        rewrite Hid. reflexivity. }
      assert (Hl : exceeded_max_lifetime
                     (Claims.with_times payload (t0 / 1000)
                        (t0 / 1000 + 86400))
                     now = false).
      { unfold exceeded_max_lifetime, payload. cbn. apply Z.ltb_ge. lia. }
      rewrite Hm, Hl in Hg. cbn in Hg. injection Hg as <-. reflexivity.
Qed.

(** The activated sample agency logs in and is turned away with the
    token. *)
Lemma agency_token_never_admitted_witness :
  exists token,
    AgencyOutcome.response
      (loginAgency Reference.prims Sample.cfg 1500 [x02] [x0b]
         AgencySample.agencies
         (Request.credentials "hello@atlas.io" "Atlas88!"))
    = agency_welcome AgencySample.atlas token
    /\ forall now db,
         exists r,
           encryptedAuthMiddleware Reference.prims Sample.cfg now db
             (Request.with_cookie token)
           = Gate.Reply r
           /\ In r gate_replies
           /\ (token <> "" -> Agency._id AgencySample.atlas <> "" ->
               now <= 1500 / 1000 * 1000 + 24 * 60 * 60 * 1000 ->
               r = Response.failure 401 "Invalid role").
Proof.
  exact (agency_token_never_admitted Reference.prims Sample.cfg 1500 [x02]
           [x0b] AgencySample.agencies "hello@atlas.io" "Atlas88!"
           AgencySample.atlas ref_tag_length ref_jws_roundtrip ref_jws_text
           ref_transport_roundtrip
           ltac:(discriminate) ltac:(discriminate)
           eq_refl eq_refl eq_refl eq_refl eq_refl).
Defined.
